(** * replicate-api-proxy: message normalisation, resilient dispatch, SSE encoding

    A shallow embedding of the TypeScript sources
    [message-processor.ts], [api-service.ts], [controllers.ts] and [utils.ts]
    of the proxy, followed by the properties of its specification.

    Conventions.
    - A JavaScript string is a [string]: text that comes from a JSON body is
      its UTF-8 byte sequence, a header value is a byte string as the Fetch
      [Headers] object delivers it (one character per byte).
    - [x || y], [if (x)] and [!x] on a string test emptiness ([truthy]).
    - A loop that accumulates with [+=] or [push] is a recursive function that
      threads the accumulator.
    - Mutable process state (the rotation cursor), the clock, the random
      source and the upstream service are explicit: a [World] is passed
      through every effectful function and an [Env] answers the calls. *)

From Stdlib Require Import String Ascii List ZArith Lia Bool Arith.
From Stdlib Require QArith.
From Stdlib Require Import DecimalString.
From Equations Require Import Equations.
Import ListNotations.
Open Scope string_scope.

(** A value under case analysis together with the equation that names it;
    a clause matches it as [exist _ value equation]. *)
Definition inspect {A : Type} (x : A) : { y : A | x = y } := exist _ x eq_refl.


(** ** JavaScript strings *)

Module Js.

Definition nl : string := String "010"%char EmptyString.
Definition dq : string := String "034"%char EmptyString.
Definition bs : string := String "092"%char EmptyString.

(** [Boolean(s)] for a string. *)
Definition truthy (s : string) : bool := negb (s =? "").

(** [Boolean(o)] for [o : string | undefined]. *)
Definition truthy_opt (o : option string) : bool :=
  match o with
  | Some s => truthy s
  | None => false
  end.

(** [o || d] for [o : string | undefined]. *)
Definition or_else (o : option string) (d : string) : string :=
  match o with
  | Some s => if truthy s then s else d
  | None => d
  end.

(** [parts.join(sep)]. *)
Fixpoint join (sep : string) (parts : list string) : string :=
  match parts with
  | [] => ""
  | [p] => p
  | p :: rest => p ++ sep ++ join sep rest
  end.

Fixpoint rev_acc (s acc : string) : string :=
  match s with
  | EmptyString => acc
  | String c r => rev_acc r (String c acc)
  end.

Definition rev (s : string) : string := rev_acc s "".

(** White space and line terminators of ECMAScript, on UTF-8 text:
    TAB LF VT FF CR SP, U+00A0, U+1680, U+2000..U+200A, U+2028, U+2029,
    U+202F, U+205F, U+3000, U+FEFF. *)
Definition ws1 (a : ascii) : bool :=
  let n := nat_of_ascii a in (((9 <=? n) && (n <=? 13)) || (n =? 32))%nat.

Definition ws2 (a b : ascii) : bool :=
  ((nat_of_ascii a =? 194) && (nat_of_ascii b =? 160))%nat.

Definition ws3 (a b c : ascii) : bool :=
  let x := nat_of_ascii a in
  let y := nat_of_ascii b in
  let z := nat_of_ascii c in
  (((x =? 225) && (y =? 154) && (z =? 128))
   || ((x =? 226) && (y =? 128)
       && (((128 <=? z) && (z <=? 138)) || (z =? 168) || (z =? 169) || (z =? 175)))
   || ((x =? 226) && (y =? 129) && (z =? 159))
   || ((x =? 227) && (y =? 128) && (z =? 128))
   || ((x =? 239) && (y =? 187) && (z =? 191)))%nat.

(** [s.trimStart()]. *)
Fixpoint trimStart (s : string) : string :=
  match s with
  | EmptyString => s
  | String a r =>
      if ws1 a then trimStart r
      else match r with
           | EmptyString => s
           | String b r2 =>
               if ws2 a b then trimStart r2
               else match r2 with
                    | EmptyString => s
                    | String c r3 => if ws3 a b c then trimStart r3 else s
                    end
           end
  end.

(** The same scan on the reversed text, where each multi-byte sequence
    appears last byte first. *)
Fixpoint trimStartRev (s : string) : string :=
  match s with
  | EmptyString => s
  | String a r =>
      if ws1 a then trimStartRev r
      else match r with
           | EmptyString => s
           | String b r2 =>
               if ws2 b a then trimStartRev r2
               else match r2 with
                    | EmptyString => s
                    | String c r3 => if ws3 c b a then trimStartRev r3 else s
                    end
           end
  end.

Definition trimEnd (s : string) : string := rev (trimStartRev (rev s)).

(** [s.trim()]. *)
Definition trim (s : string) : string := trimEnd (trimStart s).

(** [s.toLowerCase()] on a byte string: A..Z and the Latin-1 capitals
    U+00C0..U+00DE (U+00D7 apart) move up by 32, every other character
    stays. *)
Definition lower_char (a : ascii) : ascii :=
  let n := nat_of_ascii a in
  if (((65 <=? n) && (n <=? 90))
      || ((192 <=? n) && (n <=? 222) && negb (n =? 215)))%nat
  then ascii_of_nat (n + 32) else a.

Fixpoint toLowerCase (s : string) : string :=
  match s with
  | EmptyString => EmptyString
  | String a r => String (lower_char a) (toLowerCase r)
  end.

(** [s.startsWith(p)]. *)
Fixpoint startsWith (s p : string) {struct p} : bool :=
  match p with
  | EmptyString => true
  | String a p' =>
      match s with
      | EmptyString => false
      | String b s' => Ascii.eqb b a && startsWith s' p'
      end
  end.

(** [s.substring(n)]. *)
Fixpoint substring_from (n : nat) (s : string) : string :=
  match n, s with
  | 0, _ => s
  | S n', String _ r => substring_from n' r
  | S _, EmptyString => EmptyString
  end.

(** [String(z)] for an integral number. *)
Definition string_of_Z (z : Z) : string := NilZero.string_of_int (Z.to_int z).

(** *** [JSON.stringify] *)

#[warnings="-register-all"]
Inductive JSON : Type :=
| JNull
| JBool (b : bool)
| JNum (z : Z)
| JStr (s : string)
| JArr (elems : list JSON)
| JObj (members : list (string * JSON)).

Definition hex_digit (n : nat) : ascii :=
  if (n <? 10)%nat then ascii_of_nat (48 + n) else ascii_of_nat (87 + n).

Definition escape_char (a : ascii) : string :=
  let n := nat_of_ascii a in
  if (n =? 34)%nat then bs ++ dq
  else if (n =? 92)%nat then bs ++ bs
  else if (n =? 8)%nat then bs ++ "b"
  else if (n =? 9)%nat then bs ++ "t"
  else if (n =? 10)%nat then bs ++ "n"
  else if (n =? 12)%nat then bs ++ "f"
  else if (n =? 13)%nat then bs ++ "r"
  else if (n <? 32)%nat
       then bs ++ "u00" ++ String (hex_digit (n / 16)) (String (hex_digit (n mod 16)) "")
       else String a "".

Fixpoint escape (s : string) : string :=
  match s with
  | EmptyString => ""
  | String a r => escape_char a ++ escape r
  end.

Definition quote (s : string) : string := dq ++ escape s ++ dq.

Fixpoint stringify (j : JSON) : string :=
  match j with
  | JNull => "null"
  | JBool true => "true"
  | JBool false => "false"
  | JNum z => string_of_Z z
  | JStr s => quote s
  | JArr elems => "[" ++ join "," (map stringify elems) ++ "]"
  | JObj members =>
      "{" ++ join "," (map (fun kv => let '(k, v) := kv in
                                      quote k ++ ":" ++ stringify v) members) ++ "}"
  end.

End Js.

(** ** types.ts *)

Record ImageUrl : Type := { url : string }.

(** [{ type, text?, image_url? }]. *)
Record ContentItem : Type := {
  type : string;
  text : option string;
  image_url : option ImageUrl
}.

(** [content: string | ContentItem[]]; [CAbsent] is a [null] or missing
    content, which the code tests for. *)
Inductive Content : Type :=
| CString (s : string)
| CArray (items : list ContentItem)
| CAbsent.

Record Message : Type := { role : string; content : Content }.

(** [{ model?, messages, stream? }]. [messages = None] is a [messages] field
    that is missing or is not an array. *)
Record RequestBody : Type := {
  model : option string;
  messages : option (list Message);
  stream : option bool
}.

Record ModelInput : Type := {
  prompt : string;
  max_tokens : Z;
  system_prompt : string;
  max_image_resolution : QArith_base.Q;
  image : option string
}.

(** ** message-processor.ts *)

Module MessageProcessor.
Import Js.

(** The directive, as the two literals of the source hold it. *)
Definition antiSelfDialoguePrompt : string :=
  "请直接回答上述问题，提供完整详细的回答，然后停止。不要使用‘user：xxxx’模拟用户提问。严禁生成任何形式的'user:'等角色标记，不要模拟上下文中的‘user：xxxx，assistant：xxxx这种对话格式’，只需回答用户提出的问题即可。".

Definition isSystem (msg : Message) : bool := role msg =? "system".

(** Inner loop of [extractSystemPrompt] over the items of one message. *)
Fixpoint systemTextItems (items : list ContentItem) (systemPrompt : string) : string :=
  match items with
  | [] => systemPrompt
  | item :: rest =>
      if (type item =? "text") && truthy_opt (text item)
      then systemTextItems rest (systemPrompt ++ or_else (text item) "" ++ nl)
      else systemTextItems rest systemPrompt
  end.

(** Outer loop of [extractSystemPrompt] over the system messages. *)
Fixpoint systemTexts (systemMessages : list Message) (systemPrompt : string) : string :=
  match systemMessages with
  | [] => systemPrompt
  | sysMsg :: rest =>
      match content sysMsg with
      | CString s => systemTexts rest (systemPrompt ++ s ++ nl)
      | CArray items => systemTexts rest (systemTextItems items systemPrompt)
      | CAbsent => systemTexts rest systemPrompt
      end
  end.

(** [extractSystemPrompt(messages)]: the prompt, and the array as the call
    leaves it. *)
Definition extractSystemPrompt (messages : list Message) : string * list Message :=
  let systemMessages := filter isSystem messages in
  if (0 <? length systemMessages)%nat
  then (trim (systemTexts systemMessages ""),
        filter (fun msg => negb (isSystem msg)) messages)
  else (trim "", messages).

(** The guard of the [image_url] branch: the URL that is pushed, if any. *)
Definition pushedUrl (contentItem : ContentItem) : option string :=
  if type contentItem =? "image_url"
  then match image_url contentItem with
       | Some iu => if truthy (url iu) then Some (url iu) else None
       | None => None
       end
  else None.

(** Inner loop of [extractImageUrls]: [textOnlyContent] and [imageUrls]
    after the items of one message. *)
Fixpoint scanItems (items : list ContentItem) (textOnlyContent : list ContentItem)
         (imageUrls : list string) : list ContentItem * list string :=
  match items with
  | [] => (textOnlyContent, imageUrls)
  | contentItem :: rest =>
      match pushedUrl contentItem with
      | Some u => scanItems rest textOnlyContent (imageUrls ++ [u])
      | None =>
          if type contentItem =? "text"
          then scanItems rest (textOnlyContent ++ [contentItem]) imageUrls
          else scanItems rest textOnlyContent imageUrls
      end
  end.

(** [extractImageUrls(messages, imageUrls)]: both arrays after the call. *)
Fixpoint extractImageUrls (messages : list Message) (imageUrls : list string)
  : list Message * list string :=
  match messages with
  | [] => ([], imageUrls)
  | message :: rest =>
      match content message with
      | CArray items =>
          if role message =? "user"
          then let '(textOnlyContent, urls) := scanItems items [] imageUrls in
               let '(rest', urls') := extractImageUrls rest urls in
               ({| role := role message; content := CArray textOnlyContent |} :: rest', urls')
          else let '(rest', urls') := extractImageUrls rest imageUrls in
               (message :: rest', urls')
      | _ => let '(rest', urls') := extractImageUrls rest imageUrls in
             (message :: rest', urls')
      end
  end.

Definition textParts (items : list ContentItem) : string :=
  join " " (map (fun item => or_else (text item) "")
                (filter (fun item => type item =? "text") items)).

(** The [for] loop of [formatMessagesToConversation]. *)
Fixpoint formatTurns (messages : list Message) (formattedContent : string) : string :=
  match messages with
  | [] => formattedContent
  | message :: rest =>
      if truthy (role message)
      then match content message with
           | CArray items =>
               formatTurns rest (formattedContent ++ role message ++ ": " ++ textParts items ++ nl)
           | CString s =>
               if truthy s
               then formatTurns rest (formattedContent ++ role message ++ ": " ++ s ++ nl)
               else formatTurns rest formattedContent
           | CAbsent => formatTurns rest formattedContent
           end
      else formatTurns rest formattedContent
  end.

(** [messages[messages.length - 1].role === "user"]. *)
Definition lastRoleIsUser (messages : list Message) : bool :=
  match nth_error messages (length messages - 1) with
  | Some m => role m =? "user"
  | None => false
  end.

Definition formatMessagesToConversation (messages : list Message) : string :=
  let formattedContent := formatTurns messages "" in
  if truthy formattedContent && (0 <? length messages)%nat && lastRoleIsUser messages
  then formattedContent ++ "[" ++ antiSelfDialoguePrompt ++ "]" ++ nl
  else formattedContent.

Record Processed : Type := {
  userContent : option string;
  systemPrompt : string;
  imageUrls : list string
}.

(** [processMessages(requestBody)]. The deep copy through JSON is the
    identity on these values; nothing in the body of the [try] throws on
    them, so the [catch] branch has no counterpart. *)
Definition processMessages (requestBody : RequestBody) : Processed :=
  match messages requestBody with
  | None | Some [] =>
      {| userContent := None; systemPrompt := ""; imageUrls := [] |}
  | Some msgs =>
      let messagesClone := msgs in
      let '(systemPrompt, messagesClone) := extractSystemPrompt messagesClone in
      let '(messagesClone, imageUrls) := extractImageUrls messagesClone [] in
      let userContent := formatMessagesToConversation messagesClone in
      {| userContent := Some userContent;
         systemPrompt := systemPrompt;
         imageUrls := imageUrls |}
  end.

(** [buildModelInput(userContent, systemPrompt, imageUrls)]. *)
Definition buildModelInput (userContent systemPrompt : string) (imageUrls : list string)
  : ModelInput :=
  let enhancedSystemPrompt := if truthy systemPrompt then systemPrompt else "" in
  let enhancedSystemPrompt :=
    if truthy enhancedSystemPrompt
    then enhancedSystemPrompt ++ nl ++ nl ++ antiSelfDialoguePrompt
    else antiSelfDialoguePrompt in
  let input := {| prompt := userContent;
                  max_tokens := 64000;
                  system_prompt := enhancedSystemPrompt;
                  max_image_resolution := QArith_base.Qmake 1 2;
                  image := None |} in
  if (0 <? length imageUrls)%nat
  then if (length imageUrls =? 1)%nat
       then {| prompt := prompt input; max_tokens := max_tokens input;
               system_prompt := system_prompt input;
               max_image_resolution := max_image_resolution input;
               image := nth_error imageUrls 0 |}
       else {| prompt := prompt input; max_tokens := max_tokens input;
               system_prompt := system_prompt input;
               max_image_resolution := max_image_resolution input;
               image := nth_error imageUrls (length imageUrls - 1) |}
  else input.

End MessageProcessor.

(** ** The replicate client, config.ts and the environment *)

(** [new Replicate({ auth })]. *)
Record Client : Type := { auth : string }.

Record Error : Type := { message : string }.

(** A thrown value: an [Error], or anything else, kept as [String(value)]. *)
Inductive Thrown : Type :=
| ThrownError (e : Error)
| ThrownValue (shown : string).

(** [event.data]: a string or something else. *)
Inductive EventData : Type :=
| DString (s : string)
| DOther.

(** [{ event, data }]. *)
Record ReplicateEvent : Type := { event : string; data : EventData }.

(** One call of [client.stream]: the events it delivers, then its normal end
    or the value it throws. *)
Record StreamRun : Type := { events : list ReplicateEvent; failure : option Thrown }.

(** What [client.run] resolves to: an array of strings, or a scalar kept as
    [String(prediction)]. *)
Inductive Prediction : Type :=
| PArray (parts : list string)
| PScalar (shown : string).

Inductive Outcome (A : Type) : Type :=
| Returns (a : A)
| Throws (t : Thrown).
Arguments Returns {A} a.
Arguments Throws {A} t.

(** The constants the sources import from config.ts, whose values are
    set by the deployment. *)
Record Config : Type := {
  AUTH_KEY : string;
  PROXY_MODEL_NAME : string;
  DEFAULT_MODEL_ID : string;
  REPLICATE_API_KEYS : list string;
  CORS_HEADERS : list (string * string);
  API_ERROR : string;
  INTERNAL_ERROR : string
}.

(** Modelled from the spec: the members of [ERROR_CODES] in config.ts whose
    values the specification of the HTTP surface gives. *)
Module ERROR_CODES.
Definition INVALID_JSON : string := "invalid_json".
Definition INVALID_MESSAGES : string := "invalid_messages".
Definition MISSING_AUTH_HEADER : string := "missing_auth_header".
Definition INVALID_AUTH_KEY : string := "invalid_auth_key".
End ERROR_CODES.

(** One upstream call, as the proxy made it. *)
Record Call : Type := { callClient : Client; callStreaming : bool }.

(** The mutable state: the rotation cursor, the upstream calls made so far
    (oldest first), and how many times the clock and the random source were
    read. *)
Record World : Type := {
  currentKeyIndex : nat;
  trace : list Call;
  ticks : nat;
  draws : nat
}.

(** What the outside answers. The upstream service may answer each call
    differently: its answer depends on how many calls came before. *)
Record Env : Type := {
  encode : string -> list nat;
  dateNow : nat -> Z;
  randomUUID : nat -> string;
  stream_ : nat -> Client -> string -> ModelInput -> StreamRun;
  run_ : nat -> Client -> string -> ModelInput -> Outcome Prediction
}.

(** Modelled from the spec: [getNextReplicateClient] of config.ts, the
    credential rotator. Each call returns the client of the credential at the
    cursor and advances the cursor by one modulo the pool size. *)
Definition clientAt (cfg : Config) (i : nat) : Client :=
  {| auth := nth i (REPLICATE_API_KEYS cfg) "" |}.

Definition advance (cfg : Config) (i : nat) : nat :=
  (i + 1) mod length (REPLICATE_API_KEYS cfg).

Definition getNextReplicateClient (cfg : Config) (w : World) : Client * World :=
  (clientAt cfg (currentKeyIndex w),
   {| currentKeyIndex := advance cfg (currentKeyIndex w);
      trace := trace w;
      ticks := ticks w;
      draws := draws w |}).

(** The clients that [n] successive calls of the rotator return when the
    cursor starts at [i]. *)
Fixpoint rotation (cfg : Config) (n i : nat) : list Client :=
  match n with
  | 0 => []
  | S n' => clientAt cfg i :: rotation cfg n' (advance cfg i)
  end.

(** One more reading of the clock. *)
Definition tick (w : World) : World :=
  {| currentKeyIndex := currentKeyIndex w; trace := trace w;
     ticks := S (ticks w); draws := draws w |}.

(** [Date.now()]. *)
Definition now (env : Env) (w : World) : Z * World :=
  (dateNow env (ticks w), tick w).

(** [crypto.randomUUID()]. *)
Definition nextUUID (env : Env) (w : World) : string * World :=
  (randomUUID env (draws w),
   {| currentKeyIndex := currentKeyIndex w; trace := trace w;
      ticks := ticks w; draws := S (draws w) |}).

Definition callOf (streaming : bool) (c : Client) : Call :=
  {| callClient := c; callStreaming := streaming |}.

(** Defaults for [last] on lists that are never empty. *)
Definition noClient : Client := {| auth := "" |}.

Definition recordCall (c : Call) (w : World) : World :=
  {| currentKeyIndex := currentKeyIndex w; trace := trace w ++ [c];
     ticks := ticks w; draws := draws w |}.

(** [replicateClient.stream(modelId, { input })], run to its end. *)
Definition clientStream (env : Env) (client : Client) (modelId : string)
           (input : ModelInput) (w : World) : StreamRun * World :=
  (stream_ env (length (trace w)) client modelId input,
   recordCall {| callClient := client; callStreaming := true |} w).

(** [await replicateClient.run(modelId, { input })]. *)
Definition clientRun (env : Env) (client : Client) (modelId : string)
           (input : ModelInput) (w : World) : Outcome Prediction * World :=
  (run_ env (length (trace w)) client modelId input,
   recordCall {| callClient := client; callStreaming := false |} w).

(** [error instanceof Error ? error : new Error(String(error))]. *)
Definition toError (t : Thrown) : Error :=
  match t with
  | ThrownError e => e
  | ThrownValue shown => {| message := shown |}
  end.

Definition noRun : StreamRun := {| events := []; failure := None |}.

(** The answers of the upstream service to the streaming calls made with
    [clients], one after the other, when [n] calls came before. *)
Fixpoint streamRuns (env : Env) (modelId : string) (input : ModelInput)
         (n : nat) (clients : list Client) : list StreamRun :=
  match clients with
  | [] => []
  | c :: rest => stream_ env n c modelId input :: streamRuns env modelId input (S n) rest
  end.

(** ** api-service.ts *)

Module ApiService.
Import Js.

Record ApiService : Type := { modelId : string; maxRetries : nat }.

(** [new ApiService(modelId)]. *)
Definition constructor (cfg : Config) (modelId : string) : ApiService :=
  {| modelId := modelId;
     maxRetries := Nat.min (length (REPLICATE_API_KEYS cfg)) 3 |}.

Definition getReplicateClient (cfg : Config) (w : World) : Client * World :=
  getNextReplicateClient cfg w.

(** [lastError || new Error(...)], the operand of the final [throw]. *)
Definition lastOrDefault (lastError : option Error) : Error :=
  match lastError with
  | Some e => e
  | None => {| message := "所有API密钥调用都失败" |}
  end.

(** A generator run to its end: what it yielded, and the error it threw
    if it did not return. *)
Record Streamed : Type := { yielded : list ReplicateEvent; thrown : option Error }.

Section Loops.
Variables (cfg : Config) (env : Env) (this : ApiService) (input : ModelInput).

(** The [while] loop of [streamModelResponse] and the [throw] after it.
    [out] is what earlier attempts already yielded. *)
Equations? streamLoop (retries : nat) (replicateClient : Client)
           (lastError : option Error) (out : list ReplicateEvent) (w : World)
  : Streamed * World by wf (S (maxRetries this) - retries) lt :=
  streamLoop retries replicateClient lastError out w with inspect (retries <=? maxRetries this)%nat := {
    | exist _ false _ =>
        ({| yielded := out; thrown := Some (lastOrDefault lastError) |}, w)
    | exist _ true _ with inspect (clientStream env replicateClient (modelId this) input w) := {
        | exist _ (r, w1) _ with inspect (failure r) := {
            | exist _ None _ =>
                ({| yielded := out ++ events r; thrown := None |}, w1)
            | exist _ (Some error) _ with inspect (retries <? maxRetries this)%nat := {
                | exist _ true Hlt =>
                    streamLoop (S retries)
                               (fst (getReplicateClient cfg w1))
                               (Some (toError error))
                               (out ++ events r)
                               (snd (getReplicateClient cfg w1))
                | exist _ false _ =>
                    ({| yielded := out ++ events r;
                        thrown := Some (lastOrDefault (Some (toError error))) |}, w1)
              }
          }
      }
  }.
Proof. apply Nat.ltb_lt in Hlt. destruct retries; lia. Qed.

(** [streamModelResponse(input)]. *)
Definition streamModelResponse (w : World) : Streamed * World :=
  let retries := 0 in
  let lastError : option Error := None in
  let '(replicateClient, w) := getReplicateClient cfg w in
  streamLoop retries replicateClient lastError [] w.

(** [Array.isArray(p) ? p.join("") : String(p)]. *)
Definition predictionText (prediction : Prediction) : string :=
  match prediction with
  | PArray parts => join "" parts
  | PScalar shown => shown
  end.

(** The [while] loop of [getModelResponse] and the [throw] after it. *)
Equations? runLoop (retries : nat) (replicateClient : Client)
           (lastError : option Error) (w : World)
  : (string + Error) * World by wf (S (maxRetries this) - retries) lt :=
  runLoop retries replicateClient lastError w with inspect (retries <=? maxRetries this)%nat := {
    | exist _ false _ => (inr (lastOrDefault lastError), w)
    | exist _ true _ with inspect (clientRun env replicateClient (modelId this) input w) := {
        | exist _ (Returns prediction, w1) _ => (inl (predictionText prediction), w1)
        | exist _ (Throws error, w1) _ with inspect (retries <? maxRetries this)%nat := {
            | exist _ true Hlt =>
                runLoop (S retries)
                        (fst (getReplicateClient cfg w1))
                        (Some (toError error))
                        (snd (getReplicateClient cfg w1))
            | exist _ false _ =>
                (inr (lastOrDefault (Some (toError error))), w1)
          }
      }
  }.
Proof. apply Nat.ltb_lt in Hlt. destruct retries; lia. Qed.

(** [getModelResponse(input)]. *)
Definition getModelResponse (w : World) : (string + Error) * World :=
  let retries := 0 in
  let lastError : option Error := None in
  let '(replicateClient, w) := getReplicateClient cfg w in
  runLoop retries replicateClient lastError w.

End Loops.

Definition createApiService (cfg : Config) : ApiService :=
  constructor cfg (DEFAULT_MODEL_ID cfg).

Definition defaultApiService (cfg : Config) : ApiService := createApiService cfg.

End ApiService.

(** ** HTTP responses *)

(** How a [ReadableStream] ends: [controller.close()] or
    [controller.error(e)]. *)
Inductive StreamEnd : Type :=
| Closed
| Errored (e : Error).

(** A response body: a text, or a stream given by what was enqueued on it,
    in order, and how it ended. *)
Inductive Body : Type :=
| Text (s : string)
| Stream (enqueued : list string) (final : StreamEnd).

(** What [new Response(body, { status, headers })] is given: [headers] is
    the object of the call, its keys as they are written. *)
Record Response : Type := {
  status : nat;
  headers : list (string * string);
  body : Body
}.

(** [obj[k] = v] on an object used as a map: an existing key keeps its
    place. *)
Fixpoint setKey (k v : string) (obj : list (string * string)) : list (string * string) :=
  match obj with
  | [] => [(k, v)]
  | (k', v') :: rest => if k' =? k then (k, v) :: rest else (k', v') :: setKey k v rest
  end.

(** [{ ...base, ...extra }]. *)
Definition spread (base extra : list (string * string)) : list (string * string) :=
  fold_left (fun obj kv => setKey (fst kv) (snd kv) obj) extra base.

(** [SSEChunk] of types.ts, as [createSSEChunk] fills it. An absent key of
    [delta], and an absent [usage], is [None]; so is a [null]
    [finish_reason]. [logprobs] is always [null]. *)
Module Chunk.

Record Usage : Type := {
  prompt_tokens : nat;
  completion_tokens : nat;
  total_tokens : nat
}.

Record Delta : Type := { role : option string; content : option string }.

Record Choice : Type := {
  index : nat;
  delta : Delta;
  finish_reason : option string
}.

Record SSEChunk : Type := {
  id : string;
  object : string;
  created : Z;
  model : string;
  choices : list Choice;
  usage : option Usage
}.

End Chunk.

(** ** utils.ts *)

Module Utils.
Import Js.

Definition usageJSON (u : Chunk.Usage) : JSON :=
  JObj [("prompt_tokens", JNum (Z.of_nat (Chunk.prompt_tokens u)));
        ("completion_tokens", JNum (Z.of_nat (Chunk.completion_tokens u)));
        ("total_tokens", JNum (Z.of_nat (Chunk.total_tokens u)))].

Definition optional (k : string) (o : option string) : list (string * JSON) :=
  match o with
  | Some v => [(k, JStr v)]
  | None => []
  end.

Definition nullable (o : option string) : JSON :=
  match o with
  | Some v => JStr v
  | None => JNull
  end.

Definition choiceJSON (c : Chunk.Choice) : JSON :=
  JObj [("index", JNum (Z.of_nat (Chunk.index c)));
        ("delta", JObj (optional "role" (Chunk.role (Chunk.delta c))
                        ++ optional "content" (Chunk.content (Chunk.delta c))));
        ("finish_reason", nullable (Chunk.finish_reason c));
        ("logprobs", JNull)].

(** The chunk as [JSON.stringify] sees it, keys in insertion order. *)
Definition chunkJSON (c : Chunk.SSEChunk) : JSON :=
  JObj ([("id", JStr (Chunk.id c));
         ("object", JStr (Chunk.object c));
         ("created", JNum (Chunk.created c));
         ("model", JStr (Chunk.model c));
         ("choices", JArr (map choiceJSON (Chunk.choices c)))]
        ++ match Chunk.usage c with
           | Some u => [("usage", usageJSON u)]
           | None => []
           end).

Definition isStop (finish_reason : option string) : bool :=
  match finish_reason with
  | Some r => r =? "stop"
  | None => false
  end.

(** The object [createSSEChunk] builds before it serialises it. A [null]
    argument is [None]. *)
Definition chunkObject (env : Env) (id model : string)
           (content role finish_reason : option string)
           (usage : option Chunk.Usage) (w : World) : Chunk.SSEChunk * World :=
  let '(t, w) := now env w in
  let now := (t / 1000)%Z in
  let delta := {| Chunk.role := None; Chunk.content := None |} in
  let delta := if truthy_opt role
               then {| Chunk.role := role; Chunk.content := Chunk.content delta |}
               else delta in
  let delta := if truthy_opt content
               then {| Chunk.role := Chunk.role delta; Chunk.content := content |}
               else delta in
  let delta := if negb (truthy_opt role) && negb (truthy_opt content)
                  && truthy_opt finish_reason
               then {| Chunk.role := None; Chunk.content := None |}
               else delta in
  ({| Chunk.id := id;
      Chunk.object := "chat.completion.chunk";
      Chunk.created := now;
      Chunk.model := model;
      Chunk.choices := [{| Chunk.index := 0;
                           Chunk.delta := delta;
                           Chunk.finish_reason := finish_reason |}];
      Chunk.usage := match usage with
                     | Some u => if isStop finish_reason then Some u else None
                     | None => None
                     end |}, w).

(** [`data: ${JSON.stringify(chunk)}\n\n`]. *)
Definition sseLine (c : Chunk.SSEChunk) : string :=
  "data: " ++ stringify (chunkJSON c) ++ nl ++ nl.

(** [createSSEChunk(id, model, content, role, finish_reason, usage)]. *)
Definition createSSEChunk (env : Env) (id model : string)
           (content role finish_reason : option string)
           (usage : option Chunk.Usage) (w : World) : string * World :=
  let '(chunk, w) := chunkObject env id model content role finish_reason usage w in
  (sseLine chunk, w).

Definition errorJSON (message type code : string) : JSON :=
  JObj [("error", JObj [("message", JStr message);
                        ("type", JStr type);
                        ("param", JNull);
                        ("code", JStr code)])].

(** [createErrorResponse(message, status, type, code)]. *)
Definition createErrorResponse (message : string) (status : nat) (type code : string)
  : Response :=
  {| status := status;
     headers := [("Content-Type", "application/json");
                 ("Access-Control-Allow-Origin", "*")];
     body := Text (stringify (errorJSON message type code)) |}.

(** [createAuthErrorResponse(message, code)]. *)
Definition createAuthErrorResponse (message code : string) : Response :=
  {| status := 401;
     headers := [("Content-Type", "application/json");
                 ("Access-Control-Allow-Origin", "*");
                 ("WWW-Authenticate", "Bearer realm=" ++ dq ++ "API Access" ++ dq)];
     body := Text (stringify (errorJSON message "invalid_request_error" code)) |}.

End Utils.

(** ** controllers.ts *)

(** What the handler reads of a [Request]: [headers.get("Authorization")]
    and the outcome of [await req.json()], [None] when it throws. *)
Record Request : Type := {
  authorization : option string;
  json : option RequestBody
}.

Module Controllers.
Import Js Utils MessageProcessor.

(** The result of [validateApiKey]: [{ isValid: false, response }] or
    [{ isValid: true, providedKey }]. *)
Inductive Validation : Type :=
| Rejected (response : Response)
| Accepted (providedKey : string).

Definition isValid (v : Validation) : bool :=
  match v with
  | Rejected _ => false
  | Accepted _ => true
  end.

(** [validateApiKey(authHeader)]. *)
Definition validateApiKey (cfg : Config) (authHeader : option string) : Validation :=
  let missing :=
    Rejected (createAuthErrorResponse
      "Unauthorized: Missing or invalid Authorization header. Use 'Bearer <YOUR_API_KEY>' format."
      ERROR_CODES.MISSING_AUTH_HEADER) in
  match authHeader with
  | None => missing
  | Some header =>
      if negb (truthy header) || negb (startsWith (toLowerCase header) "bearer ")
      then missing
      else
        let providedKey := substring_from 7 header in
        if negb (providedKey =? AUTH_KEY cfg)
        then Rejected (createAuthErrorResponse
                         "Unauthorized: Invalid API Key provided."
                         ERROR_CODES.INVALID_AUTH_KEY)
        else Accepted providedKey
  end.

(** What [controller.enqueue] receives: a chunk, or the end marker. *)
Inductive Frame : Type :=
| Data (chunk : Chunk.SSEChunk)
| Done.

(** The text of a frame, as it goes on the wire. *)
Definition frameText (f : Frame) : string :=
  match f with
  | Data chunk => sseLine chunk
  | Done => "data: [DONE]" ++ nl ++ nl
  end.

Definition isOutput (ev : ReplicateEvent) : bool :=
  (event ev =? "output") && match data ev with DString _ => true | DOther => false end.

Definition dataText (ev : ReplicateEvent) : string :=
  match data ev with
  | DString s => s
  | DOther => ""
  end.

Section Encoder.
Variables (env : Env) (chatCompletionId modelName : string) (totalPromptTokens : nat).

(** The body of [for await (const event of ...)] in [handleStreamResponse],
    over the events the generator yields: the frames enqueued from here
    on. The pacing delay has no counterpart. *)
Fixpoint forEachEvent (evs : list ReplicateEvent) (isFirstEvent : bool)
         (completionContent : string) (w : World) : list Frame * World :=
  match evs with
  | [] => ([], w)
  | ev :: rest =>
      let '(first, isFirstEvent, w) :=
        if isFirstEvent
        then let '(chunk, w) :=
               chunkObject env chatCompletionId modelName
                           None (Some "assistant") None None w in
             ([Data chunk], false, w)
        else ([], isFirstEvent, w) in
      let '(here, completionContent, w) :=
        if isOutput ev
        then let completionContent := completionContent ++ dataText ev in
             let '(chunk, w) :=
               chunkObject env chatCompletionId modelName
                           (Some (dataText ev)) None None None w in
             ([Data chunk], completionContent, w)
        else if event ev =? "done"
        then let completionTokens := length (encode env completionContent) in
             let totalTokens := totalPromptTokens + completionTokens in
             let usageInfo := {| Chunk.prompt_tokens := totalPromptTokens;
                                 Chunk.completion_tokens := completionTokens;
                                 Chunk.total_tokens := totalTokens |} in
             let '(chunk, w) :=
               chunkObject env chatCompletionId modelName
                           None None (Some "stop") (Some usageInfo) w in
             ([Data chunk; Done], completionContent, w)
        else ([], completionContent, w) in
      let '(later, w) := forEachEvent rest isFirstEvent completionContent w in
      ((first ++ here ++ later)%list, w)
  end.

End Encoder.

Definition tokenCount (env : Env) (s : string) : nat := length (encode env s).

(** The stream of [handleStreamResponse]: the frames enqueued and how the
    stream ends. The generator and the encoder touch different parts of
    the world, so the generator is run to its end first. *)
Definition streamFrames (cfg : Config) (env : Env) (chatCompletionId modelName : string)
           (input : ModelInput) (w : World) : (list Frame * StreamEnd) * World :=
  let promptTokens := tokenCount env (prompt input) in
  let systemPromptTokens :=
    if truthy (system_prompt input) then tokenCount env (system_prompt input) else 0 in
  let totalPromptTokens := promptTokens + systemPromptTokens in
  let '(s, w) :=
    ApiService.streamModelResponse cfg env (ApiService.defaultApiService cfg) input w in
  let '(frames, w) :=
    forEachEvent env chatCompletionId modelName totalPromptTokens
                 (ApiService.yielded s) true "" w in
  match ApiService.thrown s with
  | None => ((frames, Closed), w)
  | Some error => ((frames, Errored error), w)
  end.

(** [handleStreamResponse(chatCompletionId, modelName, input)]. *)
Definition handleStreamResponse (cfg : Config) (env : Env)
           (chatCompletionId modelName : string) (input : ModelInput) (w : World)
  : Response * World :=
  let '((frames, final), w) := streamFrames cfg env chatCompletionId modelName input w in
  ({| status := 200;
      headers := spread [("Content-Type", "text/event-stream");
                         ("Cache-Control", "no-cache");
                         ("Connection", "keep-alive")] (CORS_HEADERS cfg);
      body := Stream (map frameText frames) final |}, w).

Definition completionJSON (chatCompletionId : string) (created : Z) (modelName : string)
           (assistantContent : string) (u : Chunk.Usage) : JSON :=
  JObj [("id", JStr chatCompletionId);
        ("object", JStr "chat.completion");
        ("created", JNum created);
        ("model", JStr modelName);
        ("choices", JArr [JObj [("index", JNum 0);
                                ("message", JObj [("role", JStr "assistant");
                                                  ("content", JStr assistantContent)]);
                                ("finish_reason", JStr "stop");
                                ("logprobs", JNull)]]);
        ("usage", usageJSON u)].

(** [handleNonStreamResponse(chatCompletionId, modelName, input)]. *)
Definition handleNonStreamResponse (cfg : Config) (env : Env)
           (chatCompletionId modelName : string) (input : ModelInput) (w : World)
  : Response * World :=
  let '(r, w) :=
    ApiService.getModelResponse cfg env (ApiService.defaultApiService cfg) input w in
  match r with
  | inl assistantContent =>
      let promptTokens := tokenCount env (prompt input) in
      let systemPromptTokens :=
        if truthy (system_prompt input) then tokenCount env (system_prompt input) else 0 in
      let completionTokens := tokenCount env assistantContent in
      let totalTokens := promptTokens + systemPromptTokens + completionTokens in
      let '(t, w) := now env w in
      let finalResponse :=
        completionJSON chatCompletionId (t / 1000)%Z modelName assistantContent
          {| Chunk.prompt_tokens := promptTokens + systemPromptTokens;
             Chunk.completion_tokens := completionTokens;
             Chunk.total_tokens := totalTokens |} in
      ({| status := 200;
          headers := spread [("Content-Type", "application/json")] (CORS_HEADERS cfg);
          body := Text (stringify finalResponse) |}, w)
  | inr error =>
      (createErrorResponse ("Failed to get response from API: " ++ message error)
                           500 "api_error" (API_ERROR cfg), w)
  end.

(** Lines 126 to 140 of [handleChatCompletionRequest]: the model input of
    a parsed body, or [None] when the handler answers 400 instead. *)
Definition normalize (requestBody : RequestBody) : option ModelInput :=
  let p := processMessages requestBody in
  if negb (truthy_opt (userContent p))
  then None
  else Some (buildModelInput (or_else (userContent p) "") (systemPrompt p) (imageUrls p)).

(** [handleChatCompletionRequest(req)]. Nothing after the parse throws on
    these values, so the outer [catch] has no counterpart. *)
Definition handleChatCompletionRequest (cfg : Config) (env : Env) (req : Request)
           (w : World) : Response * World :=
  match validateApiKey cfg (authorization req) with
  | Rejected response => (response, w)
  | Accepted _ =>
    match json req with
    | None =>
        (createErrorResponse "Invalid JSON in request body" 400
                             "invalid_request_error" ERROR_CODES.INVALID_JSON, w)
    | Some requestBody =>
        let isStream := match stream requestBody with Some true => true | _ => false end in
        match normalize requestBody with
        | None =>
            (createErrorResponse
               "Request body must contain a non-empty 'messages' array." 400
               "invalid_request_error" ERROR_CODES.INVALID_MESSAGES, w)
        | Some input =>
            let '(uuid, w) := nextUUID env w in
            let chatCompletionId := "chatcmpl-" ++ uuid in
            let modelName := or_else (model requestBody) (PROXY_MODEL_NAME cfg) in
            if isStream
            then handleStreamResponse cfg env chatCompletionId modelName input w
            else handleNonStreamResponse cfg env chatCompletionId modelName input w
        end
    end
  end.

End Controllers.

(** ** controllers.ts: routing *)

(** The constants of config.ts that only the router reads: the two members
    of [API_PATHS] and the model list [MODELS], already a JSON value. *)
Record Routes : Type := {
  API_PATHS_MODELS : string;
  API_PATHS_CHAT_COMPLETIONS : string;
  MODELS : Js.JSON
}.

(** What [routeRequest] reads of a [Request] before it hands it on:
    [req.method] and [new URL(req.url).pathname]. *)
Record Routed : Type := {
  method : string;
  pathname : string;
  request : Request
}.

Module Router.
Import Js Utils Controllers.

(** [handleCorsPreflightRequest()]. The [null] body is the empty text. *)
Definition handleCorsPreflightRequest (cfg : Config) : Response :=
  {| status := 204; headers := CORS_HEADERS cfg; body := Text "" |}.

(** [handleModelsRequest()]. *)
Definition handleModelsRequest (cfg : Config) (routes : Routes) : Response :=
  {| status := 200;
     headers := spread [("Content-Type", "application/json")] (CORS_HEADERS cfg);
     body := Text (stringify (JObj [("object", JStr "list");
                                    ("data", MODELS routes)])) |}.

(** [handleNotFoundRequest()]. *)
Definition handleNotFoundRequest : Response :=
  createErrorResponse "Not Found or Method Not Allowed" 404
                      "invalid_request_error" ERROR_CODES.INVALID_JSON.

(** [routeRequest(req)]. *)
Definition routeRequest (cfg : Config) (routes : Routes) (env : Env) (req : Routed)
           (w : World) : Response * World :=
  if method req =? "OPTIONS"
  then (handleCorsPreflightRequest cfg, w)
  else if (pathname req =? API_PATHS_MODELS routes) && (method req =? "GET")
  then (handleModelsRequest cfg routes, w)
  else if (pathname req =? API_PATHS_CHAT_COMPLETIONS routes) && (method req =? "POST")
  then handleChatCompletionRequest cfg env (request req) w
  else (handleNotFoundRequest, w).

End Router.

(** * Vocabulary of the properties *)

(** The world after [k] rotator calls and the upstream calls made with
    [clients]. *)
Definition afterAttempts (cfg : Config) (streaming : bool) (k : nat)
           (clients : list Client) (w : World) : World :=
  {| currentKeyIndex := Nat.iter k (advance cfg) (currentKeyIndex w);
     trace := trace w ++ map (callOf streaming) clients;
     ticks := ticks w;
     draws := draws w |}.

(** [it] is an image item that carries the URL [u]. *)
Definition imageItem (it : ContentItem) (u : string) : Prop :=
  type it = "image_url" /\ image_url it = Some {| url := u |} /\ u <> "".

(** [m] is a user message with a content array in which an image item
    carries a URL. *)
Definition carriesImage (m : Message) : Prop :=
  role m = "user"
  /\ exists items it u, content m = CArray items /\ In it items /\ imageItem it u.

(** The URLs of one content array, and of one message, in order. *)
Definition itemUrls (items : list ContentItem) : list string :=
  flat_map (fun it => match MessageProcessor.pushedUrl it with
                      | Some u => [u]
                      | None => []
                      end) items.

Definition messageUrls (m : Message) : list string :=
  match content m with
  | CArray items => if role m =? "user" then itemUrls items else []
  | _ => []
  end.

Definition notSystem (m : Message) : bool := negb (MessageProcessor.isSystem m).

Definition isArray (c : Content) : bool :=
  match c with
  | CArray _ => true
  | _ => false
  end.

(** A message that the loop of [formatMessagesToConversation] serialises: it
    has a role and a content array or a non-empty text. *)
Definition spoken (m : Message) : bool :=
  Js.truthy (role m)
  && match content m with
     | CArray _ => true
     | CString s => Js.truthy s
     | CAbsent => false
     end.

(** The working copy of the messages when [formatMessagesToConversation]
    runs: system messages removed, images stripped. *)
Definition remaining (msgs : list Message) : list Message :=
  fst (MessageProcessor.extractImageUrls
         (snd (MessageProcessor.extractSystemPrompt msgs)) []).

(** The last message that is not a system message has role [user]. *)
Definition lastNonSystemIsUser (msgs : list Message) : bool :=
  match List.rev (filter notSystem msgs) with
  | m :: _ => role m =? "user"
  | [] => false
  end.

(** The line that carries the directive at the end of a prompt. *)
Definition directiveLine : string :=
  "[" ++ MessageProcessor.antiSelfDialoguePrompt ++ "]" ++ Js.nl.

(** A message without content: the empty text, or none at all. *)
Definition emptyContent (m : Message) : Prop :=
  content m = CString "" \/ content m = CAbsent.

Definition isAscii (a : ascii) : bool := (nat_of_ascii a <? 128)%nat.

(** Lower-casing of the letters A to Z alone. *)
Definition asciiLowerChar (a : ascii) : ascii :=
  let n := nat_of_ascii a in
  if ((65 <=? n) && (n <=? 90))%nat then ascii_of_nat (n + 32) else a.

Fixpoint asciiLower (s : string) : string :=
  match s with
  | EmptyString => EmptyString
  | String a r => String (asciiLowerChar a) (asciiLower r)
  end.

(** The first seven characters of [header] are [bearer ] up to the case of
    the letters, and [key] is what follows them. *)
Definition bearerHeader (header key : string) : Prop :=
  exists scheme, header = scheme ++ key
                 /\ String.length scheme = 7
                 /\ asciiLower scheme = "bearer ".

(** The body of every error response. *)
Definition errorBody (message type code : string) : Body :=
  Text (Js.stringify
          (Js.JObj [("error", Js.JObj [("message", Js.JStr message);
                                       ("type", Js.JStr type);
                                       ("param", Js.JNull);
                                       ("code", Js.JStr code)])])).

(** The arguments with which [handleStreamResponse] calls [createSSEChunk]
    on the events [evs]: content, role, finish reason, usage. *)
Inductive ChunkArgs (evs : list ReplicateEvent)
  : option string -> option string -> option string -> option Chunk.Usage -> Prop :=
| RoleArgs : ChunkArgs evs None (Some "assistant") None None
| ContentArgs (ev : ReplicateEvent) :
    In ev evs -> Controllers.isOutput ev = true ->
    ChunkArgs evs (Some (Controllers.dataText ev)) None None None
| StopArgs (u : Chunk.Usage) : ChunkArgs evs None None (Some "stop") (Some u).

(** A chunk with one choice. *)
Definition chunkWith (id model : string) (created : Z)
           (role content finish_reason : option string) (usage : option Chunk.Usage)
  : Chunk.SSEChunk :=
  {| Chunk.id := id;
     Chunk.object := "chat.completion.chunk";
     Chunk.created := created;
     Chunk.model := model;
     Chunk.choices := [{| Chunk.index := 0;
                          Chunk.delta := {| Chunk.role := role; Chunk.content := content |};
                          Chunk.finish_reason := finish_reason |}];
     Chunk.usage := usage |}.

(** A value that is [null] or the empty string sets no key. *)
Definition keyOf (o : option string) : option string :=
  if Js.truthy_opt o then o else None.

(** The key that a value sets, by cases: [null] and the empty string set
    none. *)
Definition present (o : option string) : option string :=
  match o with
  | Some EmptyString => None
  | other => other
  end.

(** The [content] and the [role] with which the loop of
    [handleStreamResponse] calls [createSSEChunk] for one event: the text of
    an [output] event whose data is a string, nothing but a finish reason
    for a [done] event, no call for any other event. *)
Definition eventCalls (ev : ReplicateEvent) : list (option string * option string) :=
  match data ev with
  | DString s =>
      if event ev =? "output" then [(Some s, None)]
      else if event ev =? "done" then [(None, None)] else []
  | DOther => if event ev =? "done" then [(None, None)] else []
  end.

(** The calls of one response, in order: the role call before the first
    event, then the calls of the events. *)
Definition chunkCalls (evs : list ReplicateEvent) : list (option string * option string) :=
  match evs with
  | [] => []
  | _ :: _ => (None, Some "assistant") :: flat_map eventCalls evs
  end.

(** The deltas of the chunk of one call: one choice, with the keys that
    the [role] and the [content] of the call set. *)
Definition deltaOf (call : option string * option string) : list Chunk.Delta :=
  [{| Chunk.role := present (snd call); Chunk.content := present (fst call) |}].

(** A message that says something: it is not a system message, its role
    is not empty, and its content is an array, even an empty one, or a
    string that is not empty. *)
Definition saysSomething (m : Message) : Prop :=
  role m <> "system"
  /\ role m <> ""
  /\ ((exists items, content m = CArray items)
      \/ (exists s, content m = CString s /\ s <> "")).

(** The 401 response of the HTTP surface. *)
Definition unauthorized (message code : string) : Response :=
  {| status := 401;
     headers := [("Content-Type", "application/json");
                 ("Access-Control-Allow-Origin", "*");
                 ("WWW-Authenticate", "Bearer realm=" ++ Js.dq ++ "API Access" ++ Js.dq)];
     body := errorBody message "invalid_request_error" code |}.

Definition missingHeaderMessage : string :=
  "Unauthorized: Missing or invalid Authorization header. Use 'Bearer <YOUR_API_KEY>' format.".

Definition invalidKeyMessage : string := "Unauthorized: Invalid API Key provided.".

(** ** Sample configuration, environments and requests *)

Module Sample.

Definition cfg : Config :=
  {| AUTH_KEY := "secret";
     PROXY_MODEL_NAME := "proxy-model";
     DEFAULT_MODEL_ID := "owner/model";
     REPLICATE_API_KEYS := ["key-a"; "key-b"];
     CORS_HEADERS := [("Access-Control-Allow-Origin", "*")];
     API_ERROR := "api_error";
     INTERNAL_ERROR := "internal_error" |}.

Definition w0 : World :=
  {| currentKeyIndex := 0; trace := []; ticks := 0; draws := 0 |}.

(** One token per byte. *)
Definition bytes (s : string) : list nat := repeat 0 (String.length s).

(** A clock that starts at [start] milliseconds and moves [step]
    milliseconds between two readings. *)
Definition clock (start step : Z) (k : nat) : Z := (start + step * Z.of_nat k)%Z.

(** An environment in which every upstream call gets the same answer. *)
Definition envWith (step : Z) (s : StreamRun) (r : Outcome Prediction) : Env :=
  {| encode := bytes;
     dateNow := clock 1700000000000 step;
     randomUUID := fun _ => "0000";
     stream_ := fun _ _ _ _ => s;
     run_ := fun _ _ _ _ => r |}.

Definition output (s : string) : ReplicateEvent :=
  {| event := "output"; data := DString s |}.

Definition done : ReplicateEvent := {| event := "done"; data := DString "" |}.

Definition hiThere : list ReplicateEvent := [output "Hi"; output " there"; done].

Definition down : Thrown := ThrownError {| message := "upstream down" |}.

(** Every call fails. *)
Definition failing : Env :=
  envWith 0 {| events := []; failure := Some down |} (Throws down).

(** Every call streams [Hi], [ there], [done]; the clock does not move. *)
Definition greeting : Env :=
  envWith 0 {| events := hiThere; failure := None |} (Returns (PArray ["Hi"; " there"])).

(** Every call streams an empty output and [done]; the clock moves 600 ms
    between two readings. *)
Definition slow : Env :=
  envWith 600 {| events := [output ""; done]; failure := None |} (Returns (PScalar "")).

(** Every call streams [Hi] and ends without [done]. *)
Definition truncated : Env :=
  envWith 0 {| events := [output "Hi"]; failure := None |} (Returns (PScalar "Hi")).

Definition textItem (s : string) : ContentItem :=
  {| type := "text"; text := Some s; image_url := None |}.

Definition imageUrlItem (u : string) : ContentItem :=
  {| type := "image_url"; text := None; image_url := Some {| url := u |} |}.

Definition bodyOf (msgs : list Message) : RequestBody :=
  {| model := None; messages := Some msgs; stream := Some true |}.

(** A system message, a picture, an answer, two more pictures. *)
Definition pictures : list Message :=
  [{| role := "system"; content := CString "Be brief." |};
   {| role := "user";
      content := CArray [textItem "What is this?"; imageUrlItem "https://img/1.png"] |};
   {| role := "assistant"; content := CString "A cat." |};
   {| role := "user";
      content := CArray [imageUrlItem "https://img/2.png"; textItem "And these?";
                         imageUrlItem "https://img/3.png"] |}].

(** A user message whose only image item has an empty URL. *)
Definition blankImage : list Message :=
  [{| role := "user"; content := CArray [textItem "Look"; imageUrlItem ""] |}].

(** A user message that is one space. *)
Definition blank : list Message := [{| role := "user"; content := CString " " |}].

(** A system message and a user message with the empty text. *)
Definition silent : list Message :=
  [{| role := "system"; content := CString "Be brief." |};
   {| role := "user"; content := CString "" |}].

Definition question : list Message :=
  [{| role := "system"; content := CString "Be brief." |};
   {| role := "user"; content := CString "Why?" |}].

Definition input : ModelInput :=
  MessageProcessor.buildModelInput "user: Why?" "" [].

Definition authorized (body : RequestBody) : Request :=
  {| authorization := Some "Bearer secret"; json := Some body |}.

End Sample.

(** ** Further vocabulary *)

Definition isText (item : ContentItem) : bool := type item =? "text".

(** The text that the output events of [evs] carry, in order. *)
Fixpoint collected (evs : list ReplicateEvent) : string :=
  match evs with
  | [] => ""
  | ev :: rest =>
      if Controllers.isOutput ev
      then Controllers.dataText ev ++ collected rest
      else collected rest
  end.

Definition isDoneEvent (ev : ReplicateEvent) : bool :=
  negb (Controllers.isOutput ev) && (event ev =? "done").

(** The text that a client reads from the [delta.content] keys of a frame. *)
Definition choiceText (c : Chunk.Choice) : string :=
  Js.or_else (Chunk.content (Chunk.delta c)) "".

Fixpoint choicesText (cs : list Chunk.Choice) : string :=
  match cs with
  | [] => ""
  | c :: rest => choiceText c ++ choicesText rest
  end.

Definition frameContent (f : Controllers.Frame) : string :=
  match f with
  | Controllers.Data chunk => choicesText (Chunk.choices chunk)
  | Controllers.Done => ""
  end.

Fixpoint framesContent (fs : list Controllers.Frame) : string :=
  match fs with
  | [] => ""
  | f :: rest => frameContent f ++ framesContent rest
  end.

(** The readings of the clock from the [i]-th on, [n] of them, in whole
    seconds. *)
Definition readings (env : Env) (i n : nat) : list Z :=
  map (fun k => (dateNow env k / 1000)%Z) (seq i n).

(** The chunks among the frames, in order. *)
Fixpoint chunksOf (fs : list Controllers.Frame) : list Chunk.SSEChunk :=
  match fs with
  | [] => []
  | Controllers.Data chunk :: rest => chunk :: chunksOf rest
  | Controllers.Done :: rest => chunksOf rest
  end.

Definition isDoneFrame (f : Controllers.Frame) : bool :=
  match f with
  | Controllers.Done => true
  | Controllers.Data _ => false
  end.

(** No byte is below the space: no line feed, no carriage return, no
    other control character of the range 0 to 31. The byte 127 and the
    bytes from 128 on, in which UTF-8 writes every other character, are not
    excluded. *)
Fixpoint noC0 (s : string) : bool :=
  match s with
  | EmptyString => true
  | String a r => (32 <=? nat_of_ascii a)%nat && noC0 r
  end.

(** A text between two double quotes. *)
Definition quoted (s : string) : string :=
  String "034"%char (s ++ String "034"%char "").

(** The completion object of a non-streaming answer, as a client reads it:
    one choice, the assistant message with [content] and the finish reason
    [stop], and the usage with the two counts and their sum. *)
Definition completionObject (id : string) (created : Z) (model content : string)
           (promptTokens completionTokens : nat) : Js.JSON :=
  Js.JObj
    [("id", Js.JStr id);
     ("object", Js.JStr "chat.completion");
     ("created", Js.JNum created);
     ("model", Js.JStr model);
     ("choices",
      Js.JArr [Js.JObj [("index", Js.JNum 0);
                        ("message", Js.JObj [("role", Js.JStr "assistant");
                                             ("content", Js.JStr content)]);
                        ("finish_reason", Js.JStr "stop");
                        ("logprobs", Js.JNull)]]);
     ("usage",
      Js.JObj [("prompt_tokens", Js.JNum (Z.of_nat promptTokens));
               ("completion_tokens", Js.JNum (Z.of_nat completionTokens));
               ("total_tokens", Js.JNum (Z.of_nat (promptTokens + completionTokens)))])].

(** [obj[k]] on an object used as a map. *)
Fixpoint getKey (k : string) (obj : list (string * string)) : option string :=
  match obj with
  | [] => None
  | (k', v) :: rest => if k' =? k then Some v else getKey k rest
  end.

(** The prompt token count that [handleStreamResponse] and
    [handleNonStreamResponse] compute. *)
Definition promptTokensOf (env : Env) (input : ModelInput) : nat :=
  Controllers.tokenCount env (prompt input)
  + (if Js.truthy (system_prompt input)
     then Controllers.tokenCount env (system_prompt input) else 0).

(** ** Further sample environments *)

Module Scenario.

(** The first upstream call delivers [Hi] and fails; every later call
    streams [Hi], [ there], [done], and resolves to [Hi there]. *)
Definition flaky : Env :=
  {| encode := Sample.bytes;
     dateNow := Sample.clock 1700000000000 0;
     randomUUID := fun _ => "0000";
     stream_ := fun n _ _ _ =>
                  if (n =? 0)%nat
                  then {| events := [Sample.output "Hi"]; failure := Some Sample.down |}
                  else {| events := Sample.hiThere; failure := None |};
     run_ := fun n _ _ _ =>
               if (n =? 0)%nat
               then Throws Sample.down
               else Returns (PArray ["Hi"; " there"]) |}.

Definition routes : Routes :=
  {| API_PATHS_MODELS := "/v1/models";
     API_PATHS_CHAT_COMPLETIONS := "/v1/chat/completions";
     MODELS := Js.JArr [] |}.

Definition batchBody (msgs : list Message) : RequestBody :=
  {| model := Some "my-model"; messages := Some msgs; stream := None |}.

End Scenario.

(** * Properties *)

(** ** The retry loops of api-service.ts *)

Section Dispatch.
Import ApiService.
Variables (cfg : Config) (env : Env) (this : ApiService) (input : ModelInput).

Ltac use_tests :=
  repeat match goal with
         | H : (_ <=? _)%nat = _ |- _ => rewrite H
         | H : (_ <? _)%nat = _ |- _ => rewrite H
         | H : run_ _ _ _ _ _ = _ |- _ => rewrite H
         | H : failure _ = _ |- _ => rewrite H
         end.

(** One turn of the loop of [getModelResponse]. *)
Lemma runLoop_unfold retries client lastError w :
  runLoop cfg env this input retries client lastError w =
  if (retries <=? maxRetries this)%nat
  then match clientRun env client (modelId this) input w with
       | (Returns prediction, w1) => (inl (predictionText prediction), w1)
       | (Throws error, w1) =>
           if (retries <? maxRetries this)%nat
           then runLoop cfg env this input (S retries)
                        (fst (getReplicateClient cfg w1))
                        (Some (toError error)) (snd (getReplicateClient cfg w1))
           else (inr (lastOrDefault (Some (toError error))), w1)
       end
  else (inr (lastOrDefault lastError), w).
Proof.
  funelim (runLoop cfg env this input retries client lastError w);
    unfold clientRun in *; use_tests; reflexivity.
Qed.

(** One turn of the loop of [streamModelResponse]. *)
Lemma streamLoop_unfold retries client lastError out w :
  streamLoop cfg env this input retries client lastError out w =
  if (retries <=? maxRetries this)%nat
  then let '(r, w1) := clientStream env client (modelId this) input w in
       match failure r with
       | None => ({| yielded := out ++ events r; thrown := None |}, w1)
       | Some error =>
           if (retries <? maxRetries this)%nat
           then streamLoop cfg env this input (S retries)
                           (fst (getReplicateClient cfg w1))
                           (Some (toError error)) (out ++ events r)
                           (snd (getReplicateClient cfg w1))
           else ({| yielded := out ++ events r;
                    thrown := Some (lastOrDefault (Some (toError error))) |}, w1)
       end
  else ({| yielded := out; thrown := Some (lastOrDefault lastError) |}, w).
Proof.
  funelim (streamLoop cfg env this input retries client lastError out w);
    unfold clientStream in *; cbn [fst snd] in *; use_tests; try reflexivity.
Qed.

Lemma rotation_length n i : length (rotation cfg n i) = n.
Proof.
  revert i. induction n as [|n IH]; intros i; simpl; [reflexivity|].
  now rewrite IH.
Qed.

(** The rotator goes round the pool: from a cursor inside the pool, its
    [j]-th next client is the one of the credential at [(i + j) mod N]. *)
Lemma rotation_nth n i j :
  i < length (REPLICATE_API_KEYS cfg) -> j < n ->
  nth j (rotation cfg n i) noClient
  = clientAt cfg ((i + j) mod length (REPLICATE_API_KEYS cfg)).
Proof.
  revert i j. induction n as [|n IH]; intros i j Hi Hj; [lia|].
  destruct j as [|j]; cbn [rotation nth].
  - now rewrite Nat.add_0_r, Nat.mod_small.
  - rewrite IH; [|apply Nat.mod_upper_bound; lia|lia].
    unfold advance. rewrite Nat.Div0.add_mod_idemp_l.
    f_equal. f_equal. lia.
Qed.

(** With [k] retries left, when the call with the current client and the
    calls with the next [k] clients of the rotator all fail, the batch loop
    makes exactly these calls and ends with the error of the last one. *)
Lemma runLoop_exhausted :
  forall k retries client lastError w,
    retries + k = maxRetries this ->
    let clients := client :: rotation cfg k (currentKeyIndex w) in
    (forall j, j <= k ->
               exists t, run_ env (length (trace w) + j) (nth j clients noClient)
                              (modelId this) input = Throws t) ->
    exists t,
      run_ env (length (trace w) + k) (last clients noClient) (modelId this) input
      = Throws t
      /\ runLoop cfg env this input retries client lastError w
         = (inr (toError t), afterAttempts cfg false k clients w).
Proof.
  intros k.
  induction k as [|k IH]; intros retries client lastError w Hk clients Hfail.
  - destruct (Hfail 0 (Nat.le_refl 0)) as [t Ht].
    subst clients. cbn [nth last] in *. rewrite Nat.add_0_r in *.
    exists t. split; [exact Ht|].
    rewrite runLoop_unfold. unfold clientRun. rewrite Ht.
    replace (maxRetries this) with retries by lia.
    rewrite Nat.leb_refl, Nat.ltb_irrefl. unfold afterAttempts.
    cbn [rotation map Nat.iter nat_rect]. reflexivity.
  - destruct (Hfail 0 (Nat.le_0_l _)) as [t0 Ht0].
    cbn [clients nth] in Ht0. rewrite Nat.add_0_r in Ht0.
    rewrite runLoop_unfold. unfold clientRun. rewrite Ht0.
    replace (retries <=? maxRetries this)%nat with true
      by (symmetry; apply Nat.leb_le; lia).
    replace (retries <? maxRetries this)%nat with true
      by (symmetry; apply Nat.ltb_lt; lia).
    set (w1 := recordCall _ w).
    destruct (IH (S retries) (fst (getReplicateClient cfg w1)) (Some (toError t0))
                 (snd (getReplicateClient cfg w1))) as [t [Ht Hr]]; [lia| |].
    + intros j Hj. destruct (Hfail (S j)) as [t Ht]; [lia|].
      exists t. subst clients w1. cbn [getReplicateClient getNextReplicateClient
        recordCall fst snd currentKeyIndex trace rotation nth] in *.
      rewrite length_app, <- Nat.add_assoc. exact Ht.
    + exists t. subst clients w1. cbn [getReplicateClient getNextReplicateClient
        recordCall fst snd currentKeyIndex trace ticks draws] in *.
      split.
      * rewrite length_app, <- Nat.add_assoc in Ht. exact Ht.
      * rewrite Hr. unfold afterAttempts.
        cbn [currentKeyIndex trace ticks draws rotation map].
        rewrite <- app_assoc, Nat.iter_succ_r. reflexivity.
Qed.

(** The same for the streaming loop, which has also yielded every event
    that the failed calls delivered. *)
Lemma streamLoop_exhausted :
  forall k retries client lastError out w,
    retries + k = maxRetries this ->
    let clients := client :: rotation cfg k (currentKeyIndex w) in
    let runs := streamRuns env (modelId this) input (length (trace w)) clients in
    (forall j, j <= k ->
               failure (stream_ env (length (trace w) + j) (nth j clients noClient)
                                (modelId this) input) <> None) ->
    exists t,
      failure (stream_ env (length (trace w) + k) (last clients noClient)
                       (modelId this) input) = Some t
      /\ streamLoop cfg env this input retries client lastError out w
         = ({| yielded := out ++ flat_map events runs; thrown := Some (toError t) |},
            afterAttempts cfg true k clients w).
Proof.
  intros k.
  induction k as [|k IH]; intros retries client lastError out w Hk clients runs Hfail.
  - pose proof (Hfail 0 (Nat.le_refl 0)) as H0.
    subst runs clients. cbn [nth last] in *. rewrite Nat.add_0_r in *.
    destruct (failure (stream_ env (length (trace w)) client (modelId this) input))
      as [t|] eqn:Ht; [|now destruct H0].
    exists t. split; [exact Ht|].
    rewrite streamLoop_unfold. unfold clientStream. rewrite Ht.
    replace (maxRetries this) with retries by lia.
    rewrite Nat.leb_refl, Nat.ltb_irrefl. unfold afterAttempts.
    cbn [rotation map Nat.iter nat_rect streamRuns flat_map].
    rewrite app_nil_r. reflexivity.
  - pose proof (Hfail 0 (Nat.le_0_l _)) as H0.
    cbn [clients nth] in H0. rewrite Nat.add_0_r in H0.
    destruct (failure (stream_ env (length (trace w)) client (modelId this) input))
      as [t0|] eqn:Ht0; [clear H0|now destruct H0].
    rewrite streamLoop_unfold. unfold clientStream. rewrite Ht0.
    replace (retries <=? maxRetries this)%nat with true
      by (symmetry; apply Nat.leb_le; lia).
    replace (retries <? maxRetries this)%nat with true
      by (symmetry; apply Nat.ltb_lt; lia).
    set (w1 := recordCall _ w).
    destruct (IH (S retries) (fst (getReplicateClient cfg w1)) (Some (toError t0))
                 (out ++ events (stream_ env (length (trace w)) client
                                         (modelId this) input))%list
                 (snd (getReplicateClient cfg w1))) as [t [Ht Hr]]; [lia| |].
    + intros j Hj. pose proof (Hfail (S j) (proj1 (Nat.succ_le_mono j k) Hj)) as H.
      subst clients w1. cbn [getReplicateClient getNextReplicateClient
        recordCall fst snd currentKeyIndex trace rotation nth] in *.
      rewrite length_app, <- Nat.add_assoc. exact H.
    + exists t. subst runs clients w1. cbn [getReplicateClient getNextReplicateClient
        recordCall fst snd currentKeyIndex trace ticks draws] in *.
      rewrite length_app in Ht, Hr. cbn [length] in Ht, Hr.
      rewrite Nat.add_1_r in Hr.
      split.
      * rewrite <- Nat.add_assoc in Ht. exact Ht.
      * rewrite Hr. unfold afterAttempts.
        cbn [currentKeyIndex trace ticks draws rotation map streamRuns flat_map].
        rewrite <- !app_assoc, Nat.iter_succ_r. reflexivity.
Qed.

End Dispatch.

(** C1. When every dispatch attempt fails, [getModelResponse] and
    [streamModelResponse] each call the upstream service exactly
    [min(poolSize, 3) + 1] times, the first time with the client taken at
    entry and each retry with the next client of the rotator, and then throw
    the error of the last call, not the default error of the final
    [throw]. The attempts are the calls number [length (trace w) + j] with
    the [j]-th client of the rotation, for [j] up to [min(poolSize, 3)]. *)
Theorem C1_exhausted_dispatch_throws_last_error :
  forall (cfg : Config) (env : Env) (modelId : string) (input : ModelInput) (w : World),
    let this := ApiService.constructor cfg modelId in
    let R := Nat.min (length (REPLICATE_API_KEYS cfg)) 3 in
    let clients := rotation cfg (R + 1) (currentKeyIndex w) in
    let runs := streamRuns env modelId input (length (trace w)) clients in
    length clients = R + 1
    /\ ((forall j, j <= R ->
                   exists t, run_ env (length (trace w) + j) (nth j clients noClient)
                                  modelId input = Throws t) ->
        exists t,
          run_ env (length (trace w) + R) (last clients noClient) modelId input = Throws t
          /\ ApiService.getModelResponse cfg env this input w
             = (inr (toError t), afterAttempts cfg false (R + 1) clients w))
    /\ ((forall j, j <= R ->
                   failure (stream_ env (length (trace w) + j) (nth j clients noClient)
                                    modelId input) <> None) ->
        exists t,
          failure (stream_ env (length (trace w) + R) (last clients noClient) modelId input)
          = Some t
          /\ ApiService.streamModelResponse cfg env this input w
             = ({| ApiService.yielded := flat_map events runs;
                   ApiService.thrown := Some (toError t) |},
                afterAttempts cfg true (R + 1) clients w)).
Proof.
  intros cfg env modelId input w this R clients runs.
  assert (HR : ApiService.maxRetries this = R) by reflexivity.
  assert (Hc : clients
               = clientAt cfg (currentKeyIndex w)
                 :: rotation cfg R (advance cfg (currentKeyIndex w))).
  { subst clients. rewrite Nat.add_1_r. reflexivity. }
  split; [apply rotation_length|].
  set (w0 := snd (getNextReplicateClient cfg w)).
  assert (Hw : forall s,
             afterAttempts cfg s R clients w0 = afterAttempts cfg s (R + 1) clients w).
  { intros s. unfold afterAttempts, w0. cbn [getNextReplicateClient snd
      currentKeyIndex trace ticks draws].
    rewrite Nat.add_1_r, Nat.iter_succ_r. reflexivity. }
  split.
  - intros Hrun.
    destruct (runLoop_exhausted cfg env this input R 0
                (clientAt cfg (currentKeyIndex w)) None w0) as [t [Ht Hr]];
      [rewrite HR; reflexivity| |].
    + cbn [w0 getNextReplicateClient snd currentKeyIndex trace].
      rewrite <- Hc. exact Hrun.
    + exists t. cbn [w0 getNextReplicateClient snd currentKeyIndex trace] in Ht.
      rewrite <- Hc in Ht. split; [exact Ht|].
      unfold ApiService.getModelResponse, ApiService.getReplicateClient.
      cbn [getNextReplicateClient]. fold w0.
      etransitivity; [exact Hr|].
      cbn [w0 getNextReplicateClient snd currentKeyIndex]. rewrite <- Hc.
      fold w0. now rewrite Hw.
  - intros Hstream.
    destruct (streamLoop_exhausted cfg env this input R 0
                (clientAt cfg (currentKeyIndex w)) None [] w0) as [t [Ht Hr]];
      [rewrite HR; reflexivity| |].
    + cbn [w0 getNextReplicateClient snd currentKeyIndex trace].
      rewrite <- Hc. exact Hstream.
    + exists t. cbn [w0 getNextReplicateClient snd currentKeyIndex trace] in Ht.
      rewrite <- Hc in Ht. split; [exact Ht|].
      unfold ApiService.streamModelResponse, ApiService.getReplicateClient.
      cbn [getNextReplicateClient]. fold w0.
      etransitivity; [exact Hr|].
      cbn [w0 getNextReplicateClient snd currentKeyIndex trace app]. rewrite <- Hc.
      fold w0. now rewrite Hw.
Qed.

Lemma C1_exhausted_dispatch_throws_last_error_witness :
  (exists w',
      ApiService.getModelResponse Sample.cfg Sample.failing
        (ApiService.constructor Sample.cfg "owner/model") Sample.input Sample.w0
      = (inr {| message := "upstream down" |}, w')
      /\ length (trace w') = 3)
  /\ (exists w',
         ApiService.streamModelResponse Sample.cfg Sample.failing
           (ApiService.constructor Sample.cfg "owner/model") Sample.input Sample.w0
         = ({| ApiService.yielded := [];
               ApiService.thrown := Some {| message := "upstream down" |} |}, w')
         /\ length (trace w') = 3).
Proof.
  destruct (C1_exhausted_dispatch_throws_last_error
              Sample.cfg Sample.failing "owner/model" Sample.input Sample.w0)
    as (_ & Hb & Hs).
  split.
  - destruct Hb as (t & Ht & Hr).
    + intros j Hj. exists Sample.down. reflexivity.
    + injection Ht as <-. eexists. split; [exact Hr|reflexivity].
  - destruct Hs as (t & Ht & Hr).
    + intros j Hj. discriminate.
    + injection Ht as <-. eexists. split; [exact Hr|reflexivity].
Defined.

(** ** Strings *)

Section Strings.
Import Js.

Lemma append_assoc (a b c : string) : (a ++ b) ++ c = a ++ b ++ c.
Proof. induction a as [|x a IH]; simpl; [reflexivity|now rewrite IH]. Qed.

Lemma append_nil_r (a : string) : a ++ "" = a.
Proof. induction a as [|x a IH]; simpl; [reflexivity|now rewrite IH]. Qed.

Lemma append_length (a b : string) :
  String.length (a ++ b) = String.length a + String.length b.
Proof. induction a as [|x a IH]; simpl; [reflexivity|now rewrite IH]. Qed.

Lemma append_inv_head (a b c : string) : a ++ b = a ++ c -> b = c.
Proof.
  induction a as [|x a IH]; simpl; intros H; [exact H|].
  injection H as H. now apply IH.
Qed.

Lemma truthy_true (s : string) : truthy s = true <-> s <> "".
Proof.
  unfold truthy. destruct (String.eqb_spec s ""); simpl; split; intros; congruence.
Qed.

Lemma truthy_false (s : string) : truthy s = false <-> s = "".
Proof.
  unfold truthy. destruct (String.eqb_spec s ""); simpl; split; intros; congruence.
Qed.

Lemma truthy_append_r (a b : string) : truthy b = true -> truthy (a ++ b) = true.
Proof.
  rewrite !truthy_true. intros Hb Hab. apply Hb.
  apply (f_equal String.length) in Hab. rewrite append_length in Hab.
  destruct b; [reflexivity|simpl in Hab; lia].
Qed.

Lemma truthy_append_l (a b : string) : truthy a = true -> truthy (a ++ b) = true.
Proof.
  rewrite !truthy_true. intros Ha Hab. apply Ha.
  destruct a; [reflexivity|discriminate].
Qed.

End Strings.

(** ** message-processor.ts *)

Section Normalisation.
Import Js MessageProcessor Controllers.

Lemma pushedUrl_imageItem it u : pushedUrl it = Some u <-> imageItem it u.
Proof.
  unfold pushedUrl, imageItem. split.
  - destruct (String.eqb_spec (type it) "image_url") as [Ht|]; [|discriminate].
    destruct (image_url it) as [[v]|]; [|discriminate]. simpl.
    destruct (truthy v) eqn:Hv; [|discriminate].
    intros H. injection H as <-. apply truthy_true in Hv. auto.
  - intros (Ht & Hi & Hu). rewrite Ht, Hi. simpl.
    apply truthy_true in Hu. now rewrite Hu.
Qed.

Lemma filter_none {A} (f : A -> bool) (l : list A) :
  filter f l = [] -> filter (fun x => negb (f x)) l = l.
Proof.
  induction l as [|x l IH]; simpl; [reflexivity|].
  destruct (f x); [discriminate|]. simpl. intros H. now rewrite IH.
Qed.

(** [extractSystemPrompt] leaves exactly the messages whose role is not
    [system], in order. *)
Lemma extractSystemPrompt_rest msgs :
  snd (extractSystemPrompt msgs) = filter notSystem msgs.
Proof.
  unfold extractSystemPrompt.
  destruct (filter isSystem msgs) as [|x l] eqn:Hf; simpl; [|reflexivity].
  symmetry. now apply filter_none.
Qed.

Lemma scanItems_urls items textOnly urls :
  snd (scanItems items textOnly urls) = (urls ++ itemUrls items)%list.
Proof.
  revert textOnly urls.
  induction items as [|it items IH]; intros textOnly urls; simpl.
  - now rewrite app_nil_r.
  - destruct (pushedUrl it) as [u|].
    + rewrite IH. now rewrite <- app_assoc.
    + destruct (type it =? "text"); now rewrite IH.
Qed.

(** [extractImageUrls] appends the URLs of the messages in order, keeps
    every role, and leaves a content array wherever there was one. *)
Lemma extractImageUrls_urls msgs urls :
  snd (extractImageUrls msgs urls) = (urls ++ flat_map messageUrls msgs)%list.
Proof.
  revert urls. induction msgs as [|m msgs IH]; intros urls; simpl.
  - now rewrite app_nil_r.
  - unfold messageUrls at 1.
    destruct (content m) as [s|items|].
    + specialize (IH urls). destruct (extractImageUrls msgs urls). simpl in *.
      exact IH.
    + destruct (role m =? "user").
      * pose proof (scanItems_urls items [] urls) as Hs.
        destruct (scanItems items [] urls) as [t us]. simpl in Hs. subst us.
        specialize (IH (urls ++ itemUrls items)%list).
        destruct (extractImageUrls msgs _). simpl in *.
        now rewrite IH, <- app_assoc.
      * specialize (IH urls). destruct (extractImageUrls msgs urls). simpl in *.
        exact IH.
    + specialize (IH urls). destruct (extractImageUrls msgs urls). simpl in *.
      exact IH.
Qed.

Lemma extractImageUrls_shape msgs urls :
  map role (fst (extractImageUrls msgs urls)) = map role msgs
  /\ map (fun m => isArray (content m)) (fst (extractImageUrls msgs urls))
     = map (fun m => isArray (content m)) msgs
  /\ forall m', In m' (fst (extractImageUrls msgs urls)) ->
                isArray (content m') = false -> In m' msgs.
Proof.
  revert urls. induction msgs as [|m msgs IH]; intros urls; simpl.
  - repeat split; auto.
  - destruct (content m) as [s|items|] eqn:Hc.
    + destruct (IH urls) as (H1 & H2 & H3).
      destruct (extractImageUrls msgs urls). simpl in *. rewrite H1, H2, Hc.
      repeat split; auto. intros m' [->|Hin] Hm; auto.
    + destruct (role m =? "user").
      * destruct (scanItems items [] urls) as [t us].
        destruct (IH us) as (H1 & H2 & H3).
        destruct (extractImageUrls msgs us). simpl in *. rewrite H1, H2.
        repeat split; auto. intros m' [<-|Hin] Hm; [discriminate|auto].
      * destruct (IH urls) as (H1 & H2 & H3).
        destruct (extractImageUrls msgs urls). simpl in *. rewrite H1, H2, Hc.
        repeat split; auto. intros m' [->|Hin] Hm; auto.
    + destruct (IH urls) as (H1 & H2 & H3).
      destruct (extractImageUrls msgs urls). simpl in *. rewrite H1, H2, Hc.
      repeat split; auto. intros m' [->|Hin] Hm; auto.
Qed.

(** The loop of [formatMessagesToConversation] only appends. *)
Lemma formatTurns_acc msgs acc : formatTurns msgs acc = acc ++ formatTurns msgs "".
Proof.
  revert acc. induction msgs as [|m msgs IH]; intros acc; simpl.
  - now rewrite append_nil_r.
  - destruct (truthy (role m)); [|apply IH].
    destruct (content m) as [s|items|]; [destruct (truthy s)| |]; try apply IH.
    + rewrite (IH (acc ++ _)). cbn [append]. rewrite (IH (role m ++ _)).
      now rewrite append_assoc.
    + rewrite (IH (acc ++ _)). cbn [append]. rewrite (IH (role m ++ _)).
      now rewrite append_assoc.
Qed.

Lemma formatTurns_spoken msgs :
  existsb spoken msgs = true -> truthy (formatTurns msgs "") = true.
Proof.
  induction msgs as [|m msgs IH]; simpl; [discriminate|].
  unfold spoken at 1. intros H.
  destruct (truthy (role m)) eqn:Hr; simpl in H.
  - destruct (content m) as [s|items|]; [destruct (truthy s) eqn:Hs| |];
      simpl in H; auto;
      rewrite formatTurns_acc; apply truthy_append_l, truthy_append_l;
      exact Hr.
  - auto.
Qed.

Lemma formatTurns_silent msgs :
  existsb spoken msgs = false -> formatTurns msgs "" = "".
Proof.
  induction msgs as [|m msgs IH]; simpl; [reflexivity|].
  unfold spoken at 1. intros H. apply orb_false_iff in H as [Hm Hrest].
  destruct (truthy (role m)); simpl in Hm; auto.
  destruct (content m) as [s|items|]; [destruct (truthy s)| |];
    auto; discriminate.
Qed.

(** [messages[messages.length - 1]] is the head of the reversed array. *)
Lemma nth_error_last {A} (l : list A) :
  nth_error l (length l - 1) = hd_error (List.rev l).
Proof.
  destruct l as [|x l] using rev_ind; [reflexivity|].
  rewrite rev_app_distr, length_app. simpl.
  rewrite Nat.add_sub, nth_error_app2, Nat.sub_diag by lia. reflexivity.
Qed.

(** [buildModelInput] forwards the last URL of the array, if any, and the
    prompt as given. *)
Lemma buildModelInput_image uc sp urls :
  image (buildModelInput uc sp urls) = hd_error (List.rev urls).
Proof.
  unfold buildModelInput.
  destruct urls as [|u urls]; [reflexivity|].
  destruct urls as [|u' urls]; [reflexivity|].
  replace (0 <? length (u :: u' :: urls))%nat with true by reflexivity.
  replace (length (u :: u' :: urls) =? 1)%nat with false by reflexivity.
  cbn [image]. apply nth_error_last.
Qed.

Lemma buildModelInput_prompt uc sp urls : prompt (buildModelInput uc sp urls) = uc.
Proof.
  unfold buildModelInput.
  destruct (0 <? length urls)%nat; [destruct (length urls =? 1)%nat|]; reflexivity.
Qed.

Lemma buildModelInput_system_prompt uc sp urls :
  system_prompt (buildModelInput uc sp urls)
  = if truthy sp then sp ++ nl ++ nl ++ antiSelfDialoguePrompt
    else antiSelfDialoguePrompt.
Proof.
  unfold buildModelInput.
  assert (H : (if truthy (if truthy sp then sp else "")
               then (if truthy sp then sp else "") ++ nl ++ nl ++ antiSelfDialoguePrompt
               else antiSelfDialoguePrompt)
              = if truthy sp then sp ++ nl ++ nl ++ antiSelfDialoguePrompt
                else antiSelfDialoguePrompt).
  { destruct (truthy sp) eqn:Hsp; [now rewrite Hsp|reflexivity]. }
  destruct (0 <? length urls)%nat; [destruct (length urls =? 1)%nat|];
    cbn [system_prompt]; exact H.
Qed.

Lemma buildModelInput_constants uc sp urls :
  max_tokens (buildModelInput uc sp urls) = 64000%Z
  /\ max_image_resolution (buildModelInput uc sp urls) = QArith_base.Qmake 1 2.
Proof.
  unfold buildModelInput.
  destruct (0 <? length urls)%nat; [destruct (length urls =? 1)%nat|];
    split; reflexivity.
Qed.

Lemma processMessages_array body msgs :
  messages body = Some msgs -> msgs <> [] ->
  processMessages body
  = {| userContent := Some (formatMessagesToConversation (remaining msgs));
       systemPrompt := fst (extractSystemPrompt msgs);
       imageUrls := flat_map messageUrls (filter notSystem msgs) |}.
Proof.
  intros Hm Hne.
  rewrite <- (app_nil_l (flat_map _ _)), <- extractSystemPrompt_rest,
    <- extractImageUrls_urls.
  unfold processMessages, remaining. rewrite Hm.
  destruct msgs as [|m msgs]; [now destruct Hne|].
  destruct (extractSystemPrompt (m :: msgs)) as [sp rest].
  cbn [fst snd]. destruct (extractImageUrls rest []) as [clone urls].
  reflexivity.
Qed.

(** What [normalize] computes on a non-empty array. *)
Lemma normalize_array body msgs :
  messages body = Some msgs -> msgs <> [] ->
  normalize body =
  if truthy (formatMessagesToConversation (remaining msgs))
  then Some (buildModelInput (formatMessagesToConversation (remaining msgs))
                             (fst (extractSystemPrompt msgs))
                             (flat_map messageUrls (filter notSystem msgs)))
  else None.
Proof.
  intros Hm Hne. unfold normalize. rewrite (processMessages_array _ _ Hm Hne).
  cbn [userContent systemPrompt imageUrls truthy_opt or_else].
  destruct (truthy (formatMessagesToConversation (remaining msgs)));
    reflexivity.
Qed.

Lemma formatMessagesToConversation_truthy msgs :
  truthy (formatMessagesToConversation msgs) = truthy (formatTurns msgs "").
Proof.
  unfold formatMessagesToConversation.
  destruct (truthy (formatTurns msgs "")) eqn:Ht; simpl; [|exact Ht].
  destruct ((0 <? length msgs)%nat && lastRoleIsUser msgs); [|exact Ht].
  now apply truthy_append_l.
Qed.

Lemma itemUrls_none items :
  (forall it u, In it items -> ~ imageItem it u) -> itemUrls items = [].
Proof.
  induction items as [|it items IH]; intros H; [reflexivity|].
  unfold itemUrls in *. simpl.
  destruct (pushedUrl it) as [u|] eqn:Hp.
  - apply pushedUrl_imageItem in Hp. now destruct (H it u (or_introl eq_refl)).
  - apply IH. intros it' u' Hin. apply H. now right.
Qed.

Lemma itemUrls_some items :
  itemUrls items <> [] -> exists it u, In it items /\ imageItem it u.
Proof.
  induction items as [|it items IH]; intros H; [now destruct H|].
  destruct (pushedUrl it) as [u|] eqn:Hp.
  - exists it, u. split; [now left|now apply pushedUrl_imageItem].
  - unfold itemUrls in *. simpl in H. rewrite Hp in H.
    destruct (IH H) as (it' & u' & Hin & Hi). exists it', u'. split; [now right|exact Hi].
Qed.

Lemma messageUrls_none m : ~ carriesImage m -> messageUrls m = [].
Proof.
  intros H. unfold messageUrls.
  destruct (content m) as [s|items|] eqn:Hc; try reflexivity.
  destruct (String.eqb_spec (role m) "user") as [Hr|]; [|reflexivity].
  destruct (itemUrls items) as [|u us] eqn:Hu; [reflexivity|].
  destruct (itemUrls_some items) as (it & u' & Hin & Hi); [now rewrite Hu|].
  destruct H. split; [exact Hr|]. now exists items, it, u'.
Qed.

Lemma flat_map_none {A B} (f : A -> list B) (l : list A) :
  (forall x, In x l -> f x = []) -> flat_map f l = [].
Proof.
  induction l as [|x l IH]; intros H; simpl; [reflexivity|].
  rewrite (H x (or_introl eq_refl)), IH; [reflexivity|].
  intros y Hy. apply H. now right.
Qed.

(** A user message with a content array is still there, and is
    serialised, after the images are stripped. *)
Lemma extractImageUrls_keeps_user_array l urls m :
  In m l -> role m = "user" -> isArray (content m) = true ->
  existsb spoken (fst (extractImageUrls l urls)) = true.
Proof.
  revert urls. induction l as [|x l IH]; intros urls Hin Hr Ha; [now destruct Hin|].
  simpl. destruct Hin as [->|Hin].
  - destruct (content m) as [s|items|]; try discriminate.
    rewrite Hr. simpl.
    destruct (scanItems items [] urls) as [t us].
    destruct (extractImageUrls l us). reflexivity.
  - destruct (content x) as [s|items|].
    + specialize (IH urls Hin Hr Ha). destruct (extractImageUrls l urls).
      simpl in *. rewrite IH. apply orb_true_r.
    + destruct (role x =? "user").
      * destruct (scanItems items [] urls) as [t us].
        specialize (IH us Hin Hr Ha). destruct (extractImageUrls l us).
        simpl in *. rewrite IH. apply orb_true_r.
      * specialize (IH urls Hin Hr Ha). destruct (extractImageUrls l urls).
        simpl in *. rewrite IH. apply orb_true_r.
    + specialize (IH urls Hin Hr Ha). destruct (extractImageUrls l urls).
      simpl in *. rewrite IH. apply orb_true_r.
Qed.

(** Messages without a content array go through [extractImageUrls] as
    they are. *)
Lemma extractImageUrls_no_array l urls :
  (forall m, In m l -> isArray (content m) = false) ->
  fst (extractImageUrls l urls) = l.
Proof.
  induction l as [|x l IH]; intros H; [reflexivity|]. simpl.
  assert (Hx := H x (or_introl eq_refl)).
  assert (Hl : fst (extractImageUrls l urls) = l)
    by (apply IH; intros m Hm; apply H; now right).
  destruct (content x) as [s|items|]; try discriminate;
    destruct (extractImageUrls l urls); simpl in *; now rewrite Hl.
Qed.

Lemma lastRoleIsUser_roles l :
  lastRoleIsUser l
  = match hd_error (List.rev (map role l)) with
    | Some r => r =? "user"
    | None => false
    end.
Proof.
  unfold lastRoleIsUser. rewrite nth_error_last, <- map_rev.
  now destruct (List.rev l).
Qed.

Lemma lastRoleIsUser_remaining msgs :
  lastRoleIsUser (remaining msgs) = lastNonSystemIsUser msgs.
Proof.
  rewrite lastRoleIsUser_roles. unfold remaining, lastNonSystemIsUser.
  destruct (extractImageUrls_shape (snd (extractSystemPrompt msgs)) []) as (Hr & _).
  rewrite Hr, extractSystemPrompt_rest, <- map_rev.
  now destruct (List.rev (filter notSystem msgs)).
Qed.

End Normalisation.

(** C2, as the code has it. When a user message with a content array holds
    an image item with a non-empty URL [u], and no image item with a URL
    comes later in that message or in a later user message, normalisation
    succeeds and the model input carries one image URL, [u]; the earlier
    URLs are dropped. *)
Theorem C2_last_image_url_is_forwarded :
  forall (body : RequestBody) (before after : list Message) (m : Message)
         (itemsBefore itemsAfter : list ContentItem) (it : ContentItem) (u : string),
    messages body = Some (before ++ m :: after)%list ->
    role m = "user" ->
    content m = CArray (itemsBefore ++ it :: itemsAfter)%list ->
    imageItem it u ->
    (forall it' u', In it' itemsAfter -> ~ imageItem it' u') ->
    (forall m', In m' after -> ~ carriesImage m') ->
    exists input,
      Controllers.normalize body = Some input /\ image input = Some u.
Proof.
  intros body before after m ib ia it u Hm Hr Hc Hi Hia Hafter.
  assert (Hsys : notSystem m = true).
  { unfold notSystem, MessageProcessor.isSystem. now rewrite Hr. }
  rewrite (normalize_array _ _ Hm) by (intros E; symmetry in E; revert E; apply app_cons_not_nil).
  rewrite formatMessagesToConversation_truthy, formatTurns_spoken.
  - eexists. split; [reflexivity|].
    rewrite buildModelInput_image, filter_app, flat_map_app. simpl. rewrite Hsys.
    simpl. rewrite (flat_map_none messageUrls (filter notSystem after)).
    + unfold messageUrls at 2. rewrite Hc, Hr. simpl.
      unfold itemUrls. rewrite flat_map_app. simpl.
      apply pushedUrl_imageItem in Hi. rewrite Hi.
      change (flat_map _ ia) with (itemUrls ia).
      rewrite (itemUrls_none ia Hia), !app_nil_r.
      rewrite app_assoc, rev_app_distr. reflexivity.
    + intros m' Hin. apply messageUrls_none, Hafter.
      apply filter_In in Hin. tauto.
  - unfold remaining. rewrite extractSystemPrompt_rest.
    apply extractImageUrls_keeps_user_array with (m := m).
    + apply filter_In. split; [|exact Hsys]. apply in_elt.
    + exact Hr.
    + now rewrite Hc.
Qed.

Lemma C2_last_image_url_is_forwarded_witness :
  exists input,
    Controllers.normalize (Sample.bodyOf Sample.pictures) = Some input
    /\ image input = Some "https://img/3.png".
Proof.
  apply (C2_last_image_url_is_forwarded
           (Sample.bodyOf Sample.pictures)
           [{| role := "system"; content := CString "Be brief." |};
            {| role := "user";
               content := CArray [Sample.textItem "What is this?";
                                  Sample.imageUrlItem "https://img/1.png"] |};
            {| role := "assistant"; content := CString "A cat." |}]
           []
           {| role := "user";
              content := CArray [Sample.imageUrlItem "https://img/2.png";
                                 Sample.textItem "And these?";
                                 Sample.imageUrlItem "https://img/3.png"] |}
           [Sample.imageUrlItem "https://img/2.png"; Sample.textItem "And these?"]
           []
           (Sample.imageUrlItem "https://img/3.png")
           "https://img/3.png").
  - reflexivity.
  - reflexivity.
  - reflexivity.
  - unfold imageItem. simpl. repeat split. discriminate.
  - intros it' u' [].
  - intros m' [].
Defined.

(** C2, as the claim has it, fails: a user message holds an image item, its
    URL is the empty string, and the model input that is built carries no
    image URL. *)
Lemma C2_counterexample_blank_image_url :
  (exists m items it,
      In m Sample.blankImage /\ role m = "user"
      /\ content m = CArray items /\ In it items /\ type it = "image_url")
  /\ option_map image (Controllers.normalize (Sample.bodyOf Sample.blankImage))
     = Some None.
Proof.
  split.
  - exists {| role := "user";
              content := CArray [Sample.textItem "Look"; Sample.imageUrlItem ""] |},
           [Sample.textItem "Look"; Sample.imageUrlItem ""],
           (Sample.imageUrlItem "").
    simpl. repeat split; auto.
  - vm_compute. reflexivity.
Qed.

(** C9. Every model input that normalisation builds has
    [max_tokens = 64000] and [max_image_resolution = 0.5], whatever the
    request holds. *)
Theorem C9_fixed_generation_limits :
  forall (body : RequestBody) (input : ModelInput),
    Controllers.normalize body = Some input ->
    max_tokens input = 64000%Z
    /\ max_image_resolution input = QArith_base.Qmake 1 2.
Proof.
  intros body input. unfold Controllers.normalize.
  destruct (negb _); [discriminate|].
  intros H. injection H as <-. apply buildModelInput_constants.
Qed.

Lemma C9_fixed_generation_limits_witness :
  exists input,
    Controllers.normalize (Sample.bodyOf Sample.pictures) = Some input
    /\ max_tokens input = 64000%Z
    /\ max_image_resolution input = QArith_base.Qmake 1 2.
Proof.
  destruct (Controllers.normalize (Sample.bodyOf Sample.pictures)) as [input|] eqn:E;
    [|vm_compute in E; discriminate].
  exists input. split; [reflexivity|].
  apply (C9_fixed_generation_limits (Sample.bodyOf Sample.pictures) input E).
Defined.

Section Rejection.
Import Js MessageProcessor Controllers.

Lemma silent_not_spoken l :
  (forall m, In m l -> emptyContent m) -> existsb spoken l = false.
Proof.
  intros H. destruct (existsb spoken l) eqn:E; [|reflexivity].
  apply existsb_exists in E as (m & Hin & Hs).
  unfold spoken in Hs. destruct (H m Hin) as [Hc|Hc]; rewrite Hc in Hs;
    simpl in Hs; rewrite andb_false_r in Hs; discriminate.
Qed.

(** Without a message to serialise there is no model input. *)
Lemma normalize_silent body :
  (messages body = None
   \/ exists msgs, messages body = Some msgs
                   /\ forall m, In m msgs -> role m = "system" \/ emptyContent m) ->
  normalize body = None.
Proof.
  intros [Hn|(msgs & Hm & Hall)].
  - unfold normalize, processMessages. now rewrite Hn.
  - destruct msgs as [|m0 msgs0].
    + unfold normalize, processMessages. now rewrite Hm.
    + assert (Hne : m0 :: msgs0 <> []) by discriminate.
      revert Hm Hall Hne. generalize (m0 :: msgs0). intros msgs Hm Hall Hne.
      rewrite (normalize_array _ _ Hm Hne).
      rewrite formatMessagesToConversation_truthy, formatTurns_silent; [reflexivity|].
      assert (Hempty : forall m, In m (filter notSystem msgs) -> emptyContent m).
      { intros m Hin. apply filter_In in Hin as [Hin Hs].
        destruct (Hall m Hin) as [Hr|He]; [|exact He].
        unfold notSystem, isSystem in Hs. rewrite Hr in Hs. discriminate. }
      unfold remaining. rewrite extractSystemPrompt_rest.
      rewrite extractImageUrls_no_array.
      * now apply silent_not_spoken.
      * intros m Hin. destruct (Hempty m Hin) as [Hc|Hc]; now rewrite Hc.
Qed.

End Rejection.

(** C6, as the code has it. For an authorised request whose body parses:
    when [messages] is not an array, or is empty, or holds only system
    messages and messages whose content is the empty string or absent,
    no model input is built and the handler answers 400 with code
    [invalid_messages]. *)
Theorem C6_no_conversation_is_rejected :
  forall (cfg : Config) (env : Env) (req : Request) (body : RequestBody) (w : World),
    Controllers.isValid (Controllers.validateApiKey cfg (authorization req)) = true ->
    json req = Some body ->
    (messages body = None
     \/ exists msgs, messages body = Some msgs
                     /\ forall m, In m msgs -> role m = "system" \/ emptyContent m) ->
    Controllers.normalize body = None
    /\ Controllers.handleChatCompletionRequest cfg env req w
       = ({| status := 400;
             headers := [("Content-Type", "application/json");
                         ("Access-Control-Allow-Origin", "*")];
             body := errorBody "Request body must contain a non-empty 'messages' array."
                               "invalid_request_error" "invalid_messages" |}, w).
Proof.
  intros cfg env req body w Hv Hj Hm.
  pose proof (normalize_silent body Hm) as Hn.
  split; [exact Hn|].
  unfold Controllers.handleChatCompletionRequest.
  destruct (Controllers.validateApiKey cfg (authorization req)); [discriminate|].
  rewrite Hj, Hn. reflexivity.
Qed.

Lemma C6_no_conversation_is_rejected_witness :
  Controllers.normalize (Sample.bodyOf Sample.silent) = None
  /\ status (fst (Controllers.handleChatCompletionRequest
                    Sample.cfg Sample.greeting
                    (Sample.authorized (Sample.bodyOf Sample.silent)) Sample.w0))
     = 400.
Proof.
  destruct (C6_no_conversation_is_rejected
              Sample.cfg Sample.greeting
              (Sample.authorized (Sample.bodyOf Sample.silent))
              (Sample.bodyOf Sample.silent) Sample.w0) as [Hn Hr].
  - reflexivity.
  - reflexivity.
  - right. exists Sample.silent. split; [reflexivity|].
    intros m [<-|[<-|[]]]; [left; reflexivity|right; left; reflexivity].
  - split; [exact Hn|]. rewrite Hr. reflexivity.
Defined.

(** C6, as the claim has it, fails: the only content of the conversation is
    one space, a model input is built, and the handler answers 200. *)
Lemma C6_counterexample_whitespace_is_accepted :
  (forall m, In m Sample.blank -> exists s, content m = CString s /\ Js.trim s = "")
  /\ Controllers.normalize (Sample.bodyOf Sample.blank) <> None
  /\ status (fst (Controllers.handleChatCompletionRequest
                    Sample.cfg Sample.greeting
                    (Sample.authorized (Sample.bodyOf Sample.blank)) Sample.w0))
     = 200.
Proof.
  split; [|split].
  - intros m [<-|[]]. exists " ". split; reflexivity.
  - vm_compute. discriminate.
  - vm_compute. reflexivity.
Qed.

(** C7. For an accepted conversation the prompt is the serialised turns
    followed by the directive line exactly when the last message that is
    not a system message has role [user], and is the serialised turns alone
    otherwise; the system prompt is the extracted one, a blank line and the
    directive when the extracted one is not empty, and the directive alone
    when it is. *)
Theorem C7_directive_placement :
  forall (body : RequestBody) (msgs : list Message) (input : ModelInput),
    messages body = Some msgs ->
    Controllers.normalize body = Some input ->
    let turns := MessageProcessor.formatTurns (remaining msgs) "" in
    let extracted := fst (MessageProcessor.extractSystemPrompt msgs) in
    (prompt input = turns ++ directiveLine <-> lastNonSystemIsUser msgs = true)
    /\ (prompt input = turns <-> lastNonSystemIsUser msgs = false)
    /\ (extracted <> "" ->
        system_prompt input
        = extracted ++ Js.nl ++ Js.nl ++ MessageProcessor.antiSelfDialoguePrompt)
    /\ (extracted = "" ->
        system_prompt input = MessageProcessor.antiSelfDialoguePrompt).
Proof.
  intros body msgs input Hm Hn turns extracted.
  assert (Hne : msgs <> []).
  { intros ->. unfold Controllers.normalize, MessageProcessor.processMessages in Hn.
    rewrite Hm in Hn. discriminate. }
  rewrite (normalize_array _ _ Hm Hne) in Hn.
  destruct (Js.truthy (MessageProcessor.formatMessagesToConversation (remaining msgs)))
    eqn:Ht; [|discriminate].
  injection Hn as <-.
  rewrite formatMessagesToConversation_truthy in Ht. fold turns in Ht.
  rewrite buildModelInput_prompt, buildModelInput_system_prompt. fold extracted.
  assert (Hp : MessageProcessor.formatMessagesToConversation (remaining msgs)
               = if lastNonSystemIsUser msgs then turns ++ directiveLine else turns).
  { unfold MessageProcessor.formatMessagesToConversation. fold turns.
    rewrite Ht, lastRoleIsUser_remaining. simpl.
    destruct (lastNonSystemIsUser msgs) eqn:Hl; [|now rewrite andb_false_r].
    rewrite <- lastRoleIsUser_remaining in Hl.
    destruct (remaining msgs); [discriminate|reflexivity]. }
  rewrite Hp.
  assert (Hline : forall t, t ++ directiveLine <> t).
  { intros t E. rewrite <- (append_nil_r t) in E at 2.
    apply append_inv_head in E. discriminate. }
  repeat split.
  - destruct (lastNonSystemIsUser msgs); [reflexivity|].
    intros E. symmetry in E. now destruct (Hline turns).
  - now intros ->.
  - destruct (lastNonSystemIsUser msgs); [|reflexivity].
    intros E. now destruct (Hline turns).
  - now intros ->.
  - intros He. apply truthy_true in He. now rewrite He.
  - intros He. apply truthy_false in He. now rewrite He.
Qed.

Lemma C7_directive_placement_witness :
  exists input,
    Controllers.normalize (Sample.bodyOf Sample.question) = Some input
    /\ prompt input = "user: Why?" ++ Js.nl ++ directiveLine
    /\ system_prompt input
       = "Be brief." ++ Js.nl ++ Js.nl ++ MessageProcessor.antiSelfDialoguePrompt.
Proof.
  destruct (Controllers.normalize (Sample.bodyOf Sample.question)) as [input|] eqn:E;
    [|vm_compute in E; discriminate].
  exists input. split; [reflexivity|].
  destruct (C7_directive_placement (Sample.bodyOf Sample.question) Sample.question
                                   input eq_refl E) as (H1 & _ & H3 & _).
  split.
  - apply H1. reflexivity.
  - apply H3. discriminate.
Defined.

(** ** Authorisation *)

Section Authorisation.
Import Js Controllers.

(** On a character whose lower case is an ASCII character, [toLowerCase]
    and the lower-casing of A to Z agree. *)
Lemma lower_char_ascii (c : ascii) :
  isAscii (asciiLowerChar c) = true -> lower_char c = asciiLowerChar c.
Proof.
  destruct c as [[] [] [] [] [] [] [] []]; vm_compute; intros H;
    first [reflexivity | discriminate H].
Qed.

Lemma ascii_lower_char (c : ascii) :
  isAscii (lower_char c) = true -> asciiLowerChar c = lower_char c.
Proof.
  destruct c as [[] [] [] [] [] [] [] []]; vm_compute; intros H;
    first [reflexivity | discriminate H].
Qed.

Lemma toLowerCase_append (a b : string) :
  toLowerCase (a ++ b) = toLowerCase a ++ toLowerCase b.
Proof. induction a as [|x a IH]; simpl; [reflexivity|now rewrite IH]. Qed.

Lemma startsWith_append (p s : string) : startsWith (p ++ s) p = true.
Proof.
  induction p as [|x p IH]; simpl; [reflexivity|].
  now rewrite Ascii.eqb_refl.
Qed.

Ltac same_char H :=
  match type of H with
  | ?f ?c = ?x =>
      let E := fresh in
      assert (E : isAscii (f c) = true) by (rewrite H; reflexivity);
      first [apply lower_char_ascii in E | apply ascii_lower_char in E];
      rewrite H in E
  end.

(** The format test of [validateApiKey] passes exactly on a header whose
    first seven characters are [bearer ] up to case. *)
Lemma bearer_prefix (header : string) :
  startsWith (toLowerCase header) "bearer " = true
  <-> exists key, bearerHeader header key.
Proof.
  split.
  - destruct header as [|c1 [|c2 [|c3 [|c4 [|c5 [|c6 [|c7 key]]]]]]];
      cbn [toLowerCase startsWith]; rewrite ?andb_false_r; try discriminate.
    intros H.
    repeat match type of H with
           | (_ && _)%bool = true =>
               let E := fresh "E" in
               apply andb_prop in H as [E H]; apply Ascii.eqb_eq in E; same_char E
           end.
    exists key, (String c1 (String c2 (String c3 (String c4
                   (String c5 (String c6 (String c7 ""))))))).
    repeat split. simpl. congruence.
  - intros (key & scheme & -> & Hlen & Hlow).
    destruct scheme as [|c1 [|c2 [|c3 [|c4 [|c5 [|c6 [|c7 [|]]]]]]]];
      try discriminate.
    simpl in Hlow. injection Hlow as H1 H2 H3 H4 H5 H6 H7.
    same_char H1. same_char H2. same_char H3. same_char H4.
    same_char H5. same_char H6. same_char H7.
    rewrite toLowerCase_append.
    assert (E : toLowerCase (String c1 (String c2 (String c3 (String c4
                  (String c5 (String c6 (String c7 ""))))))) = "bearer ")
      by (simpl; congruence).
    rewrite E. apply startsWith_append.
Qed.

Lemma bearer_key (header key : string) :
  bearerHeader header key -> substring_from 7 header = key.
Proof.
  intros (scheme & -> & Hlen & _).
  destruct scheme as [|c1 [|c2 [|c3 [|c4 [|c5 [|c6 [|c7 [|]]]]]]]];
    try discriminate.
  reflexivity.
Qed.

(** [validateApiKey] by cases. *)
Lemma validateApiKey_cases cfg (header : string) :
  validateApiKey cfg (Some header)
  = if startsWith (toLowerCase header) "bearer "
    then if substring_from 7 header =? AUTH_KEY cfg
         then Accepted (substring_from 7 header)
         else Rejected (unauthorized invalidKeyMessage "invalid_auth_key")
    else Rejected (unauthorized missingHeaderMessage "missing_auth_header").
Proof.
  unfold validateApiKey.
  destruct (truthy header) eqn:Ht.
  - cbn [negb orb].
    destruct (startsWith (toLowerCase header) "bearer "); cbn [negb]; [|reflexivity].
    destruct (substring_from 7 header =? AUTH_KEY cfg); reflexivity.
  - apply truthy_false in Ht. subst header. reflexivity.
Qed.

Lemma validateApiKey_bearer cfg (header key : string) :
  bearerHeader header key ->
  validateApiKey cfg (Some header)
  = if key =? AUTH_KEY cfg
    then Accepted key
    else Rejected (unauthorized invalidKeyMessage "invalid_auth_key").
Proof.
  intros H. rewrite validateApiKey_cases.
  rewrite (proj2 (bearer_prefix header)) by (now exists key).
  now rewrite (bearer_key _ _ H).
Qed.

Lemma validateApiKey_malformed cfg (header : string) :
  (forall key, ~ bearerHeader header key) ->
  validateApiKey cfg (Some header)
  = Rejected (unauthorized missingHeaderMessage "missing_auth_header").
Proof.
  intros H. rewrite validateApiKey_cases.
  destruct (startsWith (toLowerCase header) "bearer ") eqn:E; [|reflexivity].
  apply bearer_prefix in E as [key Hk]. now destruct (H key).
Qed.

End Authorisation.

(** C8. A chat-completions request whose header is [Bearer] followed by a
    key other than the configured one gets the 401 response with code
    [invalid_auth_key]; a request without the header, or with a header that
    does not begin with [bearer ] in any case of the letters, gets the 401
    response with code [missing_auth_header]. Both carry
    [WWW-Authenticate: Bearer realm="API Access"] and the structured error
    body, and nothing else happens. *)
Theorem C8_unauthorized_requests :
  forall (cfg : Config) (env : Env) (req : Request) (w : World),
    (forall header key,
        authorization req = Some header ->
        bearerHeader header key ->
        key <> AUTH_KEY cfg ->
        Controllers.handleChatCompletionRequest cfg env req w
        = (unauthorized invalidKeyMessage "invalid_auth_key", w))
    /\ (authorization req = None
        \/ (exists header, authorization req = Some header
                           /\ forall key, ~ bearerHeader header key) ->
        Controllers.handleChatCompletionRequest cfg env req w
        = (unauthorized missingHeaderMessage "missing_auth_header", w)).
Proof.
  intros cfg env req w. unfold Controllers.handleChatCompletionRequest. split.
  - intros header key Ha Hb Hk. rewrite Ha, (validateApiKey_bearer cfg _ _ Hb).
    apply String.eqb_neq in Hk. now rewrite Hk.
  - intros [Ha|(header & Ha & Hb)]; rewrite Ha.
    + reflexivity.
    + now rewrite (validateApiKey_malformed cfg _ Hb).
Qed.

Lemma C8_unauthorized_requests_witness :
  fst (Controllers.handleChatCompletionRequest
         Sample.cfg Sample.greeting
         {| authorization := Some "Bearer wrong"; json := None |} Sample.w0)
  = unauthorized invalidKeyMessage "invalid_auth_key"
  /\ fst (Controllers.handleChatCompletionRequest
            Sample.cfg Sample.greeting
            {| authorization := None; json := None |} Sample.w0)
     = unauthorized missingHeaderMessage "missing_auth_header"
  /\ fst (Controllers.handleChatCompletionRequest
            Sample.cfg Sample.greeting
            {| authorization := Some "Basic secret"; json := None |} Sample.w0)
     = unauthorized missingHeaderMessage "missing_auth_header".
Proof.
  split; [|split].
  - rewrite (proj1 (C8_unauthorized_requests
                      Sample.cfg Sample.greeting
                      {| authorization := Some "Bearer wrong"; json := None |} Sample.w0)
                   "Bearer wrong" "wrong").
    + reflexivity.
    + reflexivity.
    + exists "Bearer ". repeat split.
    + discriminate.
  - rewrite (proj2 (C8_unauthorized_requests
                      Sample.cfg Sample.greeting
                      {| authorization := None; json := None |} Sample.w0)).
    + reflexivity.
    + left. reflexivity.
  - rewrite (proj2 (C8_unauthorized_requests
                      Sample.cfg Sample.greeting
                      {| authorization := Some "Basic secret"; json := None |} Sample.w0)).
    + reflexivity.
    + right. exists "Basic secret". split; [reflexivity|].
      intros key (scheme & E & Hlen & Hlow).
      destruct scheme as [|c1 [|c2 [|c3 [|c4 [|c5 [|c6 [|c7 [|]]]]]]]];
        try discriminate.
      simpl in E. injection E as <- <- <- <- <- <- <- _. discriminate.
Defined.

(** C10. A header whose first seven characters are [bearer ] in any case of
    the letters passes the format check, and is then accepted exactly when
    what follows them equals the configured key; so [BEARER <key>] is
    accepted, and the key followed by anything, white space included, is
    rejected with [invalid_auth_key]. *)
Theorem C10_scheme_any_case_key_exact :
  forall (cfg : Config),
    (forall header key,
        bearerHeader header key ->
        Controllers.validateApiKey cfg (Some header)
        = if key =? AUTH_KEY cfg
          then Controllers.Accepted key
          else Controllers.Rejected (unauthorized invalidKeyMessage "invalid_auth_key"))
    /\ Controllers.validateApiKey cfg (Some ("BEARER " ++ AUTH_KEY cfg))
       = Controllers.Accepted (AUTH_KEY cfg)
    /\ (forall trailing,
           trailing <> "" ->
           Controllers.validateApiKey cfg (Some ("Bearer " ++ AUTH_KEY cfg ++ trailing))
           = Controllers.Rejected (unauthorized invalidKeyMessage "invalid_auth_key")).
Proof.
  intros cfg. split; [|split].
  - intros header key H. now apply validateApiKey_bearer.
  - rewrite (validateApiKey_bearer cfg _ (AUTH_KEY cfg)).
    + now rewrite String.eqb_refl.
    + exists "BEARER ". repeat split.
  - intros trailing Ht.
    rewrite (validateApiKey_bearer cfg _ (AUTH_KEY cfg ++ trailing)).
    + replace (AUTH_KEY cfg ++ trailing =? AUTH_KEY cfg) with false; [reflexivity|].
      symmetry. apply String.eqb_neq. intros E.
      rewrite <- (append_nil_r (AUTH_KEY cfg)) in E at 2.
      apply append_inv_head in E. contradiction.
    + exists "Bearer ". repeat split.
Qed.

Lemma C10_scheme_any_case_key_exact_witness :
  Controllers.validateApiKey Sample.cfg (Some "bEaReR secret")
  = Controllers.Accepted "secret"
  /\ Controllers.validateApiKey Sample.cfg (Some "Bearer secret ")
     = Controllers.Rejected (unauthorized invalidKeyMessage "invalid_auth_key").
Proof.
  destruct (C10_scheme_any_case_key_exact Sample.cfg) as (H1 & _ & H3).
  split.
  - rewrite (H1 "bEaReR secret" "secret"); [reflexivity|].
    exists "bEaReR ". repeat split.
  - apply (H3 " "). discriminate.
Defined.

(** ** The streaming encoder *)

Section Encoding.
Import Js Utils Controllers.
Variables (env : Env) (chatCompletionId modelName : string) (totalPromptTokens : nat).

Local Abbreviation forEach :=
  (forEachEvent env chatCompletionId modelName totalPromptTokens).
Local Abbreviation chunkOf := (chunkObject env chatCompletionId modelName).

Lemma Data_inj a b : Data a = Data b -> a = b.
Proof. intros H. now injection H. Qed.

(** What [createSSEChunk] puts in the chunk. *)
Lemma chunkObject_fields content role finish_reason usage w :
  chunkOf content role finish_reason usage w
  = ({| Chunk.id := chatCompletionId;
        Chunk.object := "chat.completion.chunk";
        Chunk.created := (dateNow env (ticks w) / 1000)%Z;
        Chunk.model := modelName;
        Chunk.choices := [{| Chunk.index := 0;
                             Chunk.delta := {| Chunk.role := keyOf role;
                                               Chunk.content := keyOf content |};
                             Chunk.finish_reason := finish_reason |}];
        Chunk.usage := match usage with
                       | Some u => if isStop finish_reason then Some u else None
                       | None => None
                       end |}, tick w).
Proof.
  unfold chunkObject, now, keyOf.
  destruct (truthy_opt role), (truthy_opt content), (truthy_opt finish_reason);
    reflexivity.
Qed.

(** One turn of the loop of [handleStreamResponse]. *)
Lemma forEachEvent_cons ev rest isFirstEvent completionContent w :
  forEach (ev :: rest) isFirstEvent completionContent w
  = let '(first, w1) :=
      if isFirstEvent
      then ([Data (fst (chunkOf None (Some "assistant") None None w))], tick w)
      else ([], w) in
    let '(here, completionContent', w2) :=
      if isOutput ev
      then ([Data (fst (chunkOf (Some (dataText ev)) None None None w1))],
            completionContent ++ dataText ev, tick w1)
      else if event ev =? "done"
      then ([Data (fst (chunkOf None None (Some "stop")
                          (Some {| Chunk.prompt_tokens := totalPromptTokens;
                                   Chunk.completion_tokens :=
                                     tokenCount env completionContent;
                                   Chunk.total_tokens :=
                                     totalPromptTokens
                                     + tokenCount env completionContent |}) w1));
             Done], completionContent, tick w1)
      else ([], completionContent, w1) in
    let '(later, w3) := forEach rest false completionContent' w2 in
    ((first ++ here ++ later)%list, w3).
Proof.
  cbn [forEachEvent]. rewrite !chunkObject_fields.
  destruct isFirstEvent, (isOutput ev), (event ev =? "done"); reflexivity.
Qed.

Lemma ChunkArgs_cons ev evs content role finish_reason usage :
  ChunkArgs evs content role finish_reason usage ->
  ChunkArgs (ev :: evs) content role finish_reason usage.
Proof.
  intros [|ev' Hin Ho|u]; [constructor| |constructor].
  apply ContentArgs; [now right|exact Ho].
Qed.

(** The clock is only read, never set back. *)
Lemma forEachEvent_ticks evs isFirstEvent completionContent w :
  ticks w <= ticks (snd (forEach evs isFirstEvent completionContent w)).
Proof.
  revert isFirstEvent completionContent w.
  induction evs as [|ev rest IH]; intros isFirstEvent completionContent w;
    [apply Nat.le_refl|].
  rewrite forEachEvent_cons.
  destruct isFirstEvent, (isOutput ev), (event ev =? "done");
    match goal with
    | |- context [forEach rest false ?c ?w'] =>
        specialize (IH false c w'); destruct (forEach rest false c w')
    end; cbn [fst snd tick ticks] in *; lia.
Qed.

(** Every chunk on the stream was built by [createSSEChunk] from one of
    the three argument shapes, at a reading of the clock not before the
    start. *)
Lemma forEachEvent_chunk evs isFirstEvent completionContent w chunk :
  In (Data chunk) (fst (forEach evs isFirstEvent completionContent w)) ->
  exists content role finish_reason usage wk,
    ChunkArgs evs content role finish_reason usage
    /\ ticks w <= ticks wk
    /\ chunk = fst (chunkOf content role finish_reason usage wk).
Proof.
  revert isFirstEvent completionContent w.
  induction evs as [|ev rest IH]; intros isFirstEvent completionContent w;
    [intros []|].
  rewrite forEachEvent_cons.
  assert (Hrole : forall w', ticks w <= ticks w' ->
             exists content role finish_reason usage wk,
               ChunkArgs (ev :: rest) content role finish_reason usage
               /\ ticks w <= ticks wk
               /\ fst (chunkOf None (Some "assistant") None None w')
                  = fst (chunkOf content role finish_reason usage wk)).
  { intros w' Hw. exists None, (Some "assistant"), None, None, w'.
    split; [constructor|split; [exact Hw|reflexivity]]. }
  assert (Hlater : forall c w', ticks w <= ticks w' ->
             In (Data chunk) (fst (forEach rest false c w')) ->
             exists content role finish_reason usage wk,
               ChunkArgs (ev :: rest) content role finish_reason usage
               /\ ticks w <= ticks wk
               /\ chunk = fst (chunkOf content role finish_reason usage wk)).
  { intros c w' Hw Hin.
    destruct (IH false c w' Hin) as (a & b & f & u & wk & Ha & Hk & Hc).
    exists a, b, f, u, wk.
    split; [now apply ChunkArgs_cons|split; [lia|exact Hc]]. }
  destruct isFirstEvent, (isOutput ev) eqn:Ho, (event ev =? "done");
    match goal with
    | |- context [forEach rest false ?c ?w'] =>
        pose proof (Hlater c w') as Hl; destruct (forEach rest false c w')
    end; cbn [fst snd app In tick ticks] in *; intros Hin;
    repeat match type of Hin with
           | _ \/ _ => destruct Hin as [Hin|Hin]
           end;
    try discriminate Hin;
    try (apply Hl; [lia|exact Hin]);
    clear IH Hlater Hl; apply Data_inj in Hin; subst chunk.
  all: try (apply Hrole; lia).
  all: try (exists (Some (dataText ev)), None, None, None;
            eexists; split; [apply ContentArgs; [now left|exact Ho]|];
            split; [|reflexivity]; cbn [tick ticks]; lia).
  all: eexists None, None, (Some "stop"), (Some _);
       eexists; split; [constructor|];
       split; [|reflexivity]; cbn [tick ticks]; lia.
Qed.

(** Without a [done] event there is no end marker and no chunk with a
    finish reason. *)
Lemma forEachEvent_no_done evs isFirstEvent completionContent w :
  (forall ev, In ev evs -> event ev <> "done") ->
  forall f, In f (fst (forEach evs isFirstEvent completionContent w)) ->
            exists chunk, f = Data chunk
                          /\ map Chunk.finish_reason (Chunk.choices chunk) = [None].
Proof.
  revert isFirstEvent completionContent w.
  induction evs as [|ev rest IH]; intros isFirstEvent completionContent w Hno f;
    [intros []|].
  rewrite forEachEvent_cons.
  assert (Hev : (event ev =? "done") = false)
    by (apply String.eqb_neq, Hno; now left).
  assert (Hrest : forall ev', In ev' rest -> event ev' <> "done")
    by (intros ev' Hin; apply Hno; now right).
  rewrite Hev.
  destruct isFirstEvent, (isOutput ev);
    match goal with
    | |- context [forEach rest false ?c ?w'] =>
        pose proof (IH false c w' Hrest f) as Hl; destruct (forEach rest false c w')
    end; rewrite ?chunkObject_fields; cbn [fst snd app In] in *; intros Hin;
    repeat match type of Hin with
           | _ \/ _ => destruct Hin as [Hin|Hin]
           end;
    try (now apply Hl); subst f; eexists; split; reflexivity.
Qed.

End Encoding.

Section Clock.
Import Js Utils Controllers.
Variables (env : Env) (chatCompletionId modelName : string) (totalPromptTokens : nat).

Local Abbreviation forEach :=
  (forEachEvent env chatCompletionId modelName totalPromptTokens).

Lemma readings_app i a b :
  readings env i (a + b) = (readings env i a ++ readings env (a + i) b)%list.
Proof.
  unfold readings. rewrite seq_app, map_app. now rewrite (Nat.add_comm i a).
Qed.

(** The loop reads the clock once for each chunk, in the order of the
    chunks. *)
Lemma forEachEvent_readings evs isFirstEvent completionContent w :
  let r := forEach evs isFirstEvent completionContent w in
  let n := length (chunksOf (fst r)) in
  map Chunk.created (chunksOf (fst r)) = readings env (ticks w) n
  /\ ticks (snd r) = n + ticks w.
Proof.
  revert isFirstEvent completionContent w.
  induction evs as [|ev rest IH]; intros isFirstEvent completionContent w;
    [split; reflexivity|].
  cbv zeta. rewrite forEachEvent_cons.
  destruct isFirstEvent, (isOutput ev), (event ev =? "done");
    match goal with
    | |- context [forEach rest false ?c ?w'] =>
        destruct (IH false c w') as [Hc Ht]; cbv zeta in Hc, Ht;
        destruct (forEach rest false c w') as [later w3]
    end; rewrite ?chunkObject_fields;
    cbn [fst snd app chunksOf map length Chunk.created tick ticks] in *;
    rewrite ?Hc, Ht; (split; [|lia]);
    match goal with
    | |- _ = readings env ?i (S (S ?n)) =>
        change (S (S n)) with (2 + n); rewrite (readings_app i 2 n); reflexivity
    | |- _ = readings env ?i (S ?n) =>
        change (S n) with (1 + n); rewrite (readings_app i 1 n); reflexivity
    | |- _ => reflexivity
    end.
Qed.

End Clock.

Section Calls.
Import Js Utils Controllers.
Variables (env : Env) (chatCompletionId modelName : string) (totalPromptTokens : nat).

Local Abbreviation forEach :=
  (forEachEvent env chatCompletionId modelName totalPromptTokens).

Lemma keyOf_present o : keyOf o = present o.
Proof. now destruct o as [[|a s]|]. Qed.

Lemma In_chunksOf fs c : In c (chunksOf fs) <-> In (Data c) fs.
Proof.
  induction fs as [|[chunk|] fs IH]; cbn [chunksOf In].
  - tauto.
  - rewrite IH. split; intros [H|H]; auto; left; congruence.
  - rewrite IH. split; [auto|intros [H|H]; [discriminate|exact H]].
Qed.

Lemma eventCalls_cases ev :
  eventCalls ev
  = if isOutput ev then [(Some (dataText ev), None)]
    else if event ev =? "done" then [(None, None)] else [].
Proof.
  unfold eventCalls, isOutput, dataText.
  destruct (data ev), (event ev =? "output"), (event ev =? "done"); reflexivity.
Qed.

(** The deltas on the stream are those of the calls, one for one. *)
Lemma forEachEvent_deltas evs isFirstEvent completionContent w :
  map (fun c => map Chunk.delta (Chunk.choices c))
      (chunksOf (fst (forEach evs isFirstEvent completionContent w)))
  = map deltaOf (if isFirstEvent then chunkCalls evs else flat_map eventCalls evs).
Proof.
  revert isFirstEvent completionContent w.
  induction evs as [|ev rest IH]; intros isFirstEvent completionContent w;
    [now destruct isFirstEvent|].
  rewrite forEachEvent_cons.
  cbn [chunkCalls flat_map]. rewrite eventCalls_cases.
  destruct isFirstEvent, (isOutput ev), (event ev =? "done");
    match goal with
    | |- context [forEach rest false ?c ?w'] =>
        specialize (IH false c w'); destruct (forEach rest false c w')
    end; rewrite ?chunkObject_fields;
    cbn [fst snd app chunksOf map Chunk.choices Chunk.delta deltaOf] in *;
    rewrite ?keyOf_present, ?IH; reflexivity.
Qed.

End Calls.

Section Streaming.
Import Js Utils Controllers.
Variables (cfg : Config) (env : Env).

(** The dispatcher does not read the clock. *)
Lemma streamLoop_ticks this input k :
  forall retries client lastError out w,
    S (ApiService.maxRetries this) - retries <= k ->
    ticks (snd (ApiService.streamLoop cfg env this input retries client lastError out w))
    = ticks w.
Proof.
  induction k as [|k IH]; intros retries client lastError out w Hk;
    rewrite streamLoop_unfold.
  - replace (retries <=? ApiService.maxRetries this)%nat with false
      by (symmetry; apply Nat.leb_gt; lia).
    reflexivity.
  - destruct (retries <=? ApiService.maxRetries this)%nat; [|reflexivity].
    unfold clientStream.
    destruct (failure _); [|reflexivity].
    destruct (retries <? ApiService.maxRetries this)%nat eqn:Hlt; [|reflexivity].
    apply Nat.ltb_lt in Hlt. rewrite IH by lia. reflexivity.
Qed.

Lemma streamModelResponse_ticks this input w :
  ticks (snd (ApiService.streamModelResponse cfg env this input w)) = ticks w.
Proof.
  unfold ApiService.streamModelResponse, ApiService.getReplicateClient.
  cbn [getNextReplicateClient].
  now rewrite (streamLoop_ticks this input (S (ApiService.maxRetries this))) by lia.
Qed.

(** [streamFrames] in terms of the generator and the loop over its
    events. *)
Lemma streamFrames_eq chatCompletionId modelName input w :
  let total := tokenCount env (prompt input)
               + (if truthy (system_prompt input)
                  then tokenCount env (system_prompt input) else 0) in
  let s := ApiService.streamModelResponse cfg env (ApiService.defaultApiService cfg)
                                          input w in
  let r := forEachEvent env chatCompletionId modelName total
                        (ApiService.yielded (fst s)) true "" (snd s) in
  streamFrames cfg env chatCompletionId modelName input w
  = ((fst r, match ApiService.thrown (fst s) with
             | None => Closed
             | Some error => Errored error
             end), snd r).
Proof.
  cbv zeta. unfold streamFrames.
  destruct (ApiService.streamModelResponse _ _ _ _ _) as [s w1].
  cbn [fst snd]. destruct (forEachEvent _ _ _ _ _ _ _ _) as [frames w2].
  destruct (ApiService.thrown s); reflexivity.
Qed.


End Streaming.



(** C4, as the code has it. All chunks of a streaming response carry the
    [id] and the [model] fixed at its start. The [created] of a chunk is the
    reading of the clock, in whole seconds, taken when that chunk is built:
    the chunks carry the successive readings, from the first one of the
    response on, one each. And the deltas are, one for one, those of the
    calls that the loop makes on the events yielded: the delta of a chunk
    holds exactly those of the keys [role] and [content] whose value in the
    call is neither [null] nor the empty string, with that value. *)
Theorem C4_chunk_fields :
  forall (cfg : Config) (env : Env) (id modelName : string) (input : ModelInput)
         (w : World),
    let evs := ApiService.yielded
                 (fst (ApiService.streamModelResponse
                         cfg env (ApiService.defaultApiService cfg) input w)) in
    let chunks :=
      chunksOf (fst (fst (Controllers.streamFrames cfg env id modelName input w))) in
    (forall c, In c chunks -> Chunk.id c = id /\ Chunk.model c = modelName)
    /\ map Chunk.created chunks
       = map (fun k => (dateNow env k / 1000)%Z) (seq (ticks w) (length chunks))
    /\ map (fun c => map Chunk.delta (Chunk.choices c)) chunks
       = map (fun call => [{| Chunk.role := present (snd call);
                              Chunk.content := present (fst call) |}])
             (chunkCalls evs).
Proof.
  intros cfg env id modelName input w. cbv zeta.
  rewrite streamFrames_eq. cbn [fst].
  pose proof (streamModelResponse_ticks cfg env (ApiService.defaultApiService cfg)
                                        input w) as Hw.
  split; [|split].
  - intros c Hin. apply In_chunksOf, forEachEvent_chunk in Hin
      as (content & role & finish_reason & usage & wk & _ & _ & ->).
    rewrite chunkObject_fields. split; reflexivity.
  - match goal with
    | |- context [Controllers.forEachEvent env id modelName ?t ?evs true "" ?w1] =>
        destruct (forEachEvent_readings env id modelName t evs true "" w1) as [Hc _]
    end.
    cbv zeta in Hc. rewrite Hw in Hc. exact Hc.
  - apply forEachEvent_deltas.
Qed.

Lemma C4_chunk_fields_witness :
  let chunks :=
    chunksOf (fst (fst (Controllers.streamFrames
                          Sample.cfg Sample.slow "chatcmpl-0000" "proxy-model"
                          Sample.input Sample.w0))) in
  map Chunk.id chunks = ["chatcmpl-0000"; "chatcmpl-0000"; "chatcmpl-0000"]
  /\ map Chunk.created chunks = [1700000000; 1700000000; 1700000001]%Z
  /\ map (fun c => map Chunk.delta (Chunk.choices c)) chunks
     = [[{| Chunk.role := Some "assistant"; Chunk.content := None |}];
        [{| Chunk.role := None; Chunk.content := None |}];
        [{| Chunk.role := None; Chunk.content := None |}]].
Proof.
  intros chunks.
  destruct (C4_chunk_fields Sample.cfg Sample.slow "chatcmpl-0000" "proxy-model"
                            Sample.input Sample.w0) as (_ & Hc & Hd).
  split; [reflexivity|]. split.
  - etransitivity; [exact Hc|]. reflexivity.
  - etransitivity; [exact Hd|]. reflexivity.
Defined.

(** C4, as the claim has it, fails: with a clock that moves 600 ms between
    two chunks, two chunks of one response differ in [created]; and the
    chunk built for the output [""] has a content that is not [null] and a
    delta without the key [content]. *)
Lemma C4_counterexample_created_moves_and_empty_content :
  let frames := fst (fst (Controllers.streamFrames
                            Sample.cfg Sample.slow "chatcmpl-0000" "proxy-model"
                            Sample.input Sample.w0)) in
  (exists c c', In (Controllers.Data c) frames /\ In (Controllers.Data c') frames
                /\ Chunk.created c <> Chunk.created c')
  /\ (exists c wk,
         In (Controllers.Data c) frames
         /\ c = fst (Utils.chunkObject Sample.slow "chatcmpl-0000" "proxy-model"
                                       (Some "") None None None wk)
         /\ map Chunk.delta (Chunk.choices c)
            = [{| Chunk.role := None; Chunk.content := None |}]).
Proof.
  split.
  - exists (chunkWith "chatcmpl-0000" "proxy-model" 1700000000
                      (Some "assistant") None None None),
           (chunkWith "chatcmpl-0000" "proxy-model" 1700000001
                      None None (Some "stop")
                      (Some {| Chunk.prompt_tokens := 313;
                               Chunk.completion_tokens := 0;
                               Chunk.total_tokens := 313 |})).
    split; [vm_compute; left; reflexivity|].
    split; [vm_compute; right; right; left; reflexivity|].
    discriminate.
  - exists (chunkWith "chatcmpl-0000" "proxy-model" 1700000000 None None None None),
           (tick Sample.w0).
    split; [vm_compute; right; left; reflexivity|].
    split; reflexivity.
Qed.

(** C5, as the code has it. The stream ends in the error state exactly when
    the dispatcher throws, with the error it throws, and closes cleanly when
    the upstream events end, with or without a [done] event; without one,
    the stream holds no end marker and no chunk with a finish reason. An
    event whose type is neither [output] nor [done] adds nothing to the
    stream and leaves the collected content as it is; as the first event
    it still brings the role chunk. *)
Theorem C5_stream_end_and_ignored_events :
  forall (cfg : Config) (env : Env) (id modelName : string) (input : ModelInput)
         (w : World),
    let s := fst (ApiService.streamModelResponse
                    cfg env (ApiService.defaultApiService cfg) input w) in
    let frames := fst (fst (Controllers.streamFrames cfg env id modelName input w)) in
    let final := snd (fst (Controllers.streamFrames cfg env id modelName input w)) in
    (forall e, ApiService.thrown s = Some e -> final = Errored e)
    /\ (ApiService.thrown s = None -> final = Closed)
    /\ ((forall ev, In ev (ApiService.yielded s) -> event ev <> "done") ->
        forall f, In f frames ->
                  exists chunk, f = Controllers.Data chunk
                                /\ map Chunk.finish_reason (Chunk.choices chunk) = [None])
    /\ (forall total ev rest collected wk,
           event ev <> "output" -> event ev <> "done" ->
           Controllers.forEachEvent env id modelName total (ev :: rest) false collected wk
           = Controllers.forEachEvent env id modelName total rest false collected wk
           /\ Controllers.forEachEvent env id modelName total (ev :: rest) true collected wk
              = (Controllers.Data
                   (fst (Utils.chunkObject env id modelName None (Some "assistant")
                                           None None wk))
                 :: fst (Controllers.forEachEvent env id modelName total rest false
                                                  collected (tick wk)),
                 snd (Controllers.forEachEvent env id modelName total rest false
                                               collected (tick wk)))).
Proof.
  intros cfg env id modelName input w s frames final.
  subst frames final. rewrite streamFrames_eq. cbn [fst snd]. fold s.
  split; [|split; [|split]].
  - intros e He. now rewrite He.
  - intros He. now rewrite He.
  - intros Hno f. now apply forEachEvent_no_done.
  - intros total ev rest collected wk Ho Hd.
    rewrite !forEachEvent_cons.
    assert (Eo : Controllers.isOutput ev = false).
    { unfold Controllers.isOutput. apply String.eqb_neq in Ho. now rewrite Ho. }
    apply String.eqb_neq in Hd. rewrite Eo, Hd.
    split; destruct (Controllers.forEachEvent _ _ _ _ _ _ _ _); reflexivity.
Qed.

Lemma C5_stream_end_and_ignored_events_witness :
  snd (fst (Controllers.streamFrames Sample.cfg Sample.failing "chatcmpl-0000"
                                     "proxy-model" Sample.input Sample.w0))
  = Errored {| message := "upstream down" |}
  /\ Controllers.forEachEvent Sample.failing "chatcmpl-0000" "proxy-model" 7
       [{| event := "logs"; data := DString "warming up" |}] false "" Sample.w0
     = ([], Sample.w0).
Proof.
  destruct (C5_stream_end_and_ignored_events
              Sample.cfg Sample.failing "chatcmpl-0000" "proxy-model"
              Sample.input Sample.w0) as (He & _ & _ & Hi).
  split.
  - apply He. reflexivity.
  - destruct (Hi 7 {| event := "logs"; data := DString "warming up" |} [] ""
                 Sample.w0) as [H _]; [discriminate|discriminate|].
    rewrite H. reflexivity.
Defined.

(** C5, as the claim has it, fails: the upstream events end after one
    output, no [done] event came, and the stream is closed, not in the
    error state. *)
Lemma C5_counterexample_end_without_done_closes :
  let s := fst (ApiService.streamModelResponse
                  Sample.cfg Sample.truncated (ApiService.defaultApiService Sample.cfg)
                  Sample.input Sample.w0) in
  (forall ev, In ev (ApiService.yielded s) -> event ev <> "done")
  /\ snd (fst (Controllers.streamFrames Sample.cfg Sample.truncated "chatcmpl-0000"
                                        "proxy-model" Sample.input Sample.w0))
     = Closed.
Proof.
  split.
  - vm_compute. intros ev [<-|[]]. discriminate.
  - vm_compute. reflexivity.
Qed.

(** * Further properties *)

(** ** The dispatcher under any upstream behaviour *)

Section Budget.
Variables (cfg : Config) (env : Env) (this : ApiService.ApiService) (input : ModelInput).

(** Whatever the upstream service answers, the batch loop with [k] retries
    left calls once with the current client and with at most [k] more
    clients of the rotator, one per retry, and throws only when it has used
    them all. *)
Lemma runLoop_budget :
  forall k retries client lastError w,
    retries + k = ApiService.maxRetries this ->
    exists n,
      n <= k
      /\ snd (ApiService.runLoop cfg env this input retries client lastError w)
         = afterAttempts cfg false n (client :: rotation cfg n (currentKeyIndex w)) w
      /\ (forall e, fst (ApiService.runLoop cfg env this input retries client lastError w) = inr e ->
                    n = k).
Proof.
  intros k.
  induction k as [|k IH]; intros retries client lastError w Hk;
    rewrite runLoop_unfold; unfold clientRun;
    replace (retries <=? ApiService.maxRetries this)%nat with true
      by (symmetry; apply Nat.leb_le; lia);
    destruct (run_ env (length (trace w)) client (ApiService.modelId this) input) as [p|t].
  - exists 0. split; [lia|]. split; [reflexivity|]. intros e H; first [discriminate H|lia].
  - exists 0. replace (retries <? ApiService.maxRetries this)%nat with false
      by (symmetry; apply Nat.ltb_ge; lia).
    split; [lia|]. split; [reflexivity|]. intros e H; first [discriminate H|lia].
  - exists 0. split; [lia|]. split; [reflexivity|]. intros e H; first [discriminate H|lia].
  - replace (retries <? ApiService.maxRetries this)%nat with true
      by (symmetry; apply Nat.ltb_lt; lia).
    set (w1 := recordCall _ w).
    destruct (IH (S retries) (fst (ApiService.getReplicateClient cfg w1)) (Some (toError t))
                 (snd (ApiService.getReplicateClient cfg w1))) as (n & Hn & Hw & He); [lia|].
    exists (S n). split; [lia|]. split.
    + rewrite Hw. subst w1. unfold afterAttempts.
      cbn [ApiService.getReplicateClient getNextReplicateClient recordCall fst snd
           currentKeyIndex trace ticks draws rotation map].
      rewrite <- app_assoc, Nat.iter_succ_r. reflexivity.
    + intros e H. f_equal. now apply (He e).
Qed.

(** The same for the streaming loop. *)
Lemma streamLoop_budget :
  forall k retries client lastError out w,
    retries + k = ApiService.maxRetries this ->
    exists n,
      n <= k
      /\ snd (ApiService.streamLoop cfg env this input retries client lastError out w)
         = afterAttempts cfg true n (client :: rotation cfg n (currentKeyIndex w)) w
      /\ (forall e, ApiService.thrown (fst (ApiService.streamLoop cfg env this input retries client
                                            lastError out w)) = Some e ->
                    n = k).
Proof.
  intros k.
  induction k as [|k IH]; intros retries client lastError out w Hk;
    rewrite streamLoop_unfold; unfold clientStream;
    replace (retries <=? ApiService.maxRetries this)%nat with true
      by (symmetry; apply Nat.leb_le; lia);
    destruct (failure (stream_ env (length (trace w)) client (ApiService.modelId this) input))
      as [t|].
  - exists 0. replace (retries <? ApiService.maxRetries this)%nat with false
      by (symmetry; apply Nat.ltb_ge; lia).
    split; [lia|]. split; [reflexivity|]. intros e H; first [discriminate H|lia].
  - exists 0. split; [lia|]. split; [reflexivity|]. intros e H; first [discriminate H|lia].
  - replace (retries <? ApiService.maxRetries this)%nat with true
      by (symmetry; apply Nat.ltb_lt; lia).
    set (w1 := recordCall _ w).
    destruct (IH (S retries) (fst (ApiService.getReplicateClient cfg w1)) (Some (toError t))
                 (out ++ events (stream_ env (length (trace w)) client
                                         (ApiService.modelId this) input))%list
                 (snd (ApiService.getReplicateClient cfg w1))) as (n & Hn & Hw & He); [lia|].
    exists (S n). split; [lia|]. split.
    + rewrite Hw. subst w1. unfold afterAttempts.
      cbn [ApiService.getReplicateClient getNextReplicateClient recordCall fst snd
           currentKeyIndex trace ticks draws rotation map].
      rewrite <- app_assoc, Nat.iter_succ_r. reflexivity.
    + intros e H. f_equal. now apply (He e).
  - exists 0. split; [lia|]. split; [reflexivity|]. intros e H; first [discriminate H|lia].
Qed.

(** When the calls with the current client and the next [k - 1] clients
    fail and the call with the [k]-th next client succeeds, within the
    budget, the batch loop returns the text of that prediction. *)
Lemma runLoop_recovers :
  forall k retries client lastError w prediction,
    retries + k <= ApiService.maxRetries this ->
    let clients := client :: rotation cfg k (currentKeyIndex w) in
    (forall j, j < k ->
               exists t, run_ env (length (trace w) + j) (nth j clients noClient)
                              (ApiService.modelId this) input = Throws t) ->
    run_ env (length (trace w) + k) (last clients noClient) (ApiService.modelId this) input
    = Returns prediction ->
    ApiService.runLoop cfg env this input retries client lastError w
    = (inl (ApiService.predictionText prediction), afterAttempts cfg false k clients w).
Proof.
  intros k.
  induction k as [|k IH]; intros retries client lastError w prediction Hk clients
                                 Hfail Hok;
    rewrite runLoop_unfold; unfold clientRun;
    replace (retries <=? ApiService.maxRetries this)%nat with true
      by (symmetry; apply Nat.leb_le; lia).
  - subst clients. cbn [rotation last] in Hok. rewrite Nat.add_0_r in Hok.
    rewrite Hok. reflexivity.
  - destruct (Hfail 0 (Nat.lt_0_succ _)) as [t0 Ht0].
    cbn [clients nth] in Ht0. rewrite Nat.add_0_r in Ht0. rewrite Ht0.
    replace (retries <? ApiService.maxRetries this)%nat with true
      by (symmetry; apply Nat.ltb_lt; lia).
    set (w1 := recordCall _ w).
    rewrite (IH (S retries) (fst (ApiService.getReplicateClient cfg w1)) (Some (toError t0))
                (snd (ApiService.getReplicateClient cfg w1)) prediction).
    + subst clients w1. unfold afterAttempts.
      cbn [ApiService.getReplicateClient getNextReplicateClient recordCall fst snd
           currentKeyIndex trace ticks draws rotation map].
      rewrite <- app_assoc, Nat.iter_succ_r. reflexivity.
    + lia.
    + intros j Hj. destruct (Hfail (S j)) as [t Ht]; [lia|].
      exists t. subst clients w1. cbn [ApiService.getReplicateClient getNextReplicateClient
        recordCall fst snd currentKeyIndex trace rotation nth] in *.
      rewrite length_app, <- Nat.add_assoc. exact Ht.
    + subst clients w1. cbn [ApiService.getReplicateClient getNextReplicateClient
        recordCall fst snd currentKeyIndex trace rotation last] in *.
      rewrite length_app, <- Nat.add_assoc. exact Hok.
Qed.

(** The same for the streaming loop: the events of the failed calls stay
    in what was ApiService.yielded, before the events of the call that succeeds. *)
Lemma streamLoop_recovers :
  forall k retries client lastError out w,
    retries + k <= ApiService.maxRetries this ->
    let clients := client :: rotation cfg k (currentKeyIndex w) in
    let runs := streamRuns env (ApiService.modelId this) input (length (trace w)) clients in
    (forall j, j < k ->
               failure (stream_ env (length (trace w) + j) (nth j clients noClient)
                                (ApiService.modelId this) input) <> None) ->
    failure (stream_ env (length (trace w) + k) (last clients noClient)
                     (ApiService.modelId this) input) = None ->
    ApiService.streamLoop cfg env this input retries client lastError out w
    = ({| ApiService.yielded := out ++ flat_map events runs; ApiService.thrown := None |},
       afterAttempts cfg true k clients w).
Proof.
  intros k.
  induction k as [|k IH]; intros retries client lastError out w Hk clients runs
                                 Hfail Hok;
    rewrite streamLoop_unfold; unfold clientStream;
    replace (retries <=? ApiService.maxRetries this)%nat with true
      by (symmetry; apply Nat.leb_le; lia).
  - subst runs clients. cbn [rotation last] in Hok. rewrite Nat.add_0_r in Hok.
    rewrite Hok. cbn [rotation streamRuns flat_map]. rewrite app_nil_r. reflexivity.
  - pose proof (Hfail 0 (Nat.lt_0_succ _)) as H0.
    cbn [clients nth] in H0. rewrite Nat.add_0_r in H0.
    destruct (failure (stream_ env (length (trace w)) client (ApiService.modelId this) input))
      as [t0|] eqn:Ht0; [clear H0|now destruct H0].
    replace (retries <? ApiService.maxRetries this)%nat with true
      by (symmetry; apply Nat.ltb_lt; lia).
    set (w1 := recordCall _ w).
    rewrite (IH (S retries) (fst (ApiService.getReplicateClient cfg w1)) (Some (toError t0))
                (out ++ events (stream_ env (length (trace w)) client
                                        (ApiService.modelId this) input))%list
                (snd (ApiService.getReplicateClient cfg w1))).
    + subst runs clients w1. unfold afterAttempts.
      cbn [ApiService.getReplicateClient getNextReplicateClient recordCall fst snd
           currentKeyIndex trace ticks draws rotation map streamRuns flat_map].
      rewrite length_app. cbn [length]. rewrite Nat.add_1_r.
      rewrite <- !app_assoc, Nat.iter_succ_r. reflexivity.
    + lia.
    + intros j Hj. pose proof (Hfail (S j) (proj1 (Nat.succ_lt_mono j k) Hj)) as H.
      subst clients w1. cbn [ApiService.getReplicateClient getNextReplicateClient
        recordCall fst snd currentKeyIndex trace rotation nth] in *.
      rewrite length_app, <- Nat.add_assoc. exact H.
    + subst clients w1. cbn [ApiService.getReplicateClient getNextReplicateClient
        recordCall fst snd currentKeyIndex trace rotation last] in *.
      rewrite length_app, <- Nat.add_assoc. exact Hok.
Qed.

End Budget.

(** X1. Whatever the upstream service answers, a dispatch makes at least one
    and at most [min(poolSize, 3) + 1] upstream calls, takes exactly one
    client from the rotator per call, in rotation order, touches nothing
    else of the state, and throws only after the last call of the budget. *)
Theorem X1_dispatch_stays_within_budget :
  forall (cfg : Config) (env : Env) (modelId : string) (input : ModelInput) (w : World),
    let this := ApiService.constructor cfg modelId in
    let R := Nat.min (length (REPLICATE_API_KEYS cfg)) 3 in
    (exists n,
        1 <= n <= R + 1
        /\ snd (ApiService.getModelResponse cfg env this input w)
           = afterAttempts cfg false n (rotation cfg n (currentKeyIndex w)) w
        /\ (forall e, fst (ApiService.getModelResponse cfg env this input w) = inr e ->
                      n = R + 1))
    /\ (exists n,
           1 <= n <= R + 1
           /\ snd (ApiService.streamModelResponse cfg env this input w)
              = afterAttempts cfg true n (rotation cfg n (currentKeyIndex w)) w
           /\ (forall e, ApiService.thrown
                           (fst (ApiService.streamModelResponse cfg env this input w))
                         = Some e ->
                         n = R + 1)).
Proof.
  intros cfg env modelId input w this R.
  set (w0 := snd (getNextReplicateClient cfg w)).
  assert (Hw : forall s n,
             afterAttempts cfg s n
               (clientAt cfg (currentKeyIndex w) :: rotation cfg n (currentKeyIndex w0)) w0
             = afterAttempts cfg s (S n) (rotation cfg (S n) (currentKeyIndex w)) w).
  { intros s n. unfold afterAttempts, w0.
    cbn [getNextReplicateClient snd currentKeyIndex trace ticks draws rotation].
    rewrite Nat.iter_succ_r. reflexivity. }
  split.
  - destruct (runLoop_budget cfg env this input R 0
                (clientAt cfg (currentKeyIndex w)) None w0 eq_refl)
      as (n & Hn & Hs & He).
    exists (S n). split; [lia|].
    unfold ApiService.getModelResponse, ApiService.getReplicateClient.
    cbn [getNextReplicateClient]. fold w0. split.
    + rewrite <- Hw. exact Hs.
    + intros e H. specialize (He e H). lia.
  - destruct (streamLoop_budget cfg env this input R 0
                (clientAt cfg (currentKeyIndex w)) None [] w0 eq_refl)
      as (n & Hn & Hs & He).
    exists (S n). split; [lia|].
    unfold ApiService.streamModelResponse, ApiService.getReplicateClient.
    cbn [getNextReplicateClient]. fold w0. split.
    + rewrite <- Hw. exact Hs.
    + intros e H. specialize (He e H). lia.
Qed.

Lemma X1_dispatch_stays_within_budget_witness :
  length (trace (snd (ApiService.getModelResponse
                        Sample.cfg Scenario.flaky
                        (ApiService.constructor Sample.cfg "owner/model")
                        Sample.input Sample.w0))) <= 3
  /\ length (trace (snd (ApiService.streamModelResponse
                           Sample.cfg Sample.failing
                           (ApiService.constructor Sample.cfg "owner/model")
                           Sample.input Sample.w0))) = 3.
Proof.
  split.
  - destruct (X1_dispatch_stays_within_budget
                Sample.cfg Scenario.flaky "owner/model" Sample.input Sample.w0)
      as [(n & Hn & Hs & _) _].
    rewrite Hs. unfold afterAttempts. cbn [trace Sample.w0 app].
    rewrite length_map, rotation_length. cbn in Hn. lia.
  - destruct (X1_dispatch_stays_within_budget
                Sample.cfg Sample.failing "owner/model" Sample.input Sample.w0)
      as [_ (n & Hn & Hs & He)].
    rewrite Hs. unfold afterAttempts. cbn [trace Sample.w0 app].
    rewrite length_map, rotation_length.
    apply (He {| message := "upstream down" |}). reflexivity.
Defined.

(** X2. When the first [k] attempts of [getModelResponse] fail, [k] within
    the retry budget, and the next one resolves, the result is the text of
    that prediction (an array joined without separator, a scalar as its
    string), after exactly [k + 1] calls. *)
Theorem X2_batch_returns_first_success :
  forall (cfg : Config) (env : Env) (modelId : string) (input : ModelInput) (w : World)
         (k : nat) (prediction : Prediction),
    let this := ApiService.constructor cfg modelId in
    let clients := rotation cfg (k + 1) (currentKeyIndex w) in
    k <= Nat.min (length (REPLICATE_API_KEYS cfg)) 3 ->
    (forall j, j < k ->
               exists t, run_ env (length (trace w) + j) (nth j clients noClient)
                              modelId input = Throws t) ->
    run_ env (length (trace w) + k) (last clients noClient) modelId input
    = Returns prediction ->
    ApiService.getModelResponse cfg env this input w
    = (inl (ApiService.predictionText prediction),
       afterAttempts cfg false (k + 1) clients w).
Proof.
  intros cfg env modelId input w k prediction this clients Hk Hfail Hok.
  assert (Hc : clients
               = clientAt cfg (currentKeyIndex w)
                 :: rotation cfg k (advance cfg (currentKeyIndex w))).
  { subst clients. rewrite Nat.add_1_r. reflexivity. }
  set (w0 := snd (getNextReplicateClient cfg w)).
  unfold ApiService.getModelResponse, ApiService.getReplicateClient.
  cbn [getNextReplicateClient]. fold w0.
  rewrite (runLoop_recovers cfg env this input k 0 _ None w0 prediction).
  - unfold afterAttempts, w0.
    cbn [getNextReplicateClient snd currentKeyIndex trace ticks draws].
    rewrite <- Hc, Nat.add_1_r, Nat.iter_succ_r. reflexivity.
  - exact Hk.
  - cbn [w0 getNextReplicateClient snd currentKeyIndex trace]. rewrite <- Hc.
    exact Hfail.
  - cbn [w0 getNextReplicateClient snd currentKeyIndex trace]. rewrite <- Hc.
    exact Hok.
Qed.

Lemma X2_batch_returns_first_success_witness :
  fst (ApiService.getModelResponse Sample.cfg Scenario.flaky
         (ApiService.constructor Sample.cfg "owner/model") Sample.input Sample.w0)
  = inl "Hi there".
Proof.
  rewrite (X2_batch_returns_first_success
             Sample.cfg Scenario.flaky "owner/model" Sample.input Sample.w0
             1 (PArray ["Hi"; " there"])).
  - reflexivity.
  - cbn. lia.
  - intros j Hj. exists Sample.down.
    replace j with 0 by lia. reflexivity.
  - reflexivity.
Defined.

(** X3. When the first [k] attempts of [streamModelResponse] fail, [k]
    within the retry budget, and the next one runs to its end, the
    generator returns without error, and what it yielded is every event of
    the failed attempts followed by the events of the one that succeeded:
    nothing already yielded is taken back. *)
Theorem X3_stream_restarts_after_failure :
  forall (cfg : Config) (env : Env) (modelId : string) (input : ModelInput) (w : World)
         (k : nat),
    let this := ApiService.constructor cfg modelId in
    let clients := rotation cfg (k + 1) (currentKeyIndex w) in
    let runs := streamRuns env modelId input (length (trace w)) clients in
    k <= Nat.min (length (REPLICATE_API_KEYS cfg)) 3 ->
    (forall j, j < k ->
               failure (stream_ env (length (trace w) + j) (nth j clients noClient)
                                modelId input) <> None) ->
    failure (stream_ env (length (trace w) + k) (last clients noClient) modelId input)
    = None ->
    ApiService.streamModelResponse cfg env this input w
    = ({| ApiService.yielded := flat_map events runs; ApiService.thrown := None |},
       afterAttempts cfg true (k + 1) clients w).
Proof.
  intros cfg env modelId input w k this clients runs Hk Hfail Hok.
  assert (Hc : clients
               = clientAt cfg (currentKeyIndex w)
                 :: rotation cfg k (advance cfg (currentKeyIndex w))).
  { subst clients. rewrite Nat.add_1_r. reflexivity. }
  set (w0 := snd (getNextReplicateClient cfg w)).
  unfold ApiService.streamModelResponse, ApiService.getReplicateClient.
  cbn [getNextReplicateClient]. fold w0.
  rewrite (streamLoop_recovers cfg env this input k 0 _ None [] w0).
  - unfold afterAttempts, w0.
    cbn [getNextReplicateClient snd currentKeyIndex trace ticks draws app].
    rewrite <- Hc, Nat.add_1_r, Nat.iter_succ_r. reflexivity.
  - exact Hk.
  - cbn [w0 getNextReplicateClient snd currentKeyIndex trace]. rewrite <- Hc.
    exact Hfail.
  - cbn [w0 getNextReplicateClient snd currentKeyIndex trace]. rewrite <- Hc.
    exact Hok.
Qed.

Lemma X3_stream_restarts_after_failure_witness :
  fst (ApiService.streamModelResponse Sample.cfg Scenario.flaky
         (ApiService.constructor Sample.cfg "owner/model") Sample.input Sample.w0)
  = {| ApiService.yielded := Sample.output "Hi" :: Sample.hiThere;
       ApiService.thrown := None |}.
Proof.
  rewrite (X3_stream_restarts_after_failure
             Sample.cfg Scenario.flaky "owner/model" Sample.input Sample.w0 1).
  - reflexivity.
  - cbn. lia.
  - intros j Hj. replace j with 0 by lia. discriminate.
  - reflexivity.
Defined.

(** ** What normalisation keeps and drops *)

Section Stripping.
Import Js MessageProcessor Controllers.

Lemma pushedUrl_not_text item u : pushedUrl item = Some u -> isText item = false.
Proof.
  unfold pushedUrl, isText.
  destruct (String.eqb_spec (type item) "image_url") as [->|]; [|discriminate].
  reflexivity.
Qed.

Lemma text_not_pushed item : isText item = true -> pushedUrl item = None.
Proof.
  intros H. destruct (pushedUrl item) as [u|] eqn:E; [|reflexivity].
  apply pushedUrl_not_text in E. congruence.
Qed.

(** The inner loop keeps the text items, in order, and nothing else. *)
Lemma scanItems_text items textOnly urls :
  fst (scanItems items textOnly urls) = (textOnly ++ filter isText items)%list.
Proof.
  revert textOnly urls.
  induction items as [|item items IH]; intros textOnly urls; simpl.
  - now rewrite app_nil_r.
  - destruct (pushedUrl item) as [u|] eqn:E.
    + rewrite (pushedUrl_not_text _ _ E). apply IH.
    + unfold isText. destruct (type item =? "text"); [|apply IH].
      rewrite IH, <- app_assoc. reflexivity.
Qed.

Lemma filter_filter {A} (f : A -> bool) (l : list A) :
  filter f (filter f l) = filter f l.
Proof.
  induction l as [|x l IH]; simpl; [reflexivity|].
  destruct (f x) eqn:E; simpl; [rewrite E|]; now rewrite IH.
Qed.

Lemma textParts_text items : textParts (filter isText items) = textParts items.
Proof. unfold textParts. fold isText. now rewrite filter_filter. Qed.

(** Stripping the images does not change what the loop serialises. *)
Lemma formatTurns_stripped l urls acc :
  formatTurns (fst (extractImageUrls l urls)) acc = formatTurns l acc.
Proof.
  revert urls acc. induction l as [|m l IH]; intros urls acc; [reflexivity|].
  cbn [extractImageUrls].
  destruct (content m) as [s|items|] eqn:Hc.
  - specialize (IH urls). destruct (extractImageUrls l urls) as [l' u'].
    cbn [fst formatTurns] in *. rewrite Hc.
    destruct (truthy (role m)); [destruct (truthy s)|]; apply IH.
  - destruct (role m =? "user") eqn:Hr.
    + pose proof (scanItems_text items [] urls) as Ht.
      destruct (scanItems items [] urls) as [t us]. cbn [fst app] in Ht. subst t.
      specialize (IH us). destruct (extractImageUrls l us) as [l' u'].
      cbn [fst formatTurns role content] in *. rewrite Hc.
      destruct (truthy (role m)); [|apply IH].
      rewrite textParts_text. apply IH.
    + specialize (IH urls). destruct (extractImageUrls l urls) as [l' u'].
      cbn [fst formatTurns] in *. rewrite Hc.
      destruct (truthy (role m)); apply IH.
  - specialize (IH urls). destruct (extractImageUrls l urls) as [l' u'].
    cbn [fst formatTurns] in *. rewrite Hc.
    destruct (truthy (role m)); apply IH.
Qed.

Lemma formatMessagesToConversation_stripped l urls :
  formatMessagesToConversation (fst (extractImageUrls l urls))
  = formatMessagesToConversation l.
Proof.
  unfold formatMessagesToConversation.
  rewrite formatTurns_stripped, !lastRoleIsUser_roles.
  destruct (extractImageUrls_shape l urls) as (Hr & _).
  rewrite Hr. rewrite <- (length_map role (fst _)), Hr, length_map. reflexivity.
Qed.

Lemma remaining_prompt msgs :
  formatMessagesToConversation (remaining msgs)
  = formatMessagesToConversation (filter notSystem msgs).
Proof.
  unfold remaining.
  now rewrite formatMessagesToConversation_stripped, extractSystemPrompt_rest.
Qed.

Lemma spoken_iff m :
  spoken m = true
  <-> role m <> ""
      /\ ((exists items, content m = CArray items)
          \/ (exists s, content m = CString s /\ s <> "")).
Proof.
  unfold spoken. rewrite andb_true_iff, truthy_true. split.
  - intros [Hr Hc]. split; [exact Hr|].
    destruct (content m) as [s|items|]; [right|left|discriminate].
    + exists s. split; [reflexivity|now apply truthy_true].
    + now exists items.
  - intros [Hr [[items Hc]|[s [Hc Hs]]]]; rewrite Hc; split; auto.
    now apply truthy_true.
Qed.

(** A second pass of the inner loop over text items changes nothing. *)
Lemma scanItems_text_only items textOnly urls :
  scanItems (filter isText items) textOnly urls
  = ((textOnly ++ filter isText items)%list, urls).
Proof.
  revert textOnly. induction items as [|item items IH]; intros textOnly; simpl.
  - now rewrite app_nil_r.
  - destruct (isText item) eqn:E; [|apply IH].
    cbn [scanItems]. rewrite (text_not_pushed _ E).
    unfold isText in E. rewrite E, IH, <- app_assoc. reflexivity.
Qed.

Lemma itemUrls_in items item u :
  In item items -> imageItem item u -> In u (itemUrls items).
Proof.
  intros Hin Hi. apply pushedUrl_imageItem in Hi.
  unfold itemUrls. apply in_flat_map. exists item. split; [exact Hin|].
  rewrite Hi. now left.
Qed.

Lemma itemUrls_from items u :
  In u (itemUrls items) -> exists item, In item items /\ imageItem item u.
Proof.
  unfold itemUrls. intros H. apply in_flat_map in H as (item & Hin & Hu).
  exists item. split; [exact Hin|]. apply pushedUrl_imageItem.
  destruct (pushedUrl item) as [v|]; [|now destruct Hu].
  destruct Hu as [->|[]]. reflexivity.
Qed.

End Stripping.

(** X4. The prompt of an accepted conversation is the serialisation of the
    messages that are not system messages, in order: neither the system
    messages nor the removal of the image items changes a character of
    it. *)
Theorem X4_prompt_is_non_system_turns :
  forall (body : RequestBody) (msgs : list Message) (input : ModelInput),
    messages body = Some msgs ->
    Controllers.normalize body = Some input ->
    prompt input
    = MessageProcessor.formatMessagesToConversation (filter notSystem msgs).
Proof.
  intros body msgs input Hm Hn.
  assert (Hne : msgs <> []).
  { intros ->. unfold Controllers.normalize, MessageProcessor.processMessages in Hn.
    rewrite Hm in Hn. discriminate. }
  rewrite (normalize_array _ _ Hm Hne) in Hn.
  destruct (Js.truthy _); [|discriminate].
  injection Hn as <-. rewrite buildModelInput_prompt. apply remaining_prompt.
Qed.

Lemma X4_prompt_is_non_system_turns_witness :
  exists input,
    Controllers.normalize (Sample.bodyOf Sample.pictures) = Some input
    /\ prompt input
       = "user: What is this?" ++ Js.nl ++ "assistant: A cat." ++ Js.nl
         ++ "user: And these?" ++ Js.nl ++ directiveLine.
Proof.
  destruct (Controllers.normalize (Sample.bodyOf Sample.pictures)) as [input|] eqn:E;
    [|vm_compute in E; discriminate].
  exists input. split; [reflexivity|].
  rewrite (X4_prompt_is_non_system_turns (Sample.bodyOf Sample.pictures)
                                         Sample.pictures input eq_refl E).
  reflexivity.
Defined.

(** A message that says something: it is not a system message, has a
    non-empty role, and its content is an array or a non-empty string.
    A model input is built exactly when the body holds one. *)
Lemma normalize_accepts_iff :
  forall (body : RequestBody),
    Controllers.normalize body <> None
    <-> exists msgs m,
        messages body = Some msgs
        /\ In m msgs
        /\ saysSomething m.
Proof.
  intros body. split.
  - intros Hn.
    destruct (messages body) as [msgs|] eqn:Hm;
      [|destruct Hn; unfold Controllers.normalize, MessageProcessor.processMessages;
        now rewrite Hm].
    assert (Hne : msgs <> []).
    { intros ->. apply Hn.
      unfold Controllers.normalize, MessageProcessor.processMessages. now rewrite Hm. }
    rewrite (normalize_array _ _ Hm Hne) in Hn.
    rewrite remaining_prompt, formatMessagesToConversation_truthy in Hn.
    destruct (existsb spoken (filter notSystem msgs)) eqn:E.
    + apply existsb_exists in E as (m & Hin & Hs).
      apply filter_In in Hin as [Hin Hsys]. apply spoken_iff in Hs as [Hr Hc].
      exists msgs, m. unfold saysSomething. repeat split; auto.
      intros Hrole. unfold notSystem, MessageProcessor.isSystem in Hsys.
      rewrite Hrole in Hsys. discriminate.
    + rewrite (formatTurns_silent _ E) in Hn. now destruct Hn.
  - intros (msgs & m & Hm & Hin & Hsys & Hr & Hc).
    assert (Hne : msgs <> []) by (intros ->; destruct Hin).
    rewrite (normalize_array _ _ Hm Hne).
    rewrite remaining_prompt, formatMessagesToConversation_truthy, formatTurns_spoken;
      [discriminate|].
    apply existsb_exists. exists m. split.
    + apply filter_In. split; [exact Hin|].
      unfold notSystem, MessageProcessor.isSystem.
      apply String.eqb_neq in Hsys. now rewrite Hsys.
    + apply spoken_iff. auto.
Qed.

(** X6. Extraction leaves nothing to extract: on the messages that
    [extractSystemPrompt] leaves, a second call finds the empty prompt and
    removes nothing; on the messages that [extractImageUrls] leaves, a
    second call finds no URL and changes no message. *)
Theorem X6_second_extraction_finds_nothing :
  forall (msgs : list Message) (urls urls' : list string),
    MessageProcessor.extractSystemPrompt (snd (MessageProcessor.extractSystemPrompt msgs))
    = ("", snd (MessageProcessor.extractSystemPrompt msgs))
    /\ MessageProcessor.extractImageUrls
         (fst (MessageProcessor.extractImageUrls msgs urls)) urls'
       = (fst (MessageProcessor.extractImageUrls msgs urls), urls').
Proof.
  intros msgs urls urls'. split.
  - rewrite extractSystemPrompt_rest. unfold MessageProcessor.extractSystemPrompt.
    assert (H : filter MessageProcessor.isSystem (filter notSystem msgs) = []).
    { induction msgs as [|m msgs IH]; [reflexivity|]. simpl.
      unfold notSystem at 1. destruct (MessageProcessor.isSystem m) eqn:E; simpl;
        [exact IH|now rewrite E]. }
    rewrite H. reflexivity.
  - revert urls. induction msgs as [|m msgs IH]; intros urls; [reflexivity|].
    cbn [MessageProcessor.extractImageUrls].
    destruct (content m) as [s|items|] eqn:Hc.
    + specialize (IH urls).
      destruct (MessageProcessor.extractImageUrls msgs urls) as [l' u'].
      cbn [fst MessageProcessor.extractImageUrls] in *. now rewrite Hc, IH.
    + destruct (role m =? "user") eqn:Hr.
      * pose proof (scanItems_text items [] urls) as Ht.
        destruct (MessageProcessor.scanItems items [] urls) as [t us].
        cbn [fst app] in Ht. subst t. specialize (IH us).
        destruct (MessageProcessor.extractImageUrls msgs us) as [l' u'].
        cbn [fst MessageProcessor.extractImageUrls role content] in *.
        now rewrite Hr, scanItems_text_only, IH.
      * specialize (IH urls).
        destruct (MessageProcessor.extractImageUrls msgs urls) as [l' u'].
        cbn [fst MessageProcessor.extractImageUrls] in *. now rewrite Hc, Hr, IH.
    + specialize (IH urls).
      destruct (MessageProcessor.extractImageUrls msgs urls) as [l' u'].
      cbn [fst MessageProcessor.extractImageUrls] in *. now rewrite Hc, IH.
Qed.

(** X7. The model input never carries an image that the request did not:
    an image URL in the input is the non-empty URL of an image item in a
    user message of the request, and an input without image comes from a
    request in which no user message carries one. *)
Theorem X7_image_comes_from_the_request :
  forall (body : RequestBody) (msgs : list Message) (input : ModelInput),
    messages body = Some msgs ->
    Controllers.normalize body = Some input ->
    (forall u, image input = Some u ->
               exists m items item,
                 In m msgs /\ role m = "user" /\ content m = CArray items
                 /\ In item items /\ imageItem item u)
    /\ (image input = None -> forall m, In m msgs -> ~ carriesImage m).
Proof.
  intros body msgs input Hm Hn.
  assert (Hne : msgs <> []).
  { intros ->. unfold Controllers.normalize, MessageProcessor.processMessages in Hn.
    rewrite Hm in Hn. discriminate. }
  rewrite (normalize_array _ _ Hm Hne) in Hn.
  destruct (Js.truthy _); [|discriminate].
  injection Hn as <-. rewrite buildModelInput_image.
  set (urls := flat_map messageUrls (filter notSystem msgs)).
  split.
  - intros u Hu.
    assert (Hin : In u urls).
    { apply in_rev. destruct (List.rev urls) as [|x l]; [discriminate|].
      injection Hu as ->. now left. }
    apply in_flat_map in Hin as (m & Hmem & Hum).
    apply filter_In in Hmem as [Hmem _].
    unfold messageUrls in Hum.
    destruct (content m) as [s|items|] eqn:Hc; try now destruct Hum.
    destruct (String.eqb_spec (role m) "user") as [Hr|]; [|now destruct Hum].
    apply itemUrls_from in Hum as (item & Hitem & Hi).
    now exists m, items, item.
  - intros Hnone m Hmem (Hr & items & item & u & Hc & Hitem & Hi).
    assert (Hu : In u urls).
    { apply in_flat_map. exists m. split.
      - apply filter_In. split; [exact Hmem|].
        unfold notSystem, MessageProcessor.isSystem. now rewrite Hr.
      - unfold messageUrls. rewrite Hc, Hr. simpl.
        now apply (itemUrls_in items item). }
    apply in_rev in Hu. destruct (List.rev urls); [destruct Hu|discriminate].
Qed.

Lemma X7_image_comes_from_the_request_witness :
  exists input,
    Controllers.normalize (Sample.bodyOf Sample.question) = Some input
    /\ forall m, In m Sample.question -> ~ carriesImage m.
Proof.
  destruct (Controllers.normalize (Sample.bodyOf Sample.question)) as [input|] eqn:E;
    [|vm_compute in E; discriminate].
  exists input. split; [reflexivity|].
  apply (proj2 (X7_image_comes_from_the_request
                  (Sample.bodyOf Sample.question) Sample.question input eq_refl E)).
  vm_compute in E. injection E as <-. reflexivity.
Defined.

(** ** What the encoder puts on the stream *)

Section Frames.
Import Js Utils Controllers.
Variables (env : Env) (chatCompletionId modelName : string) (totalPromptTokens : nat).

Local Abbreviation forEach :=
  (forEachEvent env chatCompletionId modelName totalPromptTokens).
Local Abbreviation chunkOf := (chunkObject env chatCompletionId modelName).

Lemma framesContent_app a b :
  framesContent (a ++ b) = framesContent a ++ framesContent b.
Proof.
  induction a as [|f a IH]; simpl; [reflexivity|].
  now rewrite IH, append_assoc.
Qed.

Lemma content_key s : or_else (keyOf (Some s)) "" = s.
Proof.
  unfold keyOf. simpl. destruct (truthy s) eqn:E; simpl; [now rewrite E|].
  apply truthy_false in E. now subst s.
Qed.

(** The content keys of the frames, read in order, are the output texts of
    the events, read in order. *)
Lemma forEachEvent_content evs isFirstEvent completionContent w :
  framesContent (fst (forEach evs isFirstEvent completionContent w)) = collected evs.
Proof.
  revert isFirstEvent completionContent w.
  induction evs as [|ev rest IH]; intros isFirstEvent completionContent w;
    [reflexivity|].
  rewrite forEachEvent_cons. cbn [collected].
  destruct isFirstEvent, (isOutput ev), (event ev =? "done");
    match goal with
    | |- context [forEach rest false ?c ?w'] =>
        specialize (IH false c w'); destruct (forEach rest false c w')
    end; rewrite ?chunkObject_fields;
    cbn [fst snd app framesContent frameContent Chunk.choices choicesText] in *;
    unfold choiceText; cbn [Chunk.delta Chunk.content];
    rewrite ?content_key; cbn [keyOf truthy_opt or_else append];
    rewrite ?append_nil_r, ?IH; reflexivity.
Qed.

(** One end marker per [done] event: the loop goes on after a [done]. *)
Lemma forEachEvent_done_count evs isFirstEvent completionContent w :
  length (filter isDoneFrame (fst (forEach evs isFirstEvent completionContent w)))
  = length (filter isDoneEvent evs).
Proof.
  revert isFirstEvent completionContent w.
  induction evs as [|ev rest IH]; intros isFirstEvent completionContent w;
    [reflexivity|].
  rewrite forEachEvent_cons. cbn [filter]. unfold isDoneEvent at 1.
  destruct isFirstEvent, (isOutput ev), (event ev =? "done");
    match goal with
    | |- context [forEach rest false ?c ?w'] =>
        specialize (IH false c w'); destruct (forEach rest false c w')
    end; cbn [fst snd app filter isDoneFrame negb andb length] in *;
    now rewrite IH.
Qed.

(** A chunk with a usage is a stop chunk with an empty delta, and its usage
    adds up; a chunk without usage has no finish reason. *)
Lemma forEachEvent_usage evs isFirstEvent completionContent w chunk :
  In (Data chunk) (fst (forEach evs isFirstEvent completionContent w)) ->
  match Chunk.usage chunk with
  | Some u =>
      Chunk.choices chunk
      = [{| Chunk.index := 0;
            Chunk.delta := {| Chunk.role := None; Chunk.content := None |};
            Chunk.finish_reason := Some "stop" |}]
      /\ Chunk.prompt_tokens u = totalPromptTokens
      /\ Chunk.total_tokens u = Chunk.prompt_tokens u + Chunk.completion_tokens u
  | None => map Chunk.finish_reason (Chunk.choices chunk) = [None]
  end.
Proof.
  revert isFirstEvent completionContent w.
  induction evs as [|ev rest IH]; intros isFirstEvent completionContent w;
    [intros []|].
  rewrite forEachEvent_cons.
  destruct isFirstEvent, (isOutput ev), (event ev =? "done");
    match goal with
    | |- context [forEach rest false ?c ?w'] =>
        specialize (IH false c w'); destruct (forEach rest false c w')
    end; rewrite ?chunkObject_fields; cbn [fst snd app In] in *; intros Hin;
    repeat match type of Hin with
           | _ \/ _ => destruct Hin as [Hin|Hin]
           end;
    try discriminate Hin; try (now apply IH);
    apply Data_inj in Hin; subst chunk; cbn; auto.
Qed.

(** After the first event no chunk sets the role. *)
Lemma forEachEvent_no_role evs completionContent w chunk :
  In (Data chunk) (fst (forEach evs false completionContent w)) ->
  map (fun c => Chunk.role (Chunk.delta c)) (Chunk.choices chunk) = [None].
Proof.
  revert completionContent w.
  induction evs as [|ev rest IH]; intros completionContent w; [intros []|].
  rewrite forEachEvent_cons.
  destruct (isOutput ev), (event ev =? "done");
    match goal with
    | |- context [forEach rest false ?c ?w'] =>
        specialize (IH c w'); destruct (forEach rest false c w')
    end; rewrite ?chunkObject_fields; cbn [fst snd app In] in *; intros Hin;
    repeat match type of Hin with
           | _ \/ _ => destruct Hin as [Hin|Hin]
           end;
    try discriminate Hin; try (now apply IH);
    apply Data_inj in Hin; subst chunk; reflexivity.
Qed.

(** When the last event is a [done], the stream ends with the stop chunk
    and the end marker, and the stop chunk counts the tokens of all the
    output text before it. *)
Lemma forEachEvent_ends_with_done evs d isFirstEvent completionContent w :
  event d = "done" ->
  exists before wk,
    fst (forEach (evs ++ [d]) isFirstEvent completionContent w)
    = (before
       ++ [Data (chunkWith chatCompletionId modelName
                           (dateNow env (ticks wk) / 1000)%Z None None (Some "stop")
                  (Some {| Chunk.prompt_tokens := totalPromptTokens;
                           Chunk.completion_tokens :=
                             tokenCount env (completionContent ++ collected evs);
                           Chunk.total_tokens :=
                             totalPromptTokens
                             + tokenCount env (completionContent ++ collected evs) |}));
           Done])%list.
Proof.
  intros Hd.
  assert (Ho : isOutput d = false) by (unfold isOutput; now rewrite Hd).
  assert (He : (event d =? "done") = true) by (now rewrite Hd).
  revert isFirstEvent completionContent w.
  induction evs as [|ev rest IH]; intros isFirstEvent completionContent w;
    cbn [app]; rewrite forEachEvent_cons.
  - rewrite Ho, He. cbn [forEachEvent collected]. rewrite append_nil_r.
    rewrite !chunkObject_fields.
    destruct isFirstEvent; cbn [fst snd app].
    + exists [Data (chunkWith chatCompletionId modelName
                            (dateNow env (ticks w) / 1000)%Z
                            (Some "assistant") None None None)], (tick w).
      reflexivity.
    + exists [], w. reflexivity.
  - cbn [collected].
    destruct isFirstEvent, (isOutput ev), (event ev =? "done");
      match goal with
      | |- context [forEach (rest ++ [d]) false ?c ?w'] =>
          destruct (IH false c w') as (before & wk & E);
          destruct (forEach (rest ++ [d]) false c w')
      end; cbn [fst snd] in *; subst; rewrite ?append_assoc;
      match goal with
      | |- exists _ _, (?X ++ ?Y ++ ?B ++ _)%list = _ =>
          exists (X ++ Y ++ B)%list, wk
      end; rewrite <- !app_assoc; reflexivity.
Qed.

End Frames.

(** X8. The text that a client puts together from the [delta.content] keys
    of the chunks, in order, is exactly the text of the [output] events that
    the dispatcher yielded, in order, the events of failed attempts
    included; no other frame adds a character. *)
Theorem X8_stream_content_is_upstream_output :
  forall (cfg : Config) (env : Env) (id modelName : string) (input : ModelInput)
         (w : World),
    framesContent (fst (fst (Controllers.streamFrames cfg env id modelName input w)))
    = collected (ApiService.yielded
                   (fst (ApiService.streamModelResponse
                           cfg env (ApiService.defaultApiService cfg) input w))).
Proof.
  intros cfg env id modelName input w.
  rewrite streamFrames_eq. cbn [fst]. apply forEachEvent_content.
Qed.

Lemma isDoneEvent_event evs :
  filter isDoneEvent evs = filter (fun ev => event ev =? "done") evs.
Proof.
  apply filter_ext. intros ev. unfold isDoneEvent, Controllers.isOutput.
  destruct (String.eqb_spec (event ev) "done") as [E|]; [|apply andb_false_r].
  rewrite E. reflexivity.
Qed.

(** X9. The stream holds one [data: [DONE]] marker for every [done] event
    that the dispatcher yielded: none without a [done] event, and one more
    for each further [done], since the loop does not stop at the first. *)
Theorem X9_one_end_marker_per_done_event :
  forall (cfg : Config) (env : Env) (id modelName : string) (input : ModelInput)
         (w : World),
    length (filter isDoneFrame
                   (fst (fst (Controllers.streamFrames cfg env id modelName input w))))
    = length (filter (fun ev => event ev =? "done")
                     (ApiService.yielded
                        (fst (ApiService.streamModelResponse
                                cfg env (ApiService.defaultApiService cfg) input w)))).
Proof.
  intros cfg env id modelName input w.
  rewrite streamFrames_eq, <- isDoneEvent_event. cbn [fst].
  apply forEachEvent_done_count.
Qed.

(** X10. On a response stream a chunk has a [usage] only if it is a stop
    chunk with an empty delta; its [prompt_tokens] is the token count of
    the prompt plus that of the system prompt, and its [total_tokens] is
    [prompt_tokens + completion_tokens]. A chunk without [usage] has a
    [null] finish reason. *)
Theorem X10_usage_only_on_stop_chunks :
  forall (cfg : Config) (env : Env) (id modelName : string) (input : ModelInput)
         (w : World) (chunk : Chunk.SSEChunk),
    In (Controllers.Data chunk)
       (fst (fst (Controllers.streamFrames cfg env id modelName input w))) ->
    match Chunk.usage chunk with
    | Some u =>
        Chunk.choices chunk
        = [{| Chunk.index := 0;
              Chunk.delta := {| Chunk.role := None; Chunk.content := None |};
              Chunk.finish_reason := Some "stop" |}]
        /\ Chunk.prompt_tokens u = promptTokensOf env input
        /\ Chunk.total_tokens u = Chunk.prompt_tokens u + Chunk.completion_tokens u
    | None => map Chunk.finish_reason (Chunk.choices chunk) = [None]
    end.
Proof.
  intros cfg env id modelName input w chunk.
  rewrite streamFrames_eq. cbn [fst]. apply forEachEvent_usage.
Qed.

Lemma X10_usage_only_on_stop_chunks_witness :
  let chunk := chunkWith "chatcmpl-0000" "proxy-model" 1700000000
                         None (Some "Hi") None None in
  map Chunk.finish_reason (Chunk.choices chunk) = [None].
Proof.
  intros chunk.
  apply (X10_usage_only_on_stop_chunks
           Sample.cfg Sample.greeting "chatcmpl-0000" "proxy-model"
           Sample.input Sample.w0 chunk).
  vm_compute. right. left. reflexivity.
Defined.

(** X11. A dispatcher that yields nothing leaves the stream without any
    frame, the role chunk included. Otherwise the first frame is the role
    chunk, built at the first reading of the clock, and no later chunk sets
    the role. *)
Theorem X11_role_chunk_first_and_once :
  forall (cfg : Config) (env : Env) (id modelName : string) (input : ModelInput)
         (w : World),
    let evs := ApiService.yielded
                 (fst (ApiService.streamModelResponse
                         cfg env (ApiService.defaultApiService cfg) input w)) in
    let frames := fst (fst (Controllers.streamFrames cfg env id modelName input w)) in
    (evs = [] -> frames = [])
    /\ (evs <> [] ->
        exists later,
          frames
          = Controllers.Data
              (chunkWith id modelName (dateNow env (ticks w) / 1000)%Z
                         (Some "assistant") None None None) :: later
          /\ forall chunk,
              In (Controllers.Data chunk) later ->
              map (fun c => Chunk.role (Chunk.delta c)) (Chunk.choices chunk) = [None]).
Proof.
  intros cfg env id modelName input w evs frames. subst frames.
  rewrite streamFrames_eq. cbn [fst]. fold evs.
  pose proof (streamModelResponse_ticks cfg env (ApiService.defaultApiService cfg)
                                        input w) as Ht.
  set (w1 := snd (ApiService.streamModelResponse _ _ _ _ _)) in *.
  split.
  - intros ->. reflexivity.
  - destruct evs as [|ev rest]; [intros H; now destruct H|intros _].
    rewrite forEachEvent_cons, !chunkObject_fields. cbn [fst]. rewrite Ht.
    set (total := (_ + _)%nat).
    destruct (Controllers.isOutput ev), (event ev =? "done");
      match goal with
      | |- context [Controllers.forEachEvent env id modelName total rest false ?c ?w'] =>
          pose proof (forEachEvent_no_role env id modelName total rest c w') as Hl;
          destruct (Controllers.forEachEvent env id modelName total rest false c w')
      end; rewrite ?chunkObject_fields; cbn [fst snd app] in *;
      eexists; (split; [reflexivity|]); intros chunk Hin; cbn [In] in Hin;
      repeat match type of Hin with
             | _ \/ _ => destruct Hin as [Hin|Hin]
             end;
      try discriminate Hin; try (now apply Hl);
      apply Data_inj in Hin; subst chunk; reflexivity.
Qed.

Lemma X11_role_chunk_first_and_once_witness :
  fst (fst (Controllers.streamFrames Sample.cfg Sample.failing "chatcmpl-0000"
                                     "proxy-model" Sample.input Sample.w0))
  = []
  /\ exists later,
      fst (fst (Controllers.streamFrames Sample.cfg Sample.greeting "chatcmpl-0000"
                                         "proxy-model" Sample.input Sample.w0))
      = Controllers.Data
          (chunkWith "chatcmpl-0000" "proxy-model" 1700000000
                     (Some "assistant") None None None) :: later.
Proof.
  split.
  - apply (proj1 (X11_role_chunk_first_and_once
                    Sample.cfg Sample.failing "chatcmpl-0000" "proxy-model"
                    Sample.input Sample.w0)).
    reflexivity.
  - destruct (proj2 (X11_role_chunk_first_and_once
                       Sample.cfg Sample.greeting "chatcmpl-0000" "proxy-model"
                       Sample.input Sample.w0)) as (later & H & _).
    + discriminate.
    + exists later. exact H.
Defined.

(** X12. When the last event that the dispatcher yields is a [done], the
    stream ends with the stop chunk and the end marker, and the
    [completion_tokens] of that chunk is the token count of all the output
    text yielded before it. *)
Theorem X12_final_usage_counts_all_output :
  forall (cfg : Config) (env : Env) (id modelName : string) (input : ModelInput)
         (w : World) (evs : list ReplicateEvent) (d : ReplicateEvent),
    ApiService.yielded
      (fst (ApiService.streamModelResponse
              cfg env (ApiService.defaultApiService cfg) input w))
    = (evs ++ [d])%list ->
    event d = "done" ->
    exists before created,
      fst (fst (Controllers.streamFrames cfg env id modelName input w))
      = (before
         ++ [Controllers.Data
               (chunkWith id modelName created None None (Some "stop")
                  (Some {| Chunk.prompt_tokens := promptTokensOf env input;
                           Chunk.completion_tokens :=
                             Controllers.tokenCount env (collected evs);
                           Chunk.total_tokens :=
                             promptTokensOf env input
                             + Controllers.tokenCount env (collected evs) |}));
             Controllers.Done])%list.
Proof.
  intros cfg env id modelName input w evs d Hy Hd.
  rewrite streamFrames_eq. cbn [fst]. rewrite Hy.
  destruct (forEachEvent_ends_with_done
              env id modelName (promptTokensOf env input) evs d true ""
              (snd (ApiService.streamModelResponse
                      cfg env (ApiService.defaultApiService cfg) input w)) Hd)
    as (before & wk & E).
  exists before, (dateNow env (ticks wk) / 1000)%Z. exact E.
Qed.

Lemma X12_final_usage_counts_all_output_witness :
  exists before created u,
    fst (fst (Controllers.streamFrames Sample.cfg Scenario.flaky "chatcmpl-0000"
                                       "proxy-model" Sample.input Sample.w0))
    = (before
       ++ [Controllers.Data
             (chunkWith "chatcmpl-0000" "proxy-model" created None None (Some "stop")
                        (Some u));
           Controllers.Done])%list
    /\ Chunk.completion_tokens u = 10.
Proof.
  destruct (X12_final_usage_counts_all_output
              Sample.cfg Scenario.flaky "chatcmpl-0000" "proxy-model"
              Sample.input Sample.w0
              [Sample.output "Hi"; Sample.output "Hi"; Sample.output " there"]
              Sample.done) as (before & created & E).
  - reflexivity.
  - reflexivity.
  - exists before, created. eexists. split; [exact E|reflexivity].
Defined.

(** ** The handler *)

Section Handler.
Import Js Utils Controllers.
Variables (cfg : Config) (env : Env).

Lemma validateApiKey_rejected authHeader response :
  validateApiKey cfg authHeader = Rejected response -> status response = 401.
Proof.
  destruct authHeader as [header|].
  - rewrite validateApiKey_cases.
    destruct (startsWith (toLowerCase header) "bearer ");
      [destruct (substring_from 7 header =? AUTH_KEY cfg)|];
      intros H; try discriminate H; injection H as <-; reflexivity.
  - intros H. injection H as <-. reflexivity.
Qed.

Lemma handleStreamResponse_status chatCompletionId modelName input w :
  status (fst (handleStreamResponse cfg env chatCompletionId modelName input w)) = 200.
Proof.
  unfold handleStreamResponse.
  destruct (streamFrames cfg env chatCompletionId modelName input w) as [[frames final] w'].
  reflexivity.
Qed.

Lemma handleNonStreamResponse_status chatCompletionId modelName input w :
  let r := fst (handleNonStreamResponse cfg env chatCompletionId modelName input w) in
  status r = 200 \/ status r = 500.
Proof.
  unfold handleNonStreamResponse.
  destruct (ApiService.getModelResponse _ _ _ _ _) as [[text|e] w']; cbn; auto.
Qed.

(** The batch dispatcher when every attempt fails. *)
Lemma getModelResponse_exhausted input w :
  let this := ApiService.defaultApiService cfg in
  let R := ApiService.maxRetries this in
  let clients := rotation cfg (R + 1) (currentKeyIndex w) in
  (forall j, j <= R ->
             exists t, run_ env (length (trace w) + j) (nth j clients noClient)
                            (ApiService.modelId this) input = Throws t) ->
  exists t,
    run_ env (length (trace w) + R) (last clients noClient)
         (ApiService.modelId this) input = Throws t
    /\ fst (ApiService.getModelResponse cfg env this input w) = inr (toError t).
Proof.
  intros this R clients Hfail.
  assert (Hc : clients
               = clientAt cfg (currentKeyIndex w)
                 :: rotation cfg R (advance cfg (currentKeyIndex w))).
  { subst clients. rewrite Nat.add_1_r. reflexivity. }
  destruct (runLoop_exhausted cfg env this input R 0
              (clientAt cfg (currentKeyIndex w)) None
              (snd (getNextReplicateClient cfg w)) eq_refl) as (t & Ht & Hr).
  - cbn [getNextReplicateClient snd currentKeyIndex trace]. rewrite <- Hc. exact Hfail.
  - cbn [getNextReplicateClient snd currentKeyIndex trace] in Ht. rewrite <- Hc in Ht.
    exists t. split; [exact Ht|].
    change (fst (ApiService.runLoop cfg env this input 0
                   (clientAt cfg (currentKeyIndex w)) None
                   (snd (getNextReplicateClient cfg w))) = inr (toError t)).
    now rewrite Hr.
Qed.

(** The streaming dispatcher when every attempt fails. *)
Lemma streamModelResponse_exhausted input w :
  let this := ApiService.defaultApiService cfg in
  let R := ApiService.maxRetries this in
  let clients := rotation cfg (R + 1) (currentKeyIndex w) in
  let runs := streamRuns env (ApiService.modelId this) input (length (trace w)) clients in
  (forall j, j <= R ->
             failure (stream_ env (length (trace w) + j) (nth j clients noClient)
                              (ApiService.modelId this) input) <> None) ->
  exists t,
    failure (stream_ env (length (trace w) + R) (last clients noClient)
                     (ApiService.modelId this) input) = Some t
    /\ fst (ApiService.streamModelResponse cfg env this input w)
       = {| ApiService.yielded := flat_map events runs;
            ApiService.thrown := Some (toError t) |}.
Proof.
  intros this R clients runs Hfail.
  assert (Hc : clients
               = clientAt cfg (currentKeyIndex w)
                 :: rotation cfg R (advance cfg (currentKeyIndex w))).
  { subst clients. rewrite Nat.add_1_r. reflexivity. }
  destruct (streamLoop_exhausted cfg env this input R 0
              (clientAt cfg (currentKeyIndex w)) None []
              (snd (getNextReplicateClient cfg w)) eq_refl) as (t & Ht & Hr).
  - cbn [getNextReplicateClient snd currentKeyIndex trace]. rewrite <- Hc. exact Hfail.
  - exists t. split.
    + cbn [getNextReplicateClient snd currentKeyIndex trace] in Ht.
      rewrite <- Hc in Ht. exact Ht.
    + change (fst (ApiService.streamLoop cfg env this input 0
                     (clientAt cfg (currentKeyIndex w)) None []
                     (snd (getNextReplicateClient cfg w)))
              = {| ApiService.yielded := flat_map events runs;
                   ApiService.thrown := Some (toError t) |}).
      rewrite Hr. cbn [fst getNextReplicateClient snd currentKeyIndex trace app].
      now rewrite <- Hc.
Qed.

(** A batch call that succeeds at once. *)
Lemma getModelResponse_first_try this input w prediction :
  run_ env (length (trace w)) (clientAt cfg (currentKeyIndex w))
       (ApiService.modelId this) input = Returns prediction ->
  ApiService.getModelResponse cfg env this input w
  = (inl (ApiService.predictionText prediction),
     recordCall (callOf false (clientAt cfg (currentKeyIndex w)))
                (snd (getNextReplicateClient cfg w))).
Proof.
  intros H.
  unfold ApiService.getModelResponse, ApiService.getReplicateClient.
  cbn [getNextReplicateClient]. rewrite runLoop_unfold.
  cbn [Nat.leb]. unfold clientRun. cbn [trace]. rewrite H. reflexivity.
Qed.

(** The system prompt of a model input that normalisation built is never
    empty. *)
Lemma normalize_system_prompt body input :
  normalize body = Some input -> truthy (system_prompt input) = true.
Proof.
  unfold normalize. destruct (negb _); [discriminate|].
  intros H. injection H as <-. rewrite buildModelInput_system_prompt.
  destruct (truthy (MessageProcessor.systemPrompt _)) eqn:E.
  - now apply truthy_append_l.
  - reflexivity.
Qed.

End Handler.

(** The status of an answer of the chat-completions handler. *)
Lemma handler_status_range (cfg : Config) (env : Env) (req : Request) (w : World) :
  let r := fst (Controllers.handleChatCompletionRequest cfg env req w) in
  status r = 200 \/ status r = 400 \/ status r = 401 \/ status r = 500.
Proof.
  cbv zeta. unfold Controllers.handleChatCompletionRequest.
  destruct (Controllers.validateApiKey cfg (authorization req)) as [response|key] eqn:Hv.
  - apply validateApiKey_rejected in Hv. cbn [fst]. rewrite Hv. auto.
  - destruct (json req) as [body|]; [|cbn; auto].
    destruct (Controllers.normalize body) as [input|]; [|cbn; auto].
    cbn [nextUUID].
    destruct (match stream body with Some true => true | _ => false end).
    + rewrite handleStreamResponse_status. auto.
    + match goal with
      | |- context [Controllers.handleNonStreamResponse cfg env ?i ?m ?x ?y] =>
          destruct (handleNonStreamResponse_status cfg env i m x y) as [H|H]
      end; rewrite H; auto.
Qed.

(** X5. On the values of the declared types (a body that is an object; in
    its [messages] array, messages with a string for a role and, for a
    content, a string, an array of content items, or none) and behind an
    accepted key: a model input is built exactly when the array holds a
    message that is not a system message, has a non-empty role, and whose
    content is an array, even an empty one, or a non-empty string. The
    answer is then 200 or 500; otherwise it is the 400 with code
    [invalid_messages], and the state is left as it was. *)
Theorem X5_accepted_exactly_when_something_is_said :
  forall (cfg : Config) (env : Env) (req : Request) (body : RequestBody) (w : World)
         (key : string),
    Controllers.validateApiKey cfg (authorization req) = Controllers.Accepted key ->
    json req = Some body ->
    let said := exists msgs m,
                  messages body = Some msgs /\ In m msgs /\ saysSomething m in
    let r := Controllers.handleChatCompletionRequest cfg env req w in
    (Controllers.normalize body <> None <-> said)
    /\ (said -> status (fst r) = 200 \/ status (fst r) = 500)
    /\ (~ said ->
        r = ({| status := 400;
                headers := [("Content-Type", "application/json");
                            ("Access-Control-Allow-Origin", "*")];
                body := errorBody
                          "Request body must contain a non-empty 'messages' array."
                          "invalid_request_error" "invalid_messages" |}, w)).
Proof.
  intros cfg env req body w key Hv Hj. cbv zeta.
  pose proof (normalize_accepts_iff body) as Hiff.
  split; [exact Hiff|].
  unfold Controllers.handleChatCompletionRequest. rewrite Hv, Hj.
  destruct (Controllers.normalize body) as [input|] eqn:Hn; split.
  - intros _. cbn [nextUUID].
    destruct (match stream body with Some true => true | _ => false end).
    + left. apply handleStreamResponse_status.
    + match goal with
      | |- context [Controllers.handleNonStreamResponse cfg env ?i ?m ?x ?y] =>
          exact (handleNonStreamResponse_status cfg env i m x y)
      end.
  - intros Hs. destruct Hs. apply Hiff. discriminate.
  - intros Hs. apply Hiff in Hs. now destruct Hs.
  - intros _. reflexivity.
Qed.

Lemma X5_accepted_exactly_when_something_is_said_witness :
  Controllers.normalize
    (Sample.bodyOf [{| role := "system"; content := CString "Be brief." |};
                    {| role := "user"; content := CArray [] |}]) <> None
  /\ status (fst (Controllers.handleChatCompletionRequest
                    Sample.cfg Sample.greeting
                    (Sample.authorized
                       (Sample.bodyOf [{| role := "system"; content := CString "Be brief." |};
                                       {| role := "user"; content := CArray [] |}]))
                    Sample.w0)) = 200.
Proof.
  destruct (X5_accepted_exactly_when_something_is_said
              Sample.cfg Sample.greeting
              (Sample.authorized
                 (Sample.bodyOf [{| role := "system"; content := CString "Be brief." |};
                                 {| role := "user"; content := CArray [] |}]))
              (Sample.bodyOf [{| role := "system"; content := CString "Be brief." |};
                              {| role := "user"; content := CArray [] |}])
              Sample.w0 "secret" eq_refl eq_refl) as (Hiff & Hs & _).
  assert (Hsaid : exists msgs m,
             messages (Sample.bodyOf
                         [{| role := "system"; content := CString "Be brief." |};
                          {| role := "user"; content := CArray [] |}]) = Some msgs
             /\ In m msgs /\ saysSomething m).
  { exists [{| role := "system"; content := CString "Be brief." |};
            {| role := "user"; content := CArray [] |}],
           {| role := "user"; content := CArray [] |}.
    split; [reflexivity|]. split; [right; left; reflexivity|].
    split; [discriminate|]. split; [discriminate|].
    left. exists []. reflexivity. }
  split; [apply (proj2 Hiff Hsaid)|].
  destruct (Hs Hsaid) as [H|H]; [exact H|].
  vm_compute in H. discriminate H.
Defined.

(** X13. Every answer of the chat-completions handler has status 200, 400,
    401 or 500, and an answer with status 400 or 401 leaves the state as it
    was: no client was taken from the rotator, no upstream call was made,
    no identifier was drawn and the clock was not read. *)
Theorem X13_rejections_have_no_effect :
  forall (cfg : Config) (env : Env) (req : Request) (w : World),
    let r := fst (Controllers.handleChatCompletionRequest cfg env req w) in
    let w' := snd (Controllers.handleChatCompletionRequest cfg env req w) in
    (status r = 200 \/ status r = 400 \/ status r = 401 \/ status r = 500)
    /\ (status r = 400 \/ status r = 401 -> w' = w).
Proof.
  intros cfg env req w. cbv zeta. unfold Controllers.handleChatCompletionRequest.
  destruct (Controllers.validateApiKey cfg (authorization req)) as [response|key] eqn:Hv.
  - apply validateApiKey_rejected in Hv. cbn [fst snd]. rewrite Hv. auto.
  - destruct (json req) as [body|]; [|cbn; auto].
    destruct (Controllers.normalize body) as [input|]; [|cbn; auto].
    cbn [nextUUID].
    destruct (match stream body with Some true => true | _ => false end).
    + rewrite handleStreamResponse_status. split; [auto|].
      intros [H|H]; discriminate H.
    + match goal with
      | |- context [Controllers.handleNonStreamResponse cfg env ?i ?m ?x ?y] =>
          destruct (handleNonStreamResponse_status cfg env i m x y) as [H|H]
      end; rewrite H; split; auto; intros [E|E]; discriminate E.
Qed.

Lemma X13_rejections_have_no_effect_witness :
  snd (Controllers.handleChatCompletionRequest
         Sample.cfg Scenario.flaky
         (Sample.authorized (Sample.bodyOf Sample.silent)) Sample.w0)
  = Sample.w0.
Proof.
  apply (proj2 (X13_rejections_have_no_effect
                  Sample.cfg Scenario.flaky
                  (Sample.authorized (Sample.bodyOf Sample.silent)) Sample.w0)).
  left. reflexivity.
Defined.

(** X14. When every attempt of a non-streaming completion fails, the
    answer is a 500 with type [api_error] whose message is
    [Failed to get response from API: ] followed by the message of the
    error of the last attempt. *)
Theorem X14_batch_exhaustion_is_a_500 :
  forall (cfg : Config) (env : Env) (id modelName : string) (input : ModelInput)
         (w : World),
    let R := Nat.min (length (REPLICATE_API_KEYS cfg)) 3 in
    let clients := rotation cfg (R + 1) (currentKeyIndex w) in
    (forall j, j <= R ->
               exists t, run_ env (length (trace w) + j) (nth j clients noClient)
                              (DEFAULT_MODEL_ID cfg) input = Throws t) ->
    exists t,
      run_ env (length (trace w) + R) (last clients noClient)
           (DEFAULT_MODEL_ID cfg) input = Throws t
      /\ fst (Controllers.handleNonStreamResponse cfg env id modelName input w)
         = {| status := 500;
              headers := [("Content-Type", "application/json");
                          ("Access-Control-Allow-Origin", "*")];
              body := errorBody ("Failed to get response from API: "
                                 ++ message (toError t))
                                "api_error" (API_ERROR cfg) |}.
Proof.
  intros cfg env id modelName input w R clients Hfail.
  destruct (getModelResponse_exhausted cfg env input w Hfail) as (t & Ht & Hr).
  exists t. split; [exact Ht|].
  unfold Controllers.handleNonStreamResponse.
  destruct (ApiService.getModelResponse _ _ _ _ _) as [r w'].
  cbn [fst] in Hr. subst r. reflexivity.
Qed.

Lemma X14_batch_exhaustion_is_a_500_witness :
  fst (Controllers.handleNonStreamResponse
         Sample.cfg Sample.failing "chatcmpl-0000" "proxy-model"
         Sample.input Sample.w0)
  = {| status := 500;
       headers := [("Content-Type", "application/json");
                   ("Access-Control-Allow-Origin", "*")];
       body := errorBody "Failed to get response from API: upstream down"
                         "api_error" "api_error" |}.
Proof.
  destruct (X14_batch_exhaustion_is_a_500
              Sample.cfg Sample.failing "chatcmpl-0000" "proxy-model"
              Sample.input Sample.w0) as (t & Ht & Hr).
  - intros j Hj. exists Sample.down. reflexivity.
  - injection Ht as <-. exact Hr.
Defined.

(** X15. When every attempt of a streaming completion fails, the answer
    still has status 200: its stream holds the frames of whatever events
    the failed attempts delivered and then ends in the error state with the
    error of the last attempt. *)
Theorem X15_stream_exhaustion_is_a_200_that_errors :
  forall (cfg : Config) (env : Env) (id modelName : string) (input : ModelInput)
         (w : World),
    let R := Nat.min (length (REPLICATE_API_KEYS cfg)) 3 in
    let clients := rotation cfg (R + 1) (currentKeyIndex w) in
    let runs := streamRuns env (DEFAULT_MODEL_ID cfg) input (length (trace w)) clients in
    (forall j, j <= R ->
               failure (stream_ env (length (trace w) + j) (nth j clients noClient)
                                (DEFAULT_MODEL_ID cfg) input) <> None) ->
    exists t wd,
      failure (stream_ env (length (trace w) + R) (last clients noClient)
                       (DEFAULT_MODEL_ID cfg) input) = Some t
      /\ ticks wd = ticks w
      /\ fst (Controllers.handleStreamResponse cfg env id modelName input w)
         = {| status := 200;
              headers := spread [("Content-Type", "text/event-stream");
                                 ("Cache-Control", "no-cache");
                                 ("Connection", "keep-alive")] (CORS_HEADERS cfg);
              body := Stream
                        (map Controllers.frameText
                             (fst (Controllers.forEachEvent
                                     env id modelName (promptTokensOf env input)
                                     (flat_map events runs) true "" wd)))
                        (Errored (toError t)) |}.
Proof.
  intros cfg env id modelName input w R clients runs Hfail.
  destruct (streamModelResponse_exhausted cfg env input w Hfail) as (t & Ht & Hr).
  exists t, (snd (ApiService.streamModelResponse
                    cfg env (ApiService.defaultApiService cfg) input w)).
  split; [exact Ht|]. split; [apply streamModelResponse_ticks|].
  unfold Controllers.handleStreamResponse. rewrite streamFrames_eq.
  rewrite Hr. reflexivity.
Qed.

Lemma X15_stream_exhaustion_is_a_200_that_errors_witness :
  let r := fst (Controllers.handleStreamResponse
                  Sample.cfg Sample.failing "chatcmpl-0000" "proxy-model"
                  Sample.input Sample.w0) in
  status r = 200 /\ body r = Stream [] (Errored {| message := "upstream down" |}).
Proof.
  destruct (X15_stream_exhaustion_is_a_200_that_errors
              Sample.cfg Sample.failing "chatcmpl-0000" "proxy-model"
              Sample.input Sample.w0) as (t & wd & Ht & _ & Hr).
  - intros j Hj. discriminate.
  - injection Ht as <-. cbv zeta. rewrite Hr. split; reflexivity.
Defined.

(** X16. An authorised non-streaming request whose first upstream call
    resolves is answered 200 with one completion object: its id is
    [chatcmpl-] and the identifier drawn, its [created] the one reading of
    the clock in whole seconds, its model the requested one or else the
    proxy's default name, its one choice the assistant message with the
    text of the prediction and the finish reason [stop], and its usage
    counts the tokens of the prompt and of the system prompt, which is
    never empty, and of the completion, and their sum. *)
Theorem X16_batch_success_is_one_completion :
  forall (cfg : Config) (env : Env) (req : Request) (requestBody : RequestBody)
         (input : ModelInput) (w : World) (key : string) (prediction : Prediction),
    Controllers.validateApiKey cfg (authorization req) = Controllers.Accepted key ->
    json req = Some requestBody ->
    stream requestBody <> Some true ->
    Controllers.normalize requestBody = Some input ->
    run_ env (length (trace w)) (clientAt cfg (currentKeyIndex w))
         (DEFAULT_MODEL_ID cfg) input = Returns prediction ->
    let text := ApiService.predictionText prediction in
    let r := fst (Controllers.handleChatCompletionRequest cfg env req w) in
    status r = 200
    /\ body r
       = Text (Js.stringify
                 (completionObject
                    ("chatcmpl-" ++ randomUUID env (draws w))
                    (dateNow env (ticks w) / 1000)%Z
                    (Js.or_else (model requestBody) (PROXY_MODEL_NAME cfg))
                    text
                    (length (encode env (prompt input))
                     + length (encode env (system_prompt input)))
                    (length (encode env text)))).
Proof.
  intros cfg env req requestBody input w key prediction Hv Hj Hs Hn Hrun text r.
  subst r. unfold Controllers.handleChatCompletionRequest. rewrite Hv, Hj, Hn.
  replace (match stream requestBody with Some true => true | _ => false end) with false
    by (destruct (stream requestBody) as [[]|]; [now destruct Hs|reflexivity|reflexivity]).
  cbn [nextUUID]. unfold Controllers.handleNonStreamResponse.
  rewrite (getModelResponse_first_try cfg env _ input _ prediction) by exact Hrun.
  rewrite (normalize_system_prompt _ _ Hn). split; reflexivity.
Qed.

Lemma X16_batch_success_is_one_completion_witness :
  let r := fst (Controllers.handleChatCompletionRequest
                  Sample.cfg Sample.greeting
                  (Sample.authorized (Scenario.batchBody Sample.question)) Sample.w0) in
  status r = 200
  /\ body r
     = Text ("{" ++ quoted "id" ++ ":" ++ quoted "chatcmpl-0000" ++ ","
             ++ quoted "object" ++ ":" ++ quoted "chat.completion" ++ ","
             ++ quoted "created" ++ ":1700000000,"
             ++ quoted "model" ++ ":" ++ quoted "my-model" ++ ","
             ++ quoted "choices" ++ ":[{" ++ quoted "index" ++ ":0,"
             ++ quoted "message" ++ ":{" ++ quoted "role" ++ ":" ++ quoted "assistant"
             ++ "," ++ quoted "content" ++ ":" ++ quoted "Hi there" ++ "},"
             ++ quoted "finish_reason" ++ ":" ++ quoted "stop" ++ ","
             ++ quoted "logprobs" ++ ":null}],"
             ++ quoted "usage" ++ ":{" ++ quoted "prompt_tokens" ++ ":631,"
             ++ quoted "completion_tokens" ++ ":8,"
             ++ quoted "total_tokens" ++ ":639}}").
Proof.
  destruct (Controllers.normalize (Scenario.batchBody Sample.question))
    as [input|] eqn:E; [|vm_compute in E; discriminate].
  destruct (X16_batch_success_is_one_completion
              Sample.cfg Sample.greeting
              (Sample.authorized (Scenario.batchBody Sample.question))
              (Scenario.batchBody Sample.question) input Sample.w0
              "secret" (PArray ["Hi"; " there"])) as [Hstatus Hbody].
  - reflexivity.
  - reflexivity.
  - discriminate.
  - exact E.
  - reflexivity.
  - cbv zeta. split; [exact Hstatus|].
    etransitivity; [exact Hbody|].
    vm_compute in E. injection E as <-. vm_compute. reflexivity.
Defined.

(** ** Serialisation *)

Section Serialisation.
Import Js Utils Controllers.

Lemma noC0_app a b : noC0 (a ++ b) = noC0 a && noC0 b.
Proof.
  induction a as [|x a IH]; simpl; [reflexivity|].
  now rewrite IH, andb_assoc.
Qed.

Lemma noC0_In s :
  noC0 s = true -> forall a, In a (list_ascii_of_string s) -> 32 <= nat_of_ascii a.
Proof.
  induction s as [|x s IH]; cbn [noC0 list_ascii_of_string In]; [intros _ a []|].
  intros H a [<-|Ha]; apply andb_prop in H as [Hx Hs].
  - now apply Nat.leb_le.
  - now apply IH.
Qed.

Lemma escape_char_noC0 a : noC0 (escape_char a) = true.
Proof. destruct a as [[] [] [] [] [] [] [] []]; vm_compute; reflexivity. Qed.

Lemma escape_noC0 s : noC0 (escape s) = true.
Proof.
  induction s as [|a s IH]; simpl; [reflexivity|].
  now rewrite noC0_app, escape_char_noC0, IH.
Qed.

Lemma quote_noC0 s : noC0 (quote s) = true.
Proof.
  unfold quote. now rewrite !noC0_app, escape_noC0.
Qed.

Lemma string_of_uint_noC0 d : noC0 (NilEmpty.string_of_uint d) = true.
Proof. induction d; simpl; auto. Qed.

Lemma string_of_Z_noC0 z : noC0 (string_of_Z z) = true.
Proof.
  unfold string_of_Z, NilZero.string_of_int, NilZero.string_of_uint.
  destruct (Z.to_int z) as [d|d]; destruct d; simpl;
    auto using string_of_uint_noC0.
Qed.

Lemma join_noC0 sep parts :
  noC0 sep = true -> Forall (fun p => noC0 p = true) parts ->
  noC0 (join sep parts) = true.
Proof.
  intros Hs H. induction H as [|p parts Hp H IH]; [reflexivity|].
  destruct parts as [|q parts]; [exact Hp|].
  change (noC0 (p ++ sep ++ join sep (q :: parts)) = true).
  now rewrite !noC0_app, Hp, Hs, IH.
Qed.

(** Induction on a JSON value and on the values inside it. *)
Lemma JSON_nested_ind (P : JSON -> Prop) :
  P JNull -> (forall b, P (JBool b)) -> (forall z, P (JNum z)) -> (forall s, P (JStr s)) ->
  (forall elems, Forall P elems -> P (JArr elems)) ->
  (forall members, Forall (fun kv => P (snd kv)) members -> P (JObj members)) ->
  forall j, P j.
Proof.
  intros HNull HBool HNum HStr HArr HObj.
  fix F 1. intros [|b|z|s|elems|members].
  - exact HNull.
  - apply HBool.
  - apply HNum.
  - apply HStr.
  - apply HArr. induction elems as [|e elems IH]; constructor; [apply F|exact IH].
  - apply HObj. induction members as [|[k v] members IH]; constructor;
      [apply F|exact IH].
Qed.

(** [JSON.stringify] writes no control character: every line break, tab
    and quote inside a string is escaped. *)
Lemma stringify_noC0 j : noC0 (stringify j) = true.
Proof.
  induction j as [|b|z|s|elems IH|members IH] using JSON_nested_ind.
  - reflexivity.
  - now destruct b.
  - apply string_of_Z_noC0.
  - apply quote_noC0.
  - cbn [stringify]. rewrite !noC0_app, join_noC0; [reflexivity|reflexivity|].
    now apply Forall_map.
  - cbn [stringify]. rewrite !noC0_app, join_noC0; [reflexivity|reflexivity|].
    apply Forall_map. eapply Forall_impl; [|exact IH].
    intros [k v] H. cbn [snd] in H.
    now rewrite !noC0_app, quote_noC0, H.
Qed.

Lemma getKey_setKey k v obj k' :
  getKey k' (setKey k v obj) = if k =? k' then Some v else getKey k' obj.
Proof.
  induction obj as [|[k0 v0] obj IH]; cbn [setKey getKey]; [reflexivity|].
  destruct (String.eqb_spec k0 k) as [->|Hk]; cbn [getKey].
  - destruct (k =? k'); reflexivity.
  - rewrite IH. destruct (String.eqb_spec k0 k') as [->|]; [|reflexivity].
    apply String.eqb_neq in Hk. rewrite String.eqb_sym in Hk. now rewrite Hk.
Qed.

Lemma getKey_app k a b :
  getKey k (a ++ b) = match getKey k a with
                      | Some v => Some v
                      | None => getKey k b
                      end.
Proof.
  induction a as [|[k0 v0] a IH]; cbn [app getKey]; [reflexivity|].
  destruct (k0 =? k); [reflexivity|exact IH].
Qed.

(** In [{ ...base, ...extra }] a key has the last value that [extra] gives
    it, and otherwise the value of [base]. *)
Lemma getKey_spread k base extra :
  getKey k (spread base extra)
  = match getKey k (List.rev extra) with
    | Some v => Some v
    | None => getKey k base
    end.
Proof.
  unfold spread. revert base.
  induction extra as [|[k0 v0] extra IH]; intros base; cbn [fold_left List.rev];
    [reflexivity|].
  rewrite IH, getKey_app. cbn [fst snd getKey].
  destruct (getKey k (List.rev extra)); [reflexivity|].
  rewrite getKey_setKey. now destruct (k0 =? k).
Qed.

End Serialisation.

(** X17. Whatever text the model produces, every frame that the encoder
    enqueues is [data: ], a payload and two line feeds, and no byte of the
    payload is below 32: the payload holds no line feed and no carriage
    return, the line ends of an event stream, so the text of a chunk
    cannot end the line or the event early. Bytes from 127 on are left as
    they are. *)
Theorem X17_frames_are_single_lines :
  forall (f : Controllers.Frame),
    exists payload,
      Controllers.frameText f = "data: " ++ payload ++ Js.nl ++ Js.nl
      /\ (forall a, In a (list_ascii_of_string payload) -> 32 <= nat_of_ascii a)
      /\ (forall a, In a (list_ascii_of_string payload) ->
                    a <> "010"%char /\ a <> "013"%char).
Proof.
  intros f.
  assert (H : exists payload,
             Controllers.frameText f = "data: " ++ payload ++ Js.nl ++ Js.nl
             /\ noC0 payload = true).
  { destruct f as [chunk|].
    - exists (Js.stringify (Utils.chunkJSON chunk)).
      split; [reflexivity|apply stringify_noC0].
    - exists "[DONE]". split; reflexivity. }
  destruct H as (payload & Hf & Hp). exists payload.
  split; [exact Hf|]. split.
  - intros a Ha. exact (noC0_In _ Hp _ Ha).
  - intros a Ha. pose proof (noC0_In _ Hp _ Ha) as Hge.
    split; intros ->; cbn in Hge; lia.
Qed.

(** X18. [validateApiKey] accepts a header exactly when its first seven
    characters are [bearer ] in any case of the letters and the rest is the
    configured key, character for character; the key it reports is then the
    configured one. A missing header is never accepted. *)
Theorem X18_only_the_configured_key_is_accepted :
  forall (cfg : Config) (authHeader : option string) (key : string),
    Controllers.validateApiKey cfg authHeader = Controllers.Accepted key
    <-> exists header,
        authHeader = Some header
        /\ bearerHeader header (AUTH_KEY cfg)
        /\ key = AUTH_KEY cfg.
Proof.
  intros cfg authHeader key. split.
  - destruct authHeader as [header|]; [|discriminate].
    rewrite validateApiKey_cases.
    destruct (Js.startsWith (Js.toLowerCase header) "bearer ") eqn:Hp; [|discriminate].
    apply bearer_prefix in Hp as [key' Hb].
    rewrite (bearer_key _ _ Hb).
    destruct (String.eqb_spec key' (AUTH_KEY cfg)) as [->|]; [|discriminate].
    intros H. injection H as <-. now exists header.
  - intros (header & -> & Hb & ->).
    now rewrite (validateApiKey_bearer cfg _ _ Hb), String.eqb_refl.
Qed.

Lemma X18_only_the_configured_key_is_accepted_witness :
  Controllers.validateApiKey Sample.cfg (Some "BeArEr secret")
  = Controllers.Accepted "secret".
Proof.
  apply (proj2 (X18_only_the_configured_key_is_accepted
                  Sample.cfg (Some "BeArEr secret") "secret")).
  exists "BeArEr secret". split; [reflexivity|]. split; [|reflexivity].
  exists "BeArEr ". repeat split.
Defined.

(** X19. Through the router, the state changes only for a [POST] on the
    chat-completions path whose key is accepted and whose body parses and
    is accepted by normalisation: every other request, whatever its method,
    path and headers, takes no client, calls nothing upstream and draws
    nothing. The status of an answer is one of 200, 204, 400, 401, 404 and
    500. *)
Theorem X19_only_accepted_completions_have_effects :
  forall (cfg : Config) (routes : Routes) (env : Env) (req : Routed) (w : World),
    let r := fst (Router.routeRequest cfg routes env req w) in
    let w' := snd (Router.routeRequest cfg routes env req w) in
    (w' <> w ->
     method req = "POST"
     /\ pathname req = API_PATHS_CHAT_COMPLETIONS routes
     /\ exists key body input,
         Controllers.validateApiKey cfg (authorization (request req))
         = Controllers.Accepted key
         /\ json (request req) = Some body
         /\ Controllers.normalize body = Some input)
    /\ (status r = 200 \/ status r = 204 \/ status r = 400 \/ status r = 401
        \/ status r = 404 \/ status r = 500).
Proof.
  intros cfg routes env req w. cbv zeta. unfold Router.routeRequest.
  destruct (method req =? "OPTIONS");
    [split; [intros H; now destruct H|cbn; auto]|].
  destruct ((pathname req =? API_PATHS_MODELS routes) && (method req =? "GET"));
    [split; [intros H; now destruct H|cbn; auto]|].
  destruct (String.eqb_spec (pathname req) (API_PATHS_CHAT_COMPLETIONS routes))
    as [Hp|]; [|split; [intros H; now destruct H|cbn; auto 6]].
  destruct (String.eqb_spec (method req) "POST")
    as [Hm|]; [|split; [intros H; now destruct H|cbn; auto 6]].
  cbn [andb]. split.
  - intros Hw. split; [exact Hm|]. split; [exact Hp|].
    unfold Controllers.handleChatCompletionRequest in Hw.
    destruct (Controllers.validateApiKey cfg (authorization (request req)))
      as [response|key]; [now destruct Hw|].
    destruct (json (request req)) as [body|]; [|now destruct Hw].
    destruct (Controllers.normalize body) as [input|] eqn:Hn; [|now destruct Hw].
    exists key, body, input. repeat split. exact Hn.
  - destruct (handler_status_range cfg env (request req) w) as [H|[H|[H|H]]];
      rewrite H; auto 6.
Qed.

Lemma X19_only_accepted_completions_have_effects_witness :
  exists key body input,
    Controllers.validateApiKey Sample.cfg (Some "Bearer secret")
    = Controllers.Accepted key
    /\ Some (Sample.bodyOf Sample.question) = Some body
    /\ Controllers.normalize body = Some input.
Proof.
  destruct (proj1 (X19_only_accepted_completions_have_effects
                     Sample.cfg Scenario.routes Sample.greeting
                     {| method := "POST"; pathname := "/v1/chat/completions";
                        request := Sample.authorized (Sample.bodyOf Sample.question) |}
                     Sample.w0)) as (_ & _ & H).
  - vm_compute. discriminate.
  - exact H.
Defined.

(** X20. In the headers object that [handleStreamResponse] and
    [handleModelsRequest] hand to [new Response], the configured CORS
    headers come last in the spread: under every key of [CORS_HEADERS] the
    object holds the configured value (the last one, should the
    configuration name the key twice), also when the key is, letter for
    letter, one that the handler sets itself, whose value is then
    replaced; under any other key it holds what the handler set. Keys are
    those of an object, compared as they are written. *)
Theorem X20_cors_headers_come_last_in_the_headers_object :
  forall (cfg : Config) (routes : Routes) (env : Env) (id modelName : string)
         (input : ModelInput) (w : World) (k : string),
    getKey k (headers (fst (Controllers.handleStreamResponse
                              cfg env id modelName input w)))
    = match getKey k (List.rev (CORS_HEADERS cfg)) with
      | Some v => Some v
      | None => getKey k [("Content-Type", "text/event-stream");
                          ("Cache-Control", "no-cache");
                          ("Connection", "keep-alive")]
      end
    /\ getKey k (headers (Router.handleModelsRequest cfg routes))
       = match getKey k (List.rev (CORS_HEADERS cfg)) with
         | Some v => Some v
         | None => getKey k [("Content-Type", "application/json")]
         end.
Proof.
  intros cfg routes env id modelName input w k. split.
  - unfold Controllers.handleStreamResponse.
    destruct (Controllers.streamFrames cfg env id modelName input w)
      as [[frames final] w'].
    cbn [fst headers]. apply getKey_spread.
  - cbn [Router.handleModelsRequest headers]. apply getKey_spread.
Qed.

(** ** The clock *)

(** X21. During one streaming response the clock is read once for each
    chunk and at no other moment, and the chunks carry the readings in the
    order in which they were taken: the [created] of the [k]-th chunk is the
    [k]-th reading, in whole seconds, rounded down. *)
Theorem X21_one_clock_reading_per_chunk :
  forall (cfg : Config) (env : Env) (id modelName : string) (input : ModelInput)
         (w : World),
    let r := Controllers.streamFrames cfg env id modelName input w in
    let chunks := chunksOf (fst (fst r)) in
    map Chunk.created chunks
    = map (fun k => (dateNow env k / 1000)%Z) (seq (ticks w) (length chunks))
    /\ ticks (snd r) = length chunks + ticks w.
Proof.
  intros cfg env id modelName input w. cbv zeta.
  rewrite streamFrames_eq. cbn [fst snd].
  pose proof (streamModelResponse_ticks cfg env (ApiService.defaultApiService cfg)
                                        input w) as Hw.
  match goal with
  | |- context [Controllers.forEachEvent env id modelName ?t ?evs true "" ?w1] =>
      destruct (forEachEvent_readings env id modelName t evs true "" w1) as [Hc Ht]
  end.
  cbv zeta in Hc, Ht. rewrite Hw in Hc, Ht. split; [exact Hc|exact Ht].
Qed.
